(** * sim_serial.c: host serial-port routines of the terminal multiplexer

    A shallow embedding of [sim_serial.c] and the properties of its
    stream decoder, name resolver, open-device list and configuration
    routine.

    Conventions.
    - A C [int]/[int32] is a [Z]; no arithmetic below can leave the range
      of the values it starts from (counts only shrink), so no wrap-around
      is written.
    - A [char] buffer is a [list Z] of byte values [0..255] (bytes are
      read as [unsigned char], as [memchr], [strcmp] and
      [sim_serial_strncasecmp] read them); a pointer into a buffer is its
      offset from the start of the buffer.
    - A C string is the run of bytes of a buffer before its first NUL
      ([strlen]); reading at or past the end of a list reads the
      terminator.
    - Host calls ([read], [ReadFile], [ClearCommError], [tcgetattr], ...)
      are inputs of the functions that make them. *)

From Stdlib Require Import ZArith Lia Bool Ascii String.
From stdpp Require Import base option list sorting.

Local Open Scope Z_scope.

(** ** Memory primitives of <string.h> on byte buffers *)

(** ['\0'], the string terminator. *)
Definition NUL : Z := 0.

(** [*(buffer + i)]. *)
Definition load (buffer : list Z) (i : Z) : Z :=
  default 0 (buffer !! Z.to_nat i).

(** [*(buffer + i) = v]. *)
Definition store (buffer : list Z) (i : Z) (v : Z) : list Z :=
  <[Z.to_nat i := v]> buffer.

(** [memchr (buffer + from, ch, n)], as the offset of the byte found. *)
Fixpoint memchr_from (buffer : list Z) (from : Z) (ch : Z) (n : nat) : option Z :=
  match n with
  | O => None
  | S n' =>
      if load buffer from =? ch then Some from
      else memchr_from buffer (from + 1) ch n'
  end.

Definition memchr (buffer : list Z) (from : Z) (ch : Z) (n : Z) : option Z :=
  memchr_from buffer from ch (Z.to_nat n).

(** [memmove (buffer + dst, buffer + src, n)]: the [n] bytes at [src] are
    read first, then laid over the buffer at [dst]. *)
Definition memmove (buffer : list Z) (dst src : Z) (n : Z) : list Z :=
  let moved := take (Z.to_nat n) (drop (Z.to_nat src) buffer) in
  take (Z.to_nat dst) buffer ++ moved
    ++ drop (Z.to_nat dst + length moved) buffer.

(** ** Character and string primitives of <ctype.h>, <string.h>, <stdlib.h>

    The "C" locale is assumed: only the ASCII letters have a case. *)

Definition islower (c : Z) : bool := (97 <=? c) && (c <=? 122).
Definition isupper (c : Z) : bool := (65 <=? c) && (c <=? 90).
Definition isdigit (c : Z) : bool := (48 <=? c) && (c <=? 57).
Definition tolower (c : Z) : Z := if isupper c then c + 32 else c.
Definition toupper (c : Z) : Z := if islower c then c - 32 else c.

(** [strlen (s)]: the bytes before the first NUL. *)
Fixpoint strlen (s : list Z) : nat :=
  match s with
  | [] => 0
  | c :: s' => if c =? NUL then 0 else S (strlen s')
  end.

(** What [strcpy (dst, s)] leaves in [dst] up to the terminator. *)
Definition strcpy (s : list Z) : list Z := take (strlen s) s.

(** [strcmp (a, b)]: the difference of the first pair of bytes that
    differ, [0] when both strings end together. *)
Fixpoint strcmp (a b : list Z) : Z :=
  match a with
  | [] => 0 - load b 0
  | c1 :: a' =>
      let c2 := load b 0 in
      if c1 =? c2 then (if c1 =? NUL then 0 else strcmp a' (tail b))
      else c1 - c2
  end.

(** [atoi (s)] on a string that starts with a digit, the only way the
    file calls it: the decimal value of the leading run of digits. *)
Fixpoint atoi_from (s : list Z) (acc : Z) : Z :=
  match s with
  | c :: s' => if isdigit c then atoi_from s' (acc * 10 + (c - 48)) else acc
  | [] => acc
  end.

Definition atoi (s : list Z) : Z := atoi_from s 0.

(** A string literal as the bytes of a C string. *)
Definition bytes (s : string) : list Z :=
  (fun a => Z.of_N (N_of_ascii a)) <$> list_ascii_of_string s.

(** ** The device list and the list of open devices *)

Definition SER_MAX_DEVICE : Z := 64.

(** Modelled from the spec: [SERHANDLE] (sim_serial.h) and [TMLN]
    (sim_tmxr.h) are declared in headers that are not among the sources.
    A port handle is an opaque identifier and the owning line is a
    reference that the list never owns; the file only stores and compares
    them, so both are numbers here. *)
Definition SERHANDLE : Type := Z.
Definition TMLN_ptr : Type := Z.

(** [SERIAL_LIST]. *)
Record SERIAL_LIST : Type := mk_entry {
  name : list Z;
  desc : list Z
}.

(** [struct open_serial_device]. *)
Record open_serial_device : Type := mk_open {
  port : SERHANDLE;
  line : TMLN_ptr;
  od_name : list Z;
  od_desc : list Z
}.

(** The two statics [serial_open_devices] and [serial_open_device_count]:
    the allocated array and the number of its entries in use. *)
Record open_list : Type := mk_list {
  serial_open_devices : list open_serial_device;
  serial_open_device_count : nat
}.

(** The initial value of the statics. *)
Definition no_open_devices : open_list := mk_list [] 0.

(** The entries in use, in iteration order. *)
Definition opened (ol : open_list) : list open_serial_device :=
  take (serial_open_device_count ol) (serial_open_devices ol).

(** [_serial_add_to_open_list]: [realloc] keeps the entries in use and
    makes room for one more, which is zeroed and then filled in; a NULL
    [desc] leaves the description empty. *)
Definition _serial_add_to_open_list (ol : open_list) (port : SERHANDLE)
    (line : TMLN_ptr) (name : list Z) (desc : option (list Z)) : open_list :=
  let count := S (serial_open_device_count ol) in
  let devices := take count (serial_open_devices ol ++ [mk_open 0 0 [] []]) in
  mk_list
    (<[(count - 1)%nat := mk_open port line (strcpy name)
                            (match desc with
                             | Some d => strcpy d
                             | None => []
                             end)]> devices)
    count.

(** The inner loop of [_serial_remove_from_open_list]:
    [for (; j < count; ++j) devices[j-1] = devices[j];] with [n] trips
    left. *)
Fixpoint shift_down (devices : list open_serial_device) (j n : nat)
  : list open_serial_device :=
  match n with
  | O => devices
  | S n' =>
      match devices !! j with
      | Some d => shift_down (<[(j - 1)%nat := d]> devices) (S j) n'
      | None => devices
      end
  end.

(** The outer loop of [_serial_remove_from_open_list] from index [i] on,
    with [n] trips left. *)
Fixpoint remove_from (ol : open_list) (h : SERHANDLE) (i n : nat)
  : open_list :=
  match n with
  | O => ol
  | S n' =>
      match serial_open_devices ol !! i with
      | Some d =>
          if port d =? h then
            let count := serial_open_device_count ol in
            mk_list (shift_down (serial_open_devices ol) (i + 1) (count - (i + 1))%nat)
                    (count - 1)%nat
          else remove_from ol h (S i) n'
      | None => ol
      end
  end.

Definition _serial_remove_from_open_list (ol : open_list) (port : SERHANDLE)
  : open_list :=
  remove_from ol port 0 (serial_open_device_count ol).

(** ** The device catalog: [sim_serial_devices] *)

(** [_serial_name_compare]. *)
Definition _serial_name_compare (a b : SERIAL_LIST) : Z :=
  strcmp (name a) (name b).

(** The order [qsort] establishes with [_serial_name_compare]. *)
Definition name_le (a b : SERIAL_LIST) : Prop := _serial_name_compare a b <= 0.

Global Instance name_le_dec a b : Decision (name_le a b).
Proof. unfold name_le. apply _. Defined.

(** [qsort (list, ports, sizeof (list[0]), _serial_name_compare)].  The C
    library leaves the order of entries with equal names open; the merge
    sort used here keeps them in place. *)
Definition qsort (lst : list SERIAL_LIST) : list SERIAL_LIST :=
  merge_sort name_le lst.

(** The inner [for] of [sim_serial_devices]: is [n] the name of one of the
    entries gathered so far? *)
Definition listed (n : list Z) (lst : list SERIAL_LIST) : bool :=
  existsb (fun e => strcmp n (name e) =? 0) lst.

(** The outer [for] of [sim_serial_devices] over the open devices still to
    be looked at; [lst] is the filled-in part of the array [list], its
    length is [ports]. *)
Fixpoint add_open_ports (max : Z) (lst : list SERIAL_LIST)
    (open : list open_serial_device) : list SERIAL_LIST :=
  match open with
  | [] => lst
  | d :: open' =>
      if listed (od_name d) lst then add_open_ports max lst open'
      else if Z.of_nat (length lst) >=? max then lst
      else add_open_ports max
             (lst ++ [mk_entry (strcpy (od_name d)) (strcpy (od_desc d))])
             open'
  end.

(** [sim_serial_devices (max, list)], where [os] is what
    [sim_serial_os_devices (max, list)] found: the entries it filled in, in
    its order.  The result is the filled-in part of [list]; the function's
    return value [ports] is its length. *)
Definition sim_serial_devices (max : Z) (os : list SERIAL_LIST)
    (ol : open_list) : list SERIAL_LIST :=
  let lst := add_open_ports max os (opened ol) in
  if Z.of_nat (length lst) =? 0 then lst else qsort lst.

(** ** Name lookup *)

(** [sim_serial_getname (number, name)]; [None] is the NULL return. *)
Definition sim_serial_getname (os : list SERIAL_LIST) (ol : open_list)
    (number : Z) : option (list Z) :=
  let lst := sim_serial_devices SER_MAX_DEVICE os ol in
  let count := Z.of_nat (length lst) in
  if count <=? number then None
  else (fun e => strcpy (name e)) <$> lst !! Z.to_nat number.

(** The test of one entry in [sim_serial_getname_bydesc]: equal lengths,
    then every position is compared and [found] is cleared on a
    difference. *)
Fixpoint desc_found (a b : list Z) (k : nat) (n : nat) (found : bool) : bool :=
  match n with
  | O => found
  | S n' =>
      desc_found a b (S k) n'
        (if tolower (load a (Z.of_nat k)) =? tolower (load b (Z.of_nat k))
         then found else false)
  end.

Definition desc_matches (entry_desc desc : list Z) : bool :=
  let j := strlen desc in
  let k := strlen entry_desc in
  if negb (Nat.eqb j k) then false
  else desc_found entry_desc desc 0 j true.

(** [sim_serial_getname_bydesc (desc, name)]. *)
Definition sim_serial_getname_bydesc (os : list SERIAL_LIST) (ol : open_list)
    (user_desc : list Z) : option (list Z) :=
  let lst := sim_serial_devices SER_MAX_DEVICE os ol in
  (fun e => strcpy (name e)) <$> find (fun e => desc_matches (desc e) user_desc) lst.

(** [sim_serial_strncasecmp (string1, string2, len)] from index [i] on, with
    [n = len - i] trips left. *)
Fixpoint strncasecmp_from (string1 string2 : list Z) (i : nat) (n : nat) : Z :=
  match n with
  | O => 0
  | S n' =>
      let s1 := load string1 (Z.of_nat i) in
      let s2 := load string2 (Z.of_nat i) in
      let s1 := if islower s1 then toupper s1 else s1 in
      let s2 := if islower s2 then toupper s2 else s2 in
      if s1 <? s2 then -1
      else if s1 >? s2 then 1
      else if s1 =? 0 then 0
      else strncasecmp_from string1 string2 (S i) n'
  end.

Definition sim_serial_strncasecmp (string1 string2 : list Z) (len : nat) : Z :=
  strncasecmp_from string1 string2 0 len.

(** The test of one entry in [sim_serial_getname_byname] and
    [sim_serial_getdesc_byname]. *)
Definition name_matches (name entry_name : list Z) : bool :=
  let n := strlen name in
  Nat.eqb n (strlen entry_name)
  && (sim_serial_strncasecmp name entry_name n =? 0).

(** [sim_serial_getname_byname (name, temp)]. *)
Definition sim_serial_getname_byname (os : list SERIAL_LIST) (ol : open_list)
    (user_name : list Z) : option (list Z) :=
  let lst := sim_serial_devices SER_MAX_DEVICE os ol in
  (fun e => strcpy (name e)) <$> find (fun e => name_matches user_name (name e)) lst.

(** [sim_serial_getdesc_byname (name, temp)]. *)
Definition sim_serial_getdesc_byname (os : list SERIAL_LIST) (ol : open_list)
    (user_name : list Z) : option (list Z) :=
  let lst := sim_serial_devices SER_MAX_DEVICE os ol in
  (fun e => strcpy (desc e)) <$> find (fun e => name_matches user_name (name e)) lst.

(** The test that opens [sim_open_serial]: is [name] of the form serX? *)
Definition is_serX (name : list Z) : bool :=
  (strlen name <=? 5)%nat
  && (tolower (load name 0) =? 115)
  && (tolower (load name 1) =? 101)
  && (tolower (load name 2) =? 114)
  && isdigit (load name 3)
  && (isdigit (load name 4) || (load name 4 =? NUL)).

(** The first half of [sim_open_serial]: the translation of the name the
    user gave into [savname] and [savdesc].  [None] is the early
    [return INVALID_HANDLE]. *)
Definition translate_name (os : list SERIAL_LIST) (ol : open_list)
    (name : list Z) : option (list Z * option (list Z)) :=
  if is_serX name then
    let num := atoi (drop 3 name) in
    match sim_serial_getname os ol num with
    | None => None
    | Some savname => Some (savname, sim_serial_getdesc_byname os ol savname)
    end
  else
    match sim_serial_getname_bydesc os ol name with
    | None =>
        match sim_serial_getname_byname os ol name with
        | None => Some (strcpy name, None)
        | Some savname => Some (savname, sim_serial_getdesc_byname os ol savname)
        end
    | Some savname => Some (savname, Some (strcpy name))
    end.

Section Open.

(** [INVALID_HANDLE] comes from a header; [sim_open_os_serial] is the
    host's answer to an open request. *)
Variable INVALID_HANDLE : SERHANDLE.
Variable sim_open_os_serial : list Z -> SERHANDLE.

(** [sim_open_serial (name, lp)]: the handle returned and the list of open
    devices afterwards. *)
Definition sim_open_serial (os : list SERIAL_LIST) (ol : open_list)
    (name : list Z) (lp : TMLN_ptr) : SERHANDLE * open_list :=
  match translate_name os ol name with
  | None => (INVALID_HANDLE, ol)
  | Some (savname, savdesc) =>
      let port := sim_open_os_serial savname in
      if negb (port =? INVALID_HANDLE)
      then (port, _serial_add_to_open_list ol port lp savname savdesc)
      else (port, ol)
  end.

(** [sim_close_serial (port)]; closing the host handle leaves nothing to
    record here. *)
Definition sim_close_serial (ol : open_list) (port : SERHANDLE) : open_list :=
  _serial_remove_from_open_list ol port.

End Open.

(** ** Results shared by the two implementations *)

(** Modelled from the spec: the status codes of [t_stat] are set in
    sim_defs.h, which is not among the sources.  The results Ok,
    ArgumentError and IOError of the specification are [SCPE_OK],
    [SCPE_ARG] and [SCPE_IOERR]; [SCPE_IERR] is the fourth code this file
    returns.  Each name is a code of its own. *)
Inductive t_stat : Type := SCPE_OK | SCPE_ARG | SCPE_IOERR | SCPE_IERR.

(** Modelled from the spec: [SERCONFIG] is declared in sim_serial.h, which
    is not among the sources.  Its fields are the four that
    [sim_config_serial] reads: baud rate, character size, parity (a
    character: 'E', 'M', 'N', 'O' or 'S') and stop bits (0 stands for
    1.5). *)
Record SERCONFIG : Type := mk_config {
  baudrate : Z;
  charsize : Z;
  parity : Z;
  stopbits : Z
}.

(** The answer of a host call: success with what it produced, or failure
    with the error code ([GetLastError ()], [errno]). *)
Inductive host (A : Type) : Type :=
  | Done (a : A)
  | Failed (error : Z).
Arguments Done {A} a.
Arguments Failed {A} error.

(** What [sim_read_serial] hands back: its return value and the two
    caller arrays. *)
Record rd_result : Type := mk_res {
  ret : Z;
  out_buffer : list Z;
  out_brk : list Z
}.

(** The characters returned to the caller: the first [ret] bytes. *)
Definition chars (r : rd_result) : list Z :=
  take (Z.to_nat (ret r)) (out_buffer r).

(** ** Windows implementation *)

Module Win.

(** The constants of the Windows headers that the file uses. *)
Record winbase_h : Type := mk_winbase {
  EVENPARITY : Z;
  MARKPARITY : Z;
  NOPARITY : Z;
  ODDPARITY : Z;
  SPACEPARITY : Z;
  ONESTOPBIT : Z;
  ONE5STOPBITS : Z;
  TWOSTOPBITS : Z;
  ERROR_INVALID_PARAMETER : Z;
  CE_BREAK : Z
}.

(** The fields of a [DCB] that [sim_config_serial] assigns; [dcb_rest]
    stands for all the others. *)
Record DCB : Type := mk_dcb {
  BaudRate : Z;
  ByteSize : Z;
  Parity : Z;
  StopBits : Z;
  dcb_rest : Z
}.

Section WithHeaders.

Variable h : winbase_h.

(** The table [parity_map]. *)
Definition parity_map : list (Z * Z) :=
  [ (69, EVENPARITY h); (77, MARKPARITY h); (78, NOPARITY h);
    (79, ODDPARITY h); (83, SPACEPARITY h) ].

(** The [for] loop that assigns the parity: the code of the first entry of
    the table that matches, [None] when it runs to [parity_count]. *)
Definition parity_code (parity : Z) : option Z :=
  snd <$> find (fun e => parity =? fst e) parity_map.

(** [sim_config_serial (port, config)], where [GetCommState] answered
    [get] and [SetCommState] would answer [set dcb]. *)
Definition sim_config_serial (get : host DCB) (set : DCB -> host unit)
    (config : SERCONFIG) : t_stat :=
  match get with
  | Failed _ => SCPE_IOERR
  | Done dcb =>
      let dcb := mk_dcb (baudrate config) (ByteSize dcb) (Parity dcb)
                        (StopBits dcb) (dcb_rest dcb) in
      if (charsize config >=? 5) && (charsize config <=? 8) then
        let dcb := mk_dcb (BaudRate dcb) (charsize config) (Parity dcb)
                          (StopBits dcb) (dcb_rest dcb) in
        match parity_code (parity config) with
        | None => SCPE_ARG
        | Some code =>
            let dcb := mk_dcb (BaudRate dcb) (ByteSize dcb) code
                              (StopBits dcb) (dcb_rest dcb) in
            let stop :=
              if stopbits config =? 1 then Some (ONESTOPBIT h)
              else if stopbits config =? 2 then Some (TWOSTOPBITS h)
              else if stopbits config =? 0 then Some (ONE5STOPBITS h)
              else None in
            match stop with
            | None => SCPE_ARG
            | Some sb =>
                let dcb := mk_dcb (BaudRate dcb) (ByteSize dcb) (Parity dcb)
                                  sb (dcb_rest dcb) in
                match set dcb with
                | Failed error =>
                    if error =? ERROR_INVALID_PARAMETER h then SCPE_ARG
                    else SCPE_IOERR
                | Done _ => SCPE_OK
                end
            end
        end
      else SCPE_ARG
  end.

(** [sim_read_serial (port, buffer, count, brk)], where [ClearCommError]
    answered [cce] (the error flags) and [ReadFile] answered [rf] (the bytes
    it stored at the start of the buffer). *)
Definition sim_read_serial (buffer brk : list Z) (cce : host Z)
    (rf : host (list Z)) : rd_result :=
  match cce with
  | Failed _ => mk_res (-1) buffer brk
  | Done commerrors =>
      match rf with
      | Failed _ => mk_res (-1) buffer brk
      | Done data =>
          let buffer := data ++ drop (length data) buffer in
          let read := Z.of_nat (length data) in
          if negb (Z.land commerrors (CE_BREAK h) =? 0) then
            let brk_at :=
              match memchr buffer 0 0 read with
              | Some bptr => 0 + (bptr - 0)
              | None => 0
              end in
            mk_res read buffer (store brk brk_at 1)
          else mk_res read buffer brk
      end
  end.

End WithHeaders.

End Win.

(** ** UNIX implementation *)

Module Unix.

(** The fields of a [struct termios] that [sim_config_serial] assigns or
    has the C library assign; [tio_rest] stands for all the others. *)
Record termios : Type := mk_tio {
  c_cflag : Z;
  c_ispeed : Z;
  c_ospeed : Z;
  tio_rest : Z
}.

(** What <termios.h> and <errno.h> give the file: the constants it uses,
    [B rate] being the speed code [B50], [B75], ... of a rate, and the two
    functions [cfsetispeed] and [cfsetospeed] of the C library, each as
    the structure it leaves for a structure and a speed code.  Which
    fields they write is the library's business: on Linux they store the
    code in the speed bits of [c_cflag] too. *)
Record termios_h : Type := mk_termios_h {
  B : Z -> Z;
  CSIZE : Z;
  CS5 : Z;
  CS6 : Z;
  CS7 : Z;
  CS8 : Z;
  PARENB : Z;
  PARODD : Z;
  CSTOPB : Z;
  EAGAIN : Z;
  cfsetispeed : termios -> Z -> termios;
  cfsetospeed : termios -> Z -> termios
}.

Section Config.

Variable h : termios_h.

(** The table [baud_map]. *)
Definition baud_map : list (Z * Z) :=
  (fun rate => (rate, B h rate)) <$>
  [ 50; 75; 110; 134; 150; 200; 300; 600; 1200; 1800; 2400; 4800; 9600;
    19200; 38400; 57600; 115200 ].

(** The table [charsize_map]. *)
Definition charsize_map : list Z := [ CS5 h; CS6 h; CS7 h; CS8 h ].

(** The [for] loop that assigns the baud rate: the code of the first entry
    of the table that matches, [None] when it runs to [baud_count]. *)
Definition rate_code (baudrate : Z) : option Z :=
  snd <$> find (fun e => baudrate =? fst e) baud_map.

(** [sim_config_serial (port, config)], where [tcgetattr] answered [get]
    and [tcsetattr] would answer [set tio]. *)
Definition sim_config_serial (get : host termios) (set : termios -> host unit)
    (config : SERCONFIG) : t_stat :=
  match get with
  | Failed _ => SCPE_IOERR
  | Done tio =>
      match rate_code (baudrate config) with
      | None => SCPE_ARG
      | Some code =>
          let tio := cfsetispeed h tio code in
          let tio := cfsetospeed h tio code in
          if (charsize config >=? 5) && (charsize config <=? 8) then
            let tio :=
              mk_tio (Z.lor (Z.land (c_cflag tio) (Z.lnot (CSIZE h)))
                            (load charsize_map (charsize config - 5)))
                     (c_ispeed tio) (c_ospeed tio) (tio_rest tio) in
            let cflag :=
              if parity config =? 69 then
                Some (Z.lor (Z.land (c_cflag tio) (Z.lnot (PARODD h))) (PARENB h))
              else if parity config =? 78 then
                Some (Z.land (c_cflag tio) (Z.lnot (PARENB h)))
              else if parity config =? 79 then
                Some (Z.lor (Z.lor (c_cflag tio) (PARODD h)) (PARENB h))
              else None in
            match cflag with
            | None => SCPE_ARG
            | Some cflag =>
                let tio := mk_tio cflag (c_ispeed tio) (c_ospeed tio)
                                  (tio_rest tio) in
                let cflag :=
                  if stopbits config =? 1 then
                    Some (Z.land (c_cflag tio) (Z.lnot (CSTOPB h)))
                  else if stopbits config =? 2 then
                    Some (Z.lor (c_cflag tio) (CSTOPB h))
                  else None in
                match cflag with
                | None => SCPE_ARG
                | Some cflag =>
                    let tio := mk_tio cflag (c_ispeed tio) (c_ospeed tio)
                                      (tio_rest tio) in
                    match set tio with
                    | Failed _ => SCPE_IERR
                    | Done _ => SCPE_OK
                    end
                end
            end
          else SCPE_ARG
      end
  end.

End Config.

(** ['\377'], the PARMRK marker byte. *)
Definition ESC : Z := 255.

(** The locals of [sim_read_serial] together with the two caller arrays. *)
Record rd_state : Type := mk_rd {
  buffer : list Z;
  brk : list Z;
  cptr : Z;
  remaining : Z;
  read_count : Z
}.

(** One trip through the [while] loop; [None] when its condition fails. *)
Definition scan_step (s : rd_state) : option rd_state :=
  if 0 <? remaining s then
    match memchr (buffer s) (cptr s) ESC (remaining s) with
    | None => None
    | Some bptr =>
        let remaining := remaining s - (bptr - cptr s) - 1 in
        if load (buffer s) (bptr + 1) =? ESC then
          let buffer := memmove (buffer s) (bptr + 1) (bptr + 2) remaining in
          Some (mk_rd buffer (brk s) (bptr + 1)
                      (remaining - 1) (read_count s - 1))
        else if (0 <? remaining) && (load (buffer s) (bptr + 1) =? NUL) then
          let buffer := memmove (buffer s) bptr (bptr + 2) remaining in
          let brk :=
            if load buffer bptr =? NUL then store (brk s) bptr 1 else brk s in
          Some (mk_rd buffer brk (bptr + 1)
                      (remaining - 2) (read_count s - 2))
        else
          Some (mk_rd (buffer s) (brk s) (bptr + 1)
                      remaining (read_count s))
    end
  else None.

(** The [while] loop, with a bound on its trips; [None] when the bound is
    reached before the loop condition fails. *)
Fixpoint scan (fuel : nat) (s : rd_state) : option rd_state :=
  match scan_step s with
  | None => Some s
  | Some s' =>
      match fuel with
      | O => None
      | S fuel' => scan fuel' s'
      end
  end.

Section Read.

Variable h : termios_h.

(** [sim_read_serial (port, buffer, count, brk)] where the host's [read]
    answered [r]: the bytes it stored at the start of the buffer, or [-1]
    with [errno].  The diagnostic printed by [sim_error_serial] is not part
    of the result.  [None] only if the bound on the loop were too small. *)
Definition sim_read_serial (buffer brk : list Z) (r : host (list Z))
  : option rd_result :=
  match r with
  | Failed errno =>
      if errno =? EAGAIN h then Some (mk_res 0 buffer brk)
      else Some (mk_res (-1) buffer brk)
  | Done data =>
      let buffer := data ++ drop (length data) buffer in
      let read_count := Z.of_nat (length data) in
      match scan (length data) (mk_rd buffer brk 0 (read_count - 1) read_count) with
      | Some s => Some (mk_res (Unix.read_count s) (Unix.buffer s) (Unix.brk s))
      | None => None
      end
  end.

End Read.

End Unix.

(** ** Reference definitions for the stream decoder *)

(** Encoding A as the specification words it: scanning left to right,
    [{ESC, ESC}] stands for one literal ESC, [{ESC, NUL, C}] stands for the
    byte [C], which is a BREAK exactly when [C] is NUL, and every other
    byte stands for itself.  Each output byte comes with its BREAK flag. *)
Fixpoint unescape (input : list Z) : list (Z * bool) :=
  match input with
  | [] => []
  | b :: t =>
      if b =? Unix.ESC then
        match t with
        | e :: t' =>
            if e =? Unix.ESC then (Unix.ESC, false) :: unescape t'
            else if e =? NUL then
              match t' with
              | c :: t'' => (c, c =? NUL) :: unescape t''
              | [] => (b, false) :: unescape t
              end
            else (b, false) :: unescape t
        | [] => (b, false) :: unescape t
        end
      else (b, false) :: unescape t
  end.

(** The BREAK array after the flags of the output bytes are set in it:
    a flagged position holds 1, every other slot is as the caller left
    it. *)
Fixpoint mark (flags : list bool) (brk : list Z) : list Z :=
  match flags, brk with
  | f :: flags', x :: brk' => (if f then 1 else x) :: mark flags' brk'
  | _, _ => brk
  end.

(** The bytes and the flags of a decoded sequence. *)
Definition bytes_of (o : list (Z * bool)) : list Z := o.*1.
Definition flags_of (o : list (Z * bool)) : list bool := o.*2.

(** What the caller sees of the state the loop ends in. *)
Definition outcome (s : Unix.rd_state) : rd_result :=
  mk_res (Unix.read_count s) (Unix.buffer s) (Unix.brk s).

(** The state at the head of the loop: [pre] is settled output, [seg] is
    what is left of the bytes read, [junk] lies past [read_count]. *)
Definition at_head (pre seg junk brk : list Z) : Unix.rd_state :=
  Unix.mk_rd (pre ++ seg ++ junk) brk (Z.of_nat (length pre))
        (Z.of_nat (length seg) - 1) (Z.of_nat (length pre + length seg)).


(** ** Reference definitions for the other components *)

(** Reference: where Encoding B puts the flag. *)
Definition first_nul (data : list Z) : option nat :=
  fst <$> list_find (fun b => b = NUL) data.

Definition break_position (data : list Z) : nat := default 0%nat (first_nul data).

Definition break_reported (h : Win.winbase_h) (commerrors : Z) : bool :=
  negb (Z.land commerrors (Win.CE_BREAK h) =? 0).

(** Reference: unregistering on the sequence of entries in use. *)
Fixpoint remove_first (h : SERHANDLE) (l : list open_serial_device)
  : list open_serial_device :=
  match l with
  | [] => []
  | d :: l' => if port d =? h then l' else d :: remove_first h l'
  end.

(** The array holds at least the entries counted as in use. *)
Definition list_ok (ol : open_list) : Prop :=
  (serial_open_device_count ol <= length (serial_open_devices ol))%nat.

(** Reference: equality of two C strings under ASCII case folding. *)
Definition fold_equal (a b : list Z) : Prop :=
  strlen a = strlen b
  /\ forall k : nat, (k < strlen a)%nat ->
       tolower (load a (Z.of_nat k)) = tolower (load b (Z.of_nat k)).

(** The C string that names an entry, and the entry made of an open
    device. *)
Definition cname (e : SERIAL_LIST) : list Z := strcpy (name e).

Definition entry_of (d : open_serial_device) : SERIAL_LIST :=
  mk_entry (strcpy (od_name d)) (strcpy (od_desc d)).

(** Reference: the open devices that bring a name the catalog does not
    have yet, in their order: the first device of each name that is not
    among the names [seen] so far. *)
Fixpoint first_new (seen : list (list Z)) (open : list open_serial_device)
  : list open_serial_device :=
  match open with
  | [] => []
  | d :: open' =>
      if decide (strcpy (od_name d) ∈ seen) then first_new seen open'
      else d :: first_new (seen ++ [strcpy (od_name d)]) open'
  end.

(** Reference: the indexed form of a name, "ser" and one or two decimal
    digits, letters in either case; and the number the digits spell. *)
Definition ser_pattern (user_name : list Z) : Prop :=
  exists s e r ds,
    strcpy user_name = s :: e :: r :: ds
    /\ tolower s = 115 /\ tolower e = 101 /\ tolower r = 114
    /\ (1 <= length ds <= 2)%nat
    /\ Forall (fun c => isdigit c = true) ds.

Definition decimal (ds : list Z) : Z :=
  fold_left (fun acc c => acc * 10 + (c - 48)) ds 0.

(** ** Sample hosts, catalogs and lists of open devices *)

(** The values of the constants on Linux and on Windows, for the
    examples. *)
Definition linux_B (rate : Z) : Z :=
  default 0
    (snd <$> find (fun e => rate =? fst e)
       [ (50, 1); (75, 2); (110, 3); (134, 4); (150, 5); (200, 6); (300, 7);
         (600, 8); (1200, 9); (1800, 10); (2400, 11); (4800, 12); (9600, 13);
         (19200, 14); (38400, 15); (57600, 4097); (115200, 4098) ]).

(** [cfsetispeed] and [cfsetospeed] of the GNU C library on Linux, for a
    speed code of the table: the code goes to the speed field and to the
    bits [CBAUD | CBAUDEX] of [c_cflag]. *)
Definition linux_cfsetispeed (tio : Unix.termios) (speed : Z) : Unix.termios :=
  Unix.mk_tio (Z.lor (Z.land (Unix.c_cflag tio) (Z.lnot 4111)) speed)
              speed (Unix.c_ospeed tio) (Unix.tio_rest tio).

Definition linux_cfsetospeed (tio : Unix.termios) (speed : Z) : Unix.termios :=
  Unix.mk_tio (Z.lor (Z.land (Unix.c_cflag tio) (Z.lnot 4111)) speed)
              (Unix.c_ispeed tio) speed (Unix.tio_rest tio).

Definition linux_termios_h : Unix.termios_h :=
  Unix.mk_termios_h linux_B 48 0 16 32 48 256 512 64 11
                    linux_cfsetispeed linux_cfsetospeed.


Definition two_open : open_list :=
  mk_list [mk_open 3 100 (bytes "COM1") (bytes "Serial0");
           mk_open 4 101 (bytes "COM2") (bytes "Serial1")] 2.

Definition three_open : open_list :=
  mk_list [mk_open 3 100 (bytes "COM1") (bytes "Serial0");
           mk_open 5 102 (bytes "COM3") [];
           mk_open 4 101 (bytes "COM2") (bytes "Serial1");
           mk_open 4 101 (bytes "COM2") (bytes "Serial1")] 3.

Definition host_two : list SERIAL_LIST :=
  [mk_entry (bytes "COM2") (bytes "Serial1");
   mk_entry (bytes "COM1") (bytes "Serial0")].

Definition same_name_twice : open_list :=
  mk_list [mk_open 3 100 (bytes "/dev/ttyACM0") [];
           mk_open 4 101 (bytes "/dev/ttyACM0") []] 2.

Definition case_variants : list SERIAL_LIST :=
  [mk_entry (bytes "A") (bytes "first"); mk_entry (bytes "a") (bytes "second")].

(** ** What the terminal driver delivers in PARMRK mode

    The implementation notes of the UNIX [sim_open_os_serial] and
    [sim_read_serial] describe the stream that the read has to undo: a BREAK
    arrives as [\377 \000 \000], a character with a framing or parity error
    as [\377 \000 \ccc], a received [\377] as [\377 \377], and any other
    character as itself. *)

Inductive line_event : Type :=
  | Received (c : Z)
  | ReceivedBad (c : Z)
  | LineBreak.

Definition parmrk_bytes (e : line_event) : list Z :=
  match e with
  | Received c => if c =? Unix.ESC then [Unix.ESC; Unix.ESC] else [c]
  | ReceivedBad c => [Unix.ESC; NUL; c]
  | LineBreak => [Unix.ESC; NUL; NUL]
  end.

Definition parmrk_stream (events : list line_event) : list Z :=
  concat (parmrk_bytes <$> events).

(** The character an event stands for, and whether the read reports it as a
    BREAK: a bad NUL cannot be told from a BREAK. *)
Definition received_char (e : line_event) : Z :=
  match e with
  | Received c => c
  | ReceivedBad c => c
  | LineBreak => NUL
  end.

Definition read_as_break (e : line_event) : bool :=
  match e with
  | Received _ => false
  | ReceivedBad c => c =? NUL
  | LineBreak => true
  end.

(** What holds of the locals at the head of the loop of the UNIX
    [sim_read_serial], for a read of [k] bytes. *)
Definition scan_inv (k : Z) (s : Unix.rd_state) : Prop :=
  0 <= Unix.cptr s
  /\ Unix.remaining s = Unix.read_count s - Unix.cptr s - 1
  /\ Unix.read_count s <= k
  /\ k <= Z.of_nat (length (Unix.buffer s)).

(** ** Sequences of operations on the list of open devices *)

(** The two operations, as [sim_open_serial] and [sim_close_serial] issue
    them. *)
Inductive list_op : Type :=
  | Register (h : SERHANDLE) (lp : TMLN_ptr) (nm : list Z) (ds : option (list Z))
  | Unregister (h : SERHANDLE).

Definition do_op (ol : open_list) (op : list_op) : open_list :=
  match op with
  | Register h lp nm ds => _serial_add_to_open_list ol h lp nm ds
  | Unregister h => _serial_remove_from_open_list ol h
  end.

(** Reference: the same operations on the sequence of entries in use. *)
Definition ref_op (l : list open_serial_device) (op : list_op)
  : list open_serial_device :=
  match op with
  | Register h lp nm ds =>
      l ++ [mk_open h lp (strcpy nm)
                    (match ds with Some d => strcpy d | None => [] end)]
  | Unregister h => remove_first h l
  end.

(** ** Decimal output: the conversion [%d] of [sprintf] and [fprintf] *)

(** The decimal digits of [n >= 0], most significant first, in front of
    [acc]; [fuel] bounds the number of digits. *)
Fixpoint digits_of (fuel : nat) (n : Z) (acc : list Z) : list Z :=
  match fuel with
  | O => acc
  | S fuel' =>
      if n <? 10 then (48 + n) :: acc
      else digits_of fuel' (n / 10) ((48 + n mod 10) :: acc)
  end.

(** What [%d] prints for [n]: a minus sign for a negative number, then the
    digits with no leading zero. *)
Definition fmt_d (n : Z) : list Z :=
  if n <? 0 then 45 :: digits_of (S (Z.to_nat (- n))) (- n) []
  else digits_of (S (Z.to_nat n)) n [].

(** ** UNIX implementation: the search for host ports *)

Module UnixDevices.

Section Probe.

(** The host's answers: [open_ name] for
    [open (name, O_RDWR | O_NOCTTY | O_NONBLOCK)], the descriptor or
    [errno], and [isatty port]. *)
Variable open_ : list Z -> host Z.
Variable isatty : Z -> bool.

(** The body of the two [for] loops after the [sprintf]: was [ports]
    incremented for the name just written? *)
Definition is_tty (nm : list Z) : bool :=
  match open_ nm with
  | Done port => isatty port
  | Failed _ => false
  end.

(** One of the two [for] loops, from index [i] with [n] indexes left up to
    64; [format] is the text before [%d], [lst] the entries counted so
    far.  The description of an entry is what [memset] left there. *)
Fixpoint probe (format : list Z) (max : Z) (i : Z) (n : nat)
    (lst : list SERIAL_LIST) : list SERIAL_LIST :=
  match n with
  | O => lst
  | S n' =>
      if Z.of_nat (length lst) <? max then
        let nm := format ++ fmt_d i in
        probe format max (i + 1) n'
              (if is_tty nm then lst ++ [mk_entry nm []] else lst)
      else lst
  end.

(** [sim_serial_os_devices (max, list)]: the entries counted, in order;
    the return value [ports] is their number. *)
Definition sim_serial_os_devices (max : Z) : list SERIAL_LIST :=
  probe (bytes "/dev/ttyUSB") max 0 64
        (probe (bytes "/dev/ttyS") max 0 64 []).

End Probe.

End UnixDevices.

(** Reference: the 128 names the UNIX search tries, in the order it tries
    them. *)
Definition numbered (format : list Z) (from : Z) (n : nat) : list (list Z) :=
  (fun k => format ++ fmt_d (from + Z.of_nat k)) <$> seq 0 n.

Definition unix_candidates : list (list Z) :=
  numbered (bytes "/dev/ttyS") 0 64 ++ numbered (bytes "/dev/ttyUSB") 0 64.

(** ** The display of the host ports: [sim_show_serial] *)

(** [ser%d]. *)
Definition label (i : Z) : list Z := bytes "ser" ++ fmt_d i.

(** [%-*s] with the width [min]: the string, then blanks up to the
    width. *)
Definition pad_right (min : nat) (s : list Z) : list Z :=
  strcpy s ++ replicate (min - strlen s) 32.

(** [%02d]: zeros in front up to two characters. *)
Definition fmt_02d (n : Z) : list Z :=
  replicate (2 - length (fmt_d n)) 48 ++ fmt_d n.

(** The first [for] loop: the length of the longest name. *)
Definition longest (lst : list SERIAL_LIST) : nat :=
  fold_left (fun min e => if (min <? strlen (name e))%nat
                          then strlen (name e) else min) lst 0%nat.

(** [" ser%d\t%-*s (%s)\n"] for entry [i]. *)
Definition device_row (min : nat) (i : Z) (e : SERIAL_LIST) : list Z :=
  [32] ++ label i ++ [9] ++ pad_right min (name e)
       ++ bytes " (" ++ strcpy (desc e) ++ bytes ")" ++ [10].

(** The second [for] loop, from entry [i] on. *)
Fixpoint device_rows (min : nat) (i : Z) (lst : list SERIAL_LIST) : list Z :=
  match lst with
  | [] => []
  | e :: lst' => device_row min i e ++ device_rows min (i + 1) lst'
  end.

Section Show.

(** Modelled from the spec: [TMLN], [TMXR] and [DEVICE] are declared in
    sim_tmxr.h and sim_defs.h, which are not among the sources.  Of the
    line of an open device [sim_show_serial] prints [mp->dptr->name], the
    difference [mp->ldsc - line] and [sername]; they are functions of the
    line here. *)
Variable dptr_name : TMLN_ptr -> list Z.
Variable ldsc_minus_line : TMLN_ptr -> Z.
Variable sername : TMLN_ptr -> list Z.

Variable os : list SERIAL_LIST.
Variable ol : open_list.

(** The line printed for one open device. *)
Definition open_row (d : open_serial_device) : list Z :=
  let start :=
    [32] ++ strcpy (dptr_name (line d)) ++ [9] ++ bytes "Ln"
         ++ fmt_02d (ldsc_minus_line (line d)) ++ [32]
         ++ strcpy (sername (line d)) in
  match sim_serial_getdesc_byname os ol (od_name d) with
  | Some d => start ++ bytes " (" ++ strcpy d ++ bytes ")" ++ [10]
  | None => start ++ [10]
  end.

(** [sim_show_serial (st, dptr, uptr, val, desc)]: the text written to
    [st] and the status returned. *)
Definition sim_show_serial : list Z * t_stat :=
  let lst := sim_serial_devices SER_MAX_DEVICE os ol in
  let number := Z.of_nat (length lst) in
  let st := bytes "Serial devices:" ++ [10] in
  let st :=
    if number =? -1 then
      st ++ bytes "  serial support not available in simulator" ++ [10]
    else if number =? 0 then
      st ++ bytes "  no serial devices are available" ++ [10]
    else st ++ device_rows (longest lst) 0 lst in
  let st :=
    if negb (Nat.eqb (serial_open_device_count ol) 0) then
      st ++ bytes "Open Serial Devices:" ++ [10]
         ++ concat (open_row <$> opened ol)
    else st in
  (st, SCPE_OK).

End Show.

(** ** Diagnostics: [sim_error_serial] *)

(** What [sim_error_serial (routine, error)] writes to [stderr]. *)
Definition sim_error_serial (routine : string) (error : Z) : list Z :=
  bytes "Serial: " ++ bytes routine ++ bytes " fails with error "
        ++ fmt_d error ++ [10].

(** ** UNIX implementation: opening a port *)

Module UnixOpen.

(** The constants of <termios.h> and <errno.h> that [sim_open_os_serial]
    uses. *)
Record termios_h : Type := mk_termios_h {
  IGNBRK : Z; BRKINT : Z; INPCK : Z; ISTRIP : Z; INLCR : Z; IGNCR : Z;
  ICRNL : Z; IXON : Z; IXOFF : Z;
  PARMRK : Z; IGNPAR : Z;
  OPOST : Z;
  HUPCL : Z;
  CREAD : Z; CLOCAL : Z;
  ISIG : Z; ICANON : Z; ECHO : Z; ECHOE : Z; ECHOK : Z; ECHONL : Z;
  NOFLSH : Z; TOSTOP : Z; IEXTEN : Z;
  ENOENT : Z; EACCES : Z
}.

(** The four mode words of a [struct termios]; [modes_rest] stands for its
    other fields. *)
Record termios : Type := mk_tio {
  c_iflag : Z;
  c_oflag : Z;
  c_cflag : Z;
  c_lflag : Z;
  modes_rest : Z
}.

(** What the function asks of the host and what it writes to [stderr], in
    the order it does so. *)
Inductive event : Type :=
  | Open (name : list Z)
  | Isatty (port : SERHANDLE)
  | Tcgetattr (port : SERHANDLE)
  | Tcsetattr (port : SERHANDLE) (tio : termios)
  | Close (port : SERHANDLE)
  | Stderr (text : list Z).

Section Open.

Variable h : termios_h.
Variable INVALID_HANDLE : SERHANDLE.

(** The host's answers: the descriptor or [errno] for [open], the modes or
    [errno] for [tcgetattr], success or [errno] for [tcsetattr]. *)
Variable open_ : list Z -> host SERHANDLE.
Variable isatty : SERHANDLE -> bool.
Variable tcgetattr : SERHANDLE -> host termios.
Variable tcsetattr : SERHANDLE -> termios -> host unit.

Definition i_clear : Z :=
  Z.lor (Z.lor (Z.lor (Z.lor (Z.lor (Z.lor (Z.lor (Z.lor
    (IGNBRK h) (BRKINT h)) (INPCK h)) (ISTRIP h)) (INLCR h)) (IGNCR h))
    (ICRNL h)) (IXON h)) (IXOFF h).
Definition i_set : Z := Z.lor (PARMRK h) (IGNPAR h).
Definition o_clear : Z := OPOST h.
Definition o_set : Z := 0.
Definition c_clear : Z := HUPCL h.
Definition c_set : Z := Z.lor (CREAD h) (CLOCAL h).
Definition l_clear : Z :=
  Z.lor (Z.lor (Z.lor (Z.lor (Z.lor (Z.lor (Z.lor (Z.lor
    (ISIG h) (ICANON h)) (ECHO h)) (ECHOE h)) (ECHOK h)) (ECHONL h))
    (NOFLSH h)) (TOSTOP h)) (IEXTEN h).
Definition l_set : Z := 0.

(** The four assignments that configure the line for raw mode. *)
Definition raw_mode (tio : termios) : termios :=
  mk_tio (Z.lor (Z.land (c_iflag tio) (Z.lnot i_clear)) i_set)
         (Z.lor (Z.land (c_oflag tio) (Z.lnot o_clear)) o_set)
         (Z.lor (Z.land (c_cflag tio) (Z.lnot c_clear)) c_set)
         (Z.lor (Z.land (c_lflag tio) (Z.lnot l_clear)) l_set)
         (modes_rest tio).

(** [sim_open_os_serial (name)]: the handle returned and what was done on
    the way. *)
Definition sim_open_os_serial (name : list Z) : SERHANDLE * list event :=
  match open_ name with
  | Failed errno =>
      if negb (errno =? ENOENT h) && negb (errno =? EACCES h)
      then (INVALID_HANDLE, [Open name; Stderr (sim_error_serial "open" errno)])
      else (INVALID_HANDLE, [Open name])
  | Done port =>
      if negb (isatty port)
      then (INVALID_HANDLE, [Open name; Isatty port; Close port])
      else
        match tcgetattr port with
        | Failed errno =>
            (INVALID_HANDLE,
             [Open name; Isatty port; Tcgetattr port;
              Stderr (sim_error_serial "tcgetattr" errno); Close port])
        | Done tio =>
            let tio := raw_mode tio in
            match tcsetattr port tio with
            | Failed errno =>
                (INVALID_HANDLE,
                 [Open name; Isatty port; Tcgetattr port; Tcsetattr port tio;
                  Stderr (sim_error_serial "tcsetattr" errno); Close port])
            | Done _ =>
                (port,
                 [Open name; Isatty port; Tcgetattr port; Tcsetattr port tio])
            end
        end
  end.

End Open.

End UnixOpen.

(** The values of the constants on Linux, for the examples. *)
Definition linux_open_h : UnixOpen.termios_h :=
  UnixOpen.mk_termios_h 1 2 16 32 64 128 256 1024 4096
                        8 4
                        1
                        1024
                        128 2048
                        1 2 8 16 32 64 128 256 32768
                        2 13.

(** ** Windows implementation: the search for host ports *)

Module WinDevices.

(** One value of the registry key SERIALCOMM as [RegEnumValueA] hands it
    over: its type, its name, its data and the size of the data. *)
Record reg_value : Type := mk_value {
  dwType : Z;
  value_name : list Z;
  data : list Z;
  dwDataSize : Z
}.

Section Enumerate.

Variable REG_SZ : Z.

(** The test of the loop body: a string value of non-zero size. *)
Definition interesting (v : reg_value) : bool :=
  (dwType v =? REG_SZ) && (0 <? dwDataSize v).

(** The [while] loop over the values that [RegEnumValueA] still hands
    over.  [lst] holds the entries counted so far, [ports] is its length,
    and [list[ports]] is the entry the next value is stored in and the
    two [memset] calls clear.  The array has the elements [list[0]] to
    [list[max - 1]]; [beyond] records that [list[ports]] was written to
    with [ports] no smaller than [max]. *)
Fixpoint enumerate (max : Z) (values : list reg_value)
    (lst : list SERIAL_LIST) (beyond : bool) : list SERIAL_LIST * bool :=
  match values with
  | [] => (lst, beyond)
  | v :: values' =>
      let beyond := beyond || (max <=? Z.of_nat (length lst)) in
      if interesting v then
        if Z.of_nat (length lst) <? max then
          let lst := lst ++ [mk_entry (data v) (value_name v)] in
          enumerate max values' lst
                    (beyond || (max <=? Z.of_nat (length lst)))
        else (lst, beyond)
      else enumerate max values' lst beyond
  end.

(** [sim_serial_os_devices (max, list)], where [key] is the answer to
    [RegOpenKeyExA] together with the values that [RegEnumValueA] hands
    over before its first failure: the entries counted, and whether the
    array was written to beyond its end. *)
Definition sim_serial_os_devices (max : Z) (key : host (list reg_value))
  : list SERIAL_LIST * bool :=
  match key with
  | Failed _ => ([], false)
  | Done values => enumerate max values [] false
  end.

End Enumerate.

End WinDevices.

(** ** Windows implementation: opening a port *)

Module WinOpen.

(** The constants of the Windows headers that [sim_open_os_serial]
    uses. *)
Record winbase_h : Type := mk_winbase {
  ERROR_INVALID_PARAMETER : Z;
  ERROR_FILE_NOT_FOUND : Z;
  ERROR_ACCESS_DENIED : Z;
  DTR_CONTROL_DISABLE : Z;
  MAXDWORD : Z
}.

(** The fields of a [DCB] that [sim_open_os_serial] assigns; [dcb_rest]
    stands for all the others. *)
Record DCB : Type := mk_dcb {
  BaudRate : Z;
  Parity : Z;
  ByteSize : Z;
  StopBits : Z;
  fOutX : Z;
  fInX : Z;
  fDtrControl : Z;
  dcb_rest : Z
}.

Record COMMTIMEOUTS : Type := mk_cto {
  ReadIntervalTimeout : Z;
  ReadTotalTimeoutMultiplier : Z;
  ReadTotalTimeoutConstant : Z;
  WriteTotalTimeoutMultiplier : Z;
  WriteTotalTimeoutConstant : Z
}.

(** What the function asks of the host and what it writes to [stderr], in
    the order it does so. *)
Inductive event : Type :=
  | GetDefaultCommConfig (name : list Z)
  | CreateFile (name : list Z)
  | GetCommState (port : SERHANDLE)
  | SetCommState (port : SERHANDLE) (dcb : DCB)
  | SetCommTimeouts (port : SERHANDLE) (cto : COMMTIMEOUTS)
  | CloseHandle (port : SERHANDLE)
  | Stderr (text : list Z).

Section Open.

Variable h : winbase_h.
Variable INVALID_HANDLE : SERHANDLE.

(** The host's answers; a failure carries what [GetLastError] returns
    after it.  [create_file] fails when [CreateFile] returns
    [INVALID_HANDLE_VALUE]. *)
Variable get_default_comm_config : list Z -> host DCB.
Variable create_file : list Z -> host SERHANDLE.
Variable get_comm_state : SERHANDLE -> host DCB.
Variable set_comm_state : SERHANDLE -> DCB -> host unit.
Variable set_comm_timeouts : SERHANDLE -> COMMTIMEOUTS -> host unit.

(** The assignments to [dcb] between [GetCommState] and
    [SetCommState]. *)
Definition with_defaults (commdefault dcb : DCB) : DCB :=
  mk_dcb (BaudRate commdefault) (Parity commdefault) (ByteSize commdefault)
         (StopBits commdefault) (fOutX commdefault) (fInX commdefault)
         (DTR_CONTROL_DISABLE h) (dcb_rest dcb).

(** The timeouts that make a read return at once. *)
Definition polling : COMMTIMEOUTS := mk_cto (MAXDWORD h) 0 0 0 0.

(** [sim_open_os_serial (name)]: the handle returned and what was done on
    the way. *)
Definition sim_open_os_serial (name : list Z) : SERHANDLE * list event :=
  match get_default_comm_config name with
  | Failed error =>
      if negb (error =? ERROR_INVALID_PARAMETER h)
      then (INVALID_HANDLE,
            [GetDefaultCommConfig name;
             Stderr (sim_error_serial "GetDefaultCommConfig" error)])
      else (INVALID_HANDLE, [GetDefaultCommConfig name])
  | Done commdefault =>
      match create_file name with
      | Failed error =>
          if negb (error =? ERROR_FILE_NOT_FOUND h)
             && negb (error =? ERROR_ACCESS_DENIED h)
          then (INVALID_HANDLE,
                [GetDefaultCommConfig name; CreateFile name;
                 Stderr (sim_error_serial "CreateFile" error)])
          else (INVALID_HANDLE, [GetDefaultCommConfig name; CreateFile name])
      | Done port =>
          match get_comm_state port with
          | Failed error =>
              if negb (error =? ERROR_INVALID_PARAMETER h)
              then (INVALID_HANDLE,
                    [GetDefaultCommConfig name; CreateFile name;
                     GetCommState port;
                     Stderr (sim_error_serial "GetCommState" error);
                     CloseHandle port])
              else (INVALID_HANDLE,
                    [GetDefaultCommConfig name; CreateFile name;
                     GetCommState port; CloseHandle port])
          | Done dcb =>
              let dcb := with_defaults commdefault dcb in
              match set_comm_state port dcb with
              | Failed error =>
                  (INVALID_HANDLE,
                   [GetDefaultCommConfig name; CreateFile name;
                    GetCommState port; SetCommState port dcb;
                    Stderr (sim_error_serial "SetCommState" error);
                    CloseHandle port])
              | Done _ =>
                  match set_comm_timeouts port polling with
                  | Failed error =>
                      (INVALID_HANDLE,
                       [GetDefaultCommConfig name; CreateFile name;
                        GetCommState port; SetCommState port dcb;
                        SetCommTimeouts port polling;
                        Stderr (sim_error_serial "SetCommTimeouts" error);
                        CloseHandle port])
                  | Done _ =>
                      (port,
                       [GetDefaultCommConfig name; CreateFile name;
                        GetCommState port; SetCommState port dcb;
                        SetCommTimeouts port polling])
                  end
              end
          end
      end
  end.

End Open.

End WinOpen.

(** * Properties *)

(** ** The stream decoder of the UNIX implementation *)

Module DecoderFacts.
Import Unix.

Lemma load_app_r pre l i :
  i = Z.of_nat (length pre) -> load (pre ++ l) i = default 0 (head l).
Proof.
  intros ->. unfold load. rewrite Nat2Z.id.
  rewrite lookup_app_r by lia. rewrite Nat.sub_diag. by destruct l.
Qed.

Lemma load_app_r1 pre x l i :
  i = Z.of_nat (length pre) + 1 -> load (pre ++ x :: l) i = default 0 (head l).
Proof.
  intros ->. replace (pre ++ x :: l) with ((pre ++ [x]) ++ l) by by rewrite <- app_assoc.
  apply load_app_r. rewrite length_app. simpl. lia.
Qed.

Lemma memmove_slide p q m j d s n :
  d = Z.of_nat (length p) -> s = Z.of_nat (length p + length q) ->
  n = Z.of_nat (length m) ->
  exists j', length j' = (length q + length j)%nat /\
    memmove (p ++ q ++ m ++ j) d s n = p ++ m ++ j'.
Proof.
  intros -> -> ->. unfold memmove. rewrite !Nat2Z.id.
  exists (drop (length p + length m) (p ++ q ++ m ++ j)). split.
  - rewrite length_drop, !length_app. lia.
  - rewrite take_app_length. f_equal.
    rewrite drop_app_add', drop_app_length by done.
    rewrite take_app_length. done.
Qed.

Lemma mark_store n flags brk :
  mark (replicate n false ++ true :: flags) brk =
  mark (replicate (S n) false ++ flags) (store brk (Z.of_nat n) 1).
Proof.
  unfold store. rewrite Nat2Z.id. revert brk.
  induction n as [|n IH]; intros [|x brk]; simpl; try done.
  by rewrite IH.
Qed.

Lemma mark_false_snoc n flags brk :
  mark (replicate n false ++ false :: flags) brk =
  mark (replicate (S n) false ++ flags) brk.
Proof.
  change (false :: flags) with (replicate 1 false ++ flags).
  rewrite app_assoc, <- replicate_add. by rewrite Nat.add_1_r.
Qed.

Lemma memchr_here buf c ch n :
  0 < n -> load buf c = ch -> memchr buf c ch n = Some c.
Proof.
  intros Hn Hl. unfold memchr.
  destruct (Z.to_nat n) as [|k] eqn:E; [lia|]. simpl.
  by rewrite (proj2 (Z.eqb_eq _ _) Hl).
Qed.

Lemma memchr_next buf c ch n :
  0 < n -> load buf c <> ch -> memchr buf c ch n = memchr buf (c + 1) ch (n - 1).
Proof.
  intros Hn Hl. unfold memchr.
  replace (Z.to_nat n) with (S (Z.to_nat (n - 1))) by lia. simpl.
  by rewrite (proj2 (Z.eqb_neq _ _) Hl).
Qed.

Lemma scan_step_skip buf brk c rem rc :
  0 < rem -> load buf c <> ESC ->
  scan_step (mk_rd buf brk c rem rc) = scan_step (mk_rd buf brk (c + 1) (rem - 1) rc).
Proof.
  intros Hrem Hl. unfold scan_step. simpl.
  rewrite (proj2 (Z.ltb_lt _ _) Hrem), memchr_next by done.
  destruct (0 <? rem - 1) eqn:E.
  - destruct (memchr buf (c + 1) ESC (rem - 1)) as [b|]; [|done].
    by replace (rem - 1 - (b - (c + 1)) - 1) with (rem - (b - c) - 1) by lia.
  - apply Z.ltb_ge in E. unfold memchr.
    by replace (Z.to_nat (rem - 1)) with 0%nat by lia.
Qed.

Lemma scan_unfold fuel s :
  scan fuel s =
  match scan_step s with
  | None => Some s
  | Some s' => match fuel with O => None | S fuel' => scan fuel' s' end
  end.
Proof. by destruct fuel. Qed.

Lemma scan_skip fuel buf brk c rem rc :
  0 < rem -> load buf c <> ESC ->
  outcome <$> scan fuel (mk_rd buf brk c rem rc) =
  outcome <$> scan fuel (mk_rd buf brk (c + 1) (rem - 1) rc).
Proof.
  intros Hrem Hl.
  rewrite (scan_unfold fuel (mk_rd buf brk c rem rc)).
  rewrite (scan_unfold fuel (mk_rd buf brk (c + 1) (rem - 1) rc)).
  rewrite (scan_step_skip buf brk c rem rc) by done.
  by destruct (scan_step _).
Qed.

Lemma scan_stop fuel s : remaining s <= 0 -> scan fuel s = Some s.
Proof.
  intros H. assert (scan_step s = None) as E.
  { unfold scan_step. by rewrite (proj2 (Z.ltb_ge _ _) H). }
  by rewrite scan_unfold, E.
Qed.

Lemma mark_replicate_false n brk : mark (replicate n false) brk = brk.
Proof.
  revert brk. induction n as [|n IH]; intros [|b brk]; simpl; try done.
  by rewrite IH.
Qed.

Lemma unescape_other x t :
  x <> ESC -> unescape (x :: t) = (x, false) :: unescape t.
Proof. intros Hx. simpl. by rewrite (proj2 (Z.eqb_neq _ _) Hx). Qed.

Lemma unescape_single x : unescape [x] = [(x, false)].
Proof. simpl. by destruct (x =? ESC). Qed.

Lemma unescape_esc_esc t :
  unescape (ESC :: ESC :: t) = (ESC, false) :: unescape t.
Proof. done. Qed.

Lemma unescape_esc_nul c t :
  unescape (ESC :: NUL :: c :: t) = (c, c =? NUL) :: unescape t.
Proof. done. Qed.

Lemma unescape_esc_other y t :
  y <> ESC -> y <> NUL \/ t = [] ->
  unescape (ESC :: y :: t) = (ESC, false) :: unescape (y :: t).
Proof.
  intros Hy Ht.
  change (unescape (ESC :: y :: t)) with
    (if y =? ESC then (ESC, false) :: unescape t
     else if y =? NUL then
       match t with
       | c :: t'' => (c, c =? NUL) :: unescape t''
       | [] => (ESC, false) :: unescape (y :: t)
       end
     else (ESC, false) :: unescape (y :: t)).
  rewrite (proj2 (Z.eqb_neq _ _) Hy).
  destruct Ht as [Hy0| ->]; [by rewrite (proj2 (Z.eqb_neq _ _) Hy0)|].
  by destruct (y =? NUL).
Qed.

Lemma scan_step_esc pre y t junk brk :
  scan_step (at_head pre (ESC :: y :: t) junk brk) =
  let buf := pre ++ (ESC :: y :: t) ++ junk in
  let p := Z.of_nat (length pre) in
  let r := Z.of_nat (length t) in
  let rc := Z.of_nat (length pre + length (ESC :: y :: t)) in
  if y =? ESC then
    Some (mk_rd (memmove buf (p + 1) (p + 2) r) brk (p + 1) (r - 1) (rc - 1))
  else if (0 <? r) && (y =? NUL) then
    Some (mk_rd (memmove buf p (p + 2) r)
                (if load (memmove buf p (p + 2) r) p =? NUL
                 then store brk p 1 else brk)
                (p + 1) (r - 2) (rc - 2))
  else Some (mk_rd buf brk (p + 1) r rc).
Proof.
  unfold at_head, scan_step.
  cbn [buffer Unix.brk cptr remaining read_count].
  change ((ESC :: y :: t) ++ junk) with (ESC :: y :: t ++ junk).
  assert ((0 <? Z.of_nat (length (ESC :: y :: t)) - 1) = true) as ->.
  { apply Z.ltb_lt. simpl length. lia. }
  rewrite memchr_here; cycle 1.
  { simpl length. lia. }
  { by rewrite load_app_r. }
  rewrite load_app_r1 by done. cbn [head default].
  replace (Z.of_nat (length (ESC :: y :: t)) - 1
           - (Z.of_nat (length pre) - Z.of_nat (length pre)) - 1)
    with (Z.of_nat (length t)) by (simpl length; lia).
  done.
Qed.

Lemma at_head_eq pre seg junk brk buf c rem rc :
  buf = pre ++ seg ++ junk -> c = Z.of_nat (length pre) ->
  rem = Z.of_nat (length seg) - 1 -> rc = Z.of_nat (length pre + length seg) ->
  mk_rd buf brk c rem rc = at_head pre seg junk brk.
Proof. by intros -> -> -> ->. Qed.

(** Closes the side conditions of [at_head_eq]. *)
Ltac head_side :=
  repeat rewrite length_app; simpl length;
  first [ lia | by rewrite <- ?app_assoc ].

Lemma result_snoc pre x bytes junk flags brk (k : nat) n :
  n = Z.of_nat (length pre + S k) ->
  mk_res (Z.of_nat (length (pre ++ [x]) + k))
         ((pre ++ [x]) ++ bytes ++ junk)
         (mark (replicate (length (pre ++ [x])) false ++ flags) brk)
  = mk_res n (pre ++ (x :: bytes) ++ junk)
           (mark (replicate (length pre) false ++ false :: flags) brk).
Proof.
  intros ->. rewrite length_app, <- app_assoc. simpl.
  rewrite Nat.add_1_r, mark_false_snoc. f_equal. lia.
Qed.

Lemma scan_unescape n : forall seg pre junk brk fuel,
  (length seg <= n)%nat -> (length seg <= fuel)%nat ->
  exists junk',
    (length (unescape seg) + length junk' = length seg + length junk)%nat /\
    outcome <$> scan fuel (at_head pre seg junk brk) =
      Some (mk_res (Z.of_nat (length pre + length (unescape seg)))
                   (pre ++ bytes_of (unescape seg) ++ junk')
                   (mark (replicate (length pre) false ++ flags_of (unescape seg)) brk)).
Proof.
  induction n as [|n IH]; intros seg pre junk brk fuel Hn Hf.
  { destruct seg; [|simpl in Hn; lia]. exists junk.
    split; [done|]. rewrite scan_stop by (simpl; lia). unfold at_head, outcome. simpl.
    by rewrite app_nil_r, mark_replicate_false. }
  destruct seg as [|x [|y t]].
  - apply (IH [] pre junk brk fuel); simpl; lia.
  - (* a single byte is never searched *)
    exists junk. rewrite unescape_single. split; [done|].
    rewrite scan_stop by (simpl; lia). unfold at_head, outcome. simpl.
    f_equal. f_equal.
    change (false :: []) with (replicate 1 false).
    by rewrite <- replicate_add, mark_replicate_false.
  - destruct (decide (x = ESC)) as [->|Hx].
    + destruct fuel as [|fuel]; [simpl in Hf; lia|].
      rewrite scan_unfold, scan_step_esc. cbv zeta.
      destruct (decide (y = ESC)) as [->|Hy].
      * (* \377 \377 *)
        rewrite Z.eqb_refl.
        destruct (memmove_slide (pre ++ [ESC]) [ESC] t junk
                    (Z.of_nat (length pre) + 1) (Z.of_nat (length pre) + 2)
                    (Z.of_nat (length t))) as (j1 & Hj1 & Hmv).
        { head_side. } { head_side. } { done. }
        rewrite <- !app_assoc in Hmv. simpl in Hmv. simpl app. rewrite Hmv.
        rewrite (at_head_eq (pre ++ [ESC]) t j1 brk) by head_side.
        destruct (IH t (pre ++ [ESC]) j1 brk fuel) as (junk' & Hl & Hs).
        { simpl in *. lia. } { simpl in *. lia. }
        exists junk'. rewrite unescape_esc_esc. split.
        { simpl in *. lia. }
        rewrite Hs. f_equal. by apply result_snoc.
      * rewrite (proj2 (Z.eqb_neq _ _) Hy).
        destruct (decide (y = NUL)) as [->|Hy0]; [destruct t as [|c t]|].
        -- (* \377 \000 at the very end: left as read *)
           simpl length. change (0 <? Z.of_nat 0) with false. cbn [andb].
           rewrite (at_head_eq (pre ++ [ESC]) [NUL] junk brk) by head_side.
           destruct (IH [NUL] (pre ++ [ESC]) junk brk fuel) as (junk' & Hl & Hs).
           { simpl in *. lia. } { simpl in *. lia. }
           exists junk'. rewrite unescape_esc_other by (done || by right).
           split. { simpl in *. lia. }
           rewrite Hs. f_equal. by apply result_snoc.
        -- (* \377 \000 \ccc *)
           assert ((0 <? Z.of_nat (length (c :: t))) = true) as ->.
           { apply Z.ltb_lt. simpl length. lia. }
           rewrite Z.eqb_refl. cbn [andb].
           destruct (memmove_slide pre [ESC; NUL] (c :: t) junk
                       (Z.of_nat (length pre)) (Z.of_nat (length pre) + 2)
                       (Z.of_nat (length (c :: t)))) as (j1 & Hj1 & Hmv).
           { done. } { simpl. lia. } { done. }
           simpl app in Hmv. simpl app. rewrite Hmv.
           rewrite load_app_r by done. cbn [head default].
           set (brk' := if c =? NUL then store brk (Z.of_nat (length pre)) 1 else brk).
           rewrite (at_head_eq (pre ++ [c]) t j1 brk') by head_side.
           destruct (IH t (pre ++ [c]) j1 brk' fuel) as (junk' & Hl & Hs).
           { simpl in *. lia. } { simpl in *. lia. }
           exists junk'. rewrite unescape_esc_nul. split.
           { simpl in *. lia. }
           rewrite Hs. f_equal. unfold brk'. simpl.
           rewrite length_app, <- app_assoc. simpl. rewrite Nat.add_1_r.
           f_equal; [lia|]. destruct (c =? NUL).
           ++ by rewrite mark_store.
           ++ by rewrite mark_false_snoc.
        -- (* \377 before an ordinary byte *)
           rewrite (proj2 (Z.eqb_neq _ _) Hy0), andb_false_r.
           rewrite (at_head_eq (pre ++ [ESC]) (y :: t) junk brk) by head_side.
           destruct (IH (y :: t) (pre ++ [ESC]) junk brk fuel) as (junk' & Hl & Hs).
           { simpl in *. lia. } { simpl in *. lia. }
           exists junk'. rewrite unescape_esc_other by (done || by left).
           split. { simpl in *. lia. }
           rewrite Hs. f_equal. by apply result_snoc.
    + (* an ordinary byte is skipped by memchr *)
      unfold at_head. rewrite scan_skip; cycle 1.
      { simpl length. lia. }
      { rewrite load_app_r by done. done. }
      rewrite (at_head_eq (pre ++ [x]) (y :: t) junk brk) by head_side.
      destruct (IH (y :: t) (pre ++ [x]) junk brk fuel) as (junk' & Hl & Hs).
      { simpl in *. lia. } { simpl in *. lia. }
      exists junk'. rewrite unescape_other by done.
      split. { simpl in *. lia. }
      rewrite Hs. f_equal. by apply result_snoc.
Qed.

Lemma read_outcome h buffer brk data :
  sim_read_serial h buffer brk (Done data) =
  outcome <$> scan (length data) (at_head [] data (drop (length data) buffer) brk).
Proof.
  unfold sim_read_serial, at_head. simpl.
  replace (Z.of_nat (length data + 0)) with (Z.of_nat (length data)) by lia.
  by destruct (scan _ _).
Qed.

(** The read refines the reference decoder. *)
Lemma read_unescape h buffer brk data :
  exists junk,
    (length (unescape data) + length junk =
     length data + length (drop (length data) buffer))%nat /\
    sim_read_serial h buffer brk (Done data) =
      Some (mk_res (Z.of_nat (length (unescape data)))
                   (bytes_of (unescape data) ++ junk)
                   (mark (flags_of (unescape data)) brk)).
Proof.
  rewrite read_outcome.
  destruct (scan_unescape (length data) data [] (drop (length data) buffer)
              brk (length data)) as (junk & Hl & Hs); [done..|].
  exists junk. split; [done|]. by rewrite Hs.
Qed.

Lemma chars_result (o : list (Z * bool)) junk brk :
  chars (mk_res (Z.of_nat (length o)) (bytes_of o ++ junk) brk) = bytes_of o.
Proof.
  unfold chars, bytes_of. simpl. rewrite Nat2Z.id.
  rewrite <- (length_fmap fst o). apply take_app_length.
Qed.

Lemma unescape_length n : forall l,
  (length l <= n)%nat -> (length (unescape l) <= length l)%nat.
Proof.
  induction n as [|n IH]; intros l Hn.
  { destruct l; [done|simpl in Hn; lia]. }
  destruct l as [|x [|y t]].
  - done.
  - by rewrite unescape_single.
  - destruct (decide (x = ESC)) as [->|Hx].
    + destruct (decide (y = ESC)) as [->|Hy].
      * rewrite unescape_esc_esc. specialize (IH t). simpl in *. lia.
      * destruct (decide (y = NUL)) as [->|Hy0]; [destruct t as [|c t]|].
        -- done.
        -- rewrite unescape_esc_nul. specialize (IH t). simpl in *. lia.
        -- rewrite unescape_esc_other by (done || by left).
           specialize (IH (y :: t)). simpl in *. lia.
    + rewrite unescape_other by done.
      specialize (IH (y :: t)). simpl in *. lia.
Qed.

Lemma lookup_mark flags : forall brk i,
  mark flags brk !! i =
  match flags !! i with
  | Some true => (fun _ => 1) <$> brk !! i
  | _ => brk !! i
  end.
Proof.
  induction flags as [|f flags IH]; intros [|x brk] [|i]; simpl; try done.
  - by destruct f.
  - by destruct (flags !! i) as [[]|].
  - by destruct f.
Qed.


(** Whatever precedes them, a final [{ESC, NUL}] and a final [ESC] come out
    as they went in, unflagged. *)
Lemma unescape_tail n : forall l, (length l <= n)%nat ->
  (exists o, unescape (l ++ [ESC; NUL]) = o ++ [(ESC, false); (NUL, false)]) /\
  (exists o, unescape (l ++ [ESC]) = o ++ [(ESC, false)]).
Proof.
  induction n as [|n IH]; intros l Hn.
  { destruct l; [|simpl in Hn; lia]. split; by exists []. }
  destruct l as [|x [|y t]].
  - split; by exists [].
  - destruct (decide (x = ESC)) as [->|Hx].
    + split; [by exists []|by exists []].
    + split; [exists [(x, false)]|exists [(x, false)]]; simpl;
        by rewrite (proj2 (Z.eqb_neq _ _) Hx).
  - destruct (decide (x = ESC)) as [->|Hx].
    + destruct (decide (y = ESC)) as [->|Hy].
      * destruct (IH t) as [[o1 H1] [o2 H2]]; [simpl in *; lia|].
        simpl app. rewrite !unescape_esc_esc, H1, H2.
        split; by eexists (_ :: _).
      * destruct (decide (y = NUL)) as [->|Hy0]; [destruct t as [|c t]|].
        -- split; by exists [].
        -- destruct (IH t) as [[o1 H1] [o2 H2]]; [simpl in *; lia|].
           simpl app. rewrite !unescape_esc_nul, H1, H2.
           split; by eexists (_ :: _).
        -- destruct (IH (y :: t)) as [[o1 H1] [o2 H2]]; [simpl in *; lia|].
           simpl app.
           rewrite !(unescape_esc_other y) by (done || by left).
           simpl app in H1, H2. rewrite H1, H2.
           split; by eexists (_ :: _).
    + destruct (IH (y :: t)) as [[o1 H1] [o2 H2]]; [simpl in *; lia|].
      simpl app. rewrite !(unescape_other x) by done.
      simpl app in H1, H2. rewrite H1, H2.
      split; by eexists (_ :: _).
Qed.



(** A byte received with a line error: [{0x41, ESC, NUL, 0x58, 0x42}] gives
    [{0x41, 0x58, 0x42}] and flags nothing. *)
Example read_error_byte :
  sim_read_serial linux_termios_h [0; 0; 0; 0; 0] [0; 0; 0; 0; 0]
    (Done [65; ESC; NUL; 88; 66])
  = Some (mk_res 3 [65; 88; 66; 88; 66] [0; 0; 0; 0; 0]).
Proof. reflexivity. Qed.

(** Two BREAKs and a lone final ESC in one read. *)
Example read_two_breaks :
  sim_read_serial linux_termios_h [] [0; 0; 0; 0; 0; 0; 0]
    (Done [ESC; NUL; NUL; ESC; NUL; NUL; ESC])
  = Some (mk_res 3 [0; 0; ESC; NUL; ESC; NUL; ESC] [1; 1; 0; 0; 0; 0; 0]).
Proof. reflexivity. Qed.

(** Nothing to read is 0; any other failure of [read] is -1. *)
Example read_would_block buffer brk :
  sim_read_serial linux_termios_h buffer brk (Failed 11)
  = Some (mk_res 0 buffer brk).
Proof. reflexivity. Qed.

Example read_failure buffer brk :
  sim_read_serial linux_termios_h buffer brk (Failed 5)
  = Some (mk_res (-1) buffer brk).
Proof. reflexivity. Qed.

End DecoderFacts.

(** ** The BREAK heuristic of the Windows implementation *)

Module WinFacts.

Lemma load_cons_succ x l (i : Z) :
  0 <= i -> load (x :: l) (i + 1) = load l i.
Proof.
  intros Hi. unfold load.
  by replace (Z.to_nat (i + 1)) with (S (Z.to_nat i)) by lia.
Qed.

Lemma memchr_from_shift ch x l n : forall (i : Z),
  0 <= i -> memchr_from (x :: l) (i + 1) ch n = (fun p => p + 1) <$> memchr_from l i ch n.
Proof.
  induction n as [|n IH]; intros i Hi; [done|]. simpl.
  rewrite load_cons_succ by done.
  destruct (load l i =? ch); [done|]. apply IH. lia.
Qed.

Lemma memchr_first_nul data rest :
  memchr (data ++ rest) 0 0 (Z.of_nat (length data)) =
  Z.of_nat <$> first_nul data.
Proof.
  unfold memchr, first_nul. rewrite Nat2Z.id.
  induction data as [|x data IH]; [done|].
  simpl length. cbn [memchr_from app]. unfold load at 1.
  cbn [Z.to_nat lookup list_lookup default list_find].
  destruct (decide (x = NUL)) as [->|Hx]; [done|].
  change (default 0 ((x :: data ++ rest) !! Z.to_nat 0)) with x.
  assert ((x =? 0) = false) as -> by (apply Z.eqb_neq; exact Hx).
  rewrite (memchr_from_shift 0 x (data ++ rest) (length data) 0) by lia.
  rewrite IH. destruct (list_find _ data) as [[i y]|]; simpl; [|done].
  f_equal. lia.
Qed.

Lemma win_read h buffer brk commerrors data :
  Win.sim_read_serial h buffer brk (Done commerrors) (Done data) =
  mk_res (Z.of_nat (length data)) (data ++ drop (length data) buffer)
         (if break_reported h commerrors
          then <[break_position data := 1]> brk else brk).
Proof.
  unfold Win.sim_read_serial, break_reported, break_position.
  destruct (negb _); [|done]. rewrite memchr_first_nul. unfold store.
  destruct (first_nul data) as [i|]; simpl; [|done].
  do 2 f_equal. lia.
Qed.



End WinFacts.

(** ** The list of open devices *)

Module RegistryFacts.

Lemma take_succ_snoc {A} (l : list A) (z : A) (c : nat) :
  (c <= length l)%nat ->
  exists x, take (S c) (l ++ [z]) = take c l ++ [x].
Proof.
  intros Hc.
  destruct (lookup_lt_is_Some_2 (l ++ [z]) c) as [x Hx].
  { rewrite length_app. simpl. lia. }
  exists x. rewrite (take_S_r _ _ _ Hx). by rewrite take_app_le by lia.
Qed.

Lemma devices_add ol h lp nm ds :
  list_ok ol ->
  serial_open_devices (_serial_add_to_open_list ol h lp nm ds) =
  opened ol ++ [mk_open h lp (strcpy nm)
                        (match ds with Some d => strcpy d | None => [] end)].
Proof.
  unfold list_ok, opened, _serial_add_to_open_list. intros Hok.
  destruct ol as [devices count]. simpl in *. rewrite Nat.sub_0_r.
  destruct (take_succ_snoc devices (mk_open 0 0 [] []) count Hok) as [x ->].
  replace count with (length (take count devices) + 0)%nat at 1
    by (rewrite length_take; lia).
  by rewrite insert_app_r.
Qed.

Lemma opened_add ol h lp nm ds :
  list_ok ol ->
  opened (_serial_add_to_open_list ol h lp nm ds) =
  opened ol ++ [mk_open h lp (strcpy nm)
                        (match ds with Some d => strcpy d | None => [] end)].
Proof.
  intros Hok. unfold opened at 1. rewrite devices_add by done.
  apply take_ge. unfold opened. rewrite length_app, length_take. simpl.
  unfold list_ok in Hok. lia.
Qed.

Lemma list_ok_add ol h lp nm ds :
  list_ok ol -> list_ok (_serial_add_to_open_list ol h lp nm ds).
Proof.
  intros Hok. unfold list_ok. rewrite devices_add by done.
  unfold opened. rewrite length_app, length_take. simpl.
  unfold list_ok in Hok. lia.
Qed.

(** The compaction loop slides the entries after the removed one down by
    one place. *)
Lemma shift_down_slides post : forall pre d junk,
  exists junk',
    length junk' = S (length junk) /\
    shift_down (pre ++ d :: post ++ junk) (length pre + 1) (length post) =
    pre ++ post ++ junk'.
Proof.
  induction post as [|x post IH]; intros pre d junk.
  { exists (d :: junk). done. }
  simpl length. cbn [shift_down].
  replace (pre ++ d :: (x :: post) ++ junk)
    with ((pre ++ [d]) ++ x :: post ++ junk) by by rewrite <- app_assoc.
  replace (length pre + 1)%nat with (length (pre ++ [d]) + 0)%nat
    by (rewrite length_app; simpl; lia).
  rewrite lookup_app_r by lia. rewrite Nat.add_0_r, Nat.sub_diag. simpl.
  rewrite <- app_assoc. simpl.
  replace (length (pre ++ [d]) - 1)%nat with (length pre + 0)%nat
    by (rewrite length_app; simpl; lia).
  rewrite insert_app_r. simpl.
  destruct (IH (pre ++ [x]) x junk) as (junk' & Hl & Hs).
  exists junk'. split; [done|].
  rewrite <- app_assoc in Hs. simpl in Hs.
  rewrite !length_app in *. simpl in *.
  replace (S (length pre + 1)) with (length pre + 1 + 1)%nat by lia.
  rewrite Hs. by rewrite <- app_assoc.
Qed.

Lemma remove_from_spec h live : forall pre junk,
  Forall (fun d => port d <> h) pre ->
  exists junk',
    remove_from (mk_list (pre ++ live ++ junk) (length pre + length live)) h
                (length pre) (length live) =
    if decide (Exists (fun d => port d = h) live)
    then mk_list (pre ++ remove_first h live ++ junk')
                 (length pre + length live - 1)
    else mk_list (pre ++ live ++ junk) (length pre + length live).
Proof.
  induction live as [|d live IH]; intros pre junk Hpre.
  { exists junk. rewrite decide_False; [done|]. by intros ?%Exists_nil. }
  simpl length. cbn [remove_from serial_open_devices serial_open_device_count].
  assert ((pre ++ (d :: live) ++ junk) !! length pre = Some d) as ->.
  { rewrite lookup_app_r by lia. by rewrite Nat.sub_diag. }
  simpl app.
  destruct (decide (port d = h)) as [Hd|Hd].
  - rewrite (proj2 (Z.eqb_eq _ _) Hd).
    destruct (shift_down_slides live pre d junk) as (junk' & _ & Hs).
    exists junk'. rewrite decide_True by (by left).
    replace (length pre + S (length live) - (length pre + 1))%nat
      with (length live) by lia.
    by rewrite Hs.
  - rewrite (proj2 (Z.eqb_neq _ _) Hd).
    destruct (IH (pre ++ [d]) junk) as (junk' & Hr).
    { apply Forall_app. split; [done|]. by constructor. }
    exists junk'.
    rewrite length_app in Hr. simpl in Hr.
    rewrite <- !app_assoc in Hr. simpl in Hr.
    replace (length pre + 1 + length live)%nat
      with (length pre + S (length live))%nat in Hr by lia.
    replace (S (length pre)) with (length pre + 1)%nat by lia.
    rewrite Hr.
    destruct (decide (Exists _ live)) as [He|He].
    + rewrite decide_True by (by right). done.
    + rewrite decide_False; [done|].
      intros [?|?]%Exists_cons; done.
Qed.

(** Unregistering, seen on the entries in use. *)
Lemma opened_remove ol h :
  list_ok ol ->
  opened (_serial_remove_from_open_list ol h) = remove_first h (opened ol)
  /\ list_ok (_serial_remove_from_open_list ol h).
Proof.
  intros Hok. destruct ol as [devices count]. unfold list_ok in Hok. simpl in Hok.
  unfold _serial_remove_from_open_list. simpl.
  destruct (remove_from_spec h (take count devices) [] (drop count devices))
    as (junk' & Hr); [done|].
  rewrite length_take in Hr. simpl in Hr.
  rewrite take_drop in Hr.
  replace (count `min` length devices)%nat with count in Hr by lia.
  rewrite Hr. clear Hr.
  assert (forall l, Exists (fun d => port d = h) l ->
            length (remove_first h l) = (length l - 1)%nat) as Hlen.
  { induction 1 as [d l Hd|d l He IH]; simpl.
    - rewrite (proj2 (Z.eqb_eq _ _) Hd). lia.
    - destruct (port d =? h); simpl; [lia|]. rewrite IH.
      destruct l; [|simpl; lia]. by apply Exists_nil in He. }
  assert (forall l, ~ Exists (fun d => port d = h) l -> remove_first h l = l) as Hid.
  { induction l as [|d l IH]; [done|]. intros Hn. simpl.
    destruct (decide (port d = h)) as [Hd|Hd].
    - destruct Hn. by left.
    - rewrite (proj2 (Z.eqb_neq _ _) Hd). rewrite IH; [done|].
      intros He. destruct Hn. by right. }
  destruct (decide (Exists _ (take count devices))) as [He|He];
    unfold opened, list_ok; simpl.
  - specialize (Hlen _ He). rewrite length_take in Hlen. split.
    + rewrite take_app_length'; [done|]. lia.
    + rewrite length_app. lia.
  - split; [|done]. by rewrite Hid.
Qed.

Lemma list_ok_initial : list_ok no_open_devices.
Proof. unfold list_ok. simpl. lia. Qed.

Lemma list_ok_remove ol h :
  list_ok ol -> list_ok (_serial_remove_from_open_list ol h).
Proof. intros Hok. by apply opened_remove. Qed.

Lemma remove_first_split h pre d post :
  port d = h -> Forall (fun e => port e <> h) pre ->
  remove_first h (pre ++ d :: post) = pre ++ post.
Proof.
  intros Hd. induction 1 as [|e pre He _ IH]; simpl.
  - by rewrite (proj2 (Z.eqb_eq _ _) Hd).
  - by rewrite (proj2 (Z.eqb_neq _ _) He), IH.
Qed.

Lemma remove_unknown ol h :
  list_ok ol -> Forall (fun e => port e <> h) (opened ol) ->
  _serial_remove_from_open_list ol h = ol.
Proof.
  intros Hok Hno. destruct ol as [devices count].
  unfold list_ok in Hok. unfold opened in Hno. simpl in *.
  unfold _serial_remove_from_open_list. simpl.
  destruct (remove_from_spec h (take count devices) [] (drop count devices))
    as (junk' & Hr); [done|].
  rewrite length_take in Hr. simpl in Hr. rewrite take_drop in Hr.
  replace (count `min` length devices)%nat with count in Hr by lia.
  rewrite Hr. rewrite decide_False; [done|].
  intros (d & Hin & Hd)%Exists_exists.
  by apply (proj1 (Forall_forall _ _) Hno d Hin).
Qed.

End RegistryFacts.

(** ** Strings and case folding *)

Module StringFacts.

Lemma load_nat (s : list Z) (k : nat) : load s (Z.of_nat k) = default 0 (s !! k).
Proof. unfold load. by rewrite Nat2Z.id. Qed.

Lemma strlen_le s : (strlen s <= length s)%nat.
Proof.
  induction s as [|c s IH]; simpl; [done|]. destruct (c =? NUL); lia.
Qed.

Lemma load_lt_strlen s : forall k : nat,
  (k < strlen s)%nat -> load s (Z.of_nat k) <> NUL.
Proof.
  induction s as [|c s IH]; intros k Hk; simpl in Hk; [lia|].
  destruct (c =? NUL) eqn:E; [lia|]. apply Z.eqb_neq in E.
  rewrite load_nat. destruct k as [|k]; simpl; [done|].
  rewrite <- load_nat. apply IH. lia.
Qed.

Lemma load_strlen s : load s (Z.of_nat (strlen s)) = NUL.
Proof.
  rewrite load_nat. induction s as [|c s IH]; simpl; [done|].
  destruct (c =? NUL) eqn:E; simpl; [|done]. by apply Z.eqb_eq in E.
Qed.

Lemma strlen_strcpy s : strlen (strcpy s) = strlen s.
Proof.
  unfold strcpy. induction s as [|c s IH]; simpl; [done|].
  destruct (c =? NUL) eqn:E; simpl; [done|]. by rewrite E, IH.
Qed.

Lemma length_strcpy s : length (strcpy s) = strlen s.
Proof.
  unfold strcpy. rewrite length_take. pose proof (strlen_le s). lia.
Qed.

Lemma load_strcpy s (k : nat) :
  (k < strlen s)%nat -> load (strcpy s) (Z.of_nat k) = load s (Z.of_nat k).
Proof.
  intros Hk. rewrite !load_nat. unfold strcpy. by rewrite lookup_take_lt.
Qed.

Lemma strcpy_idemp s : strcpy (strcpy s) = strcpy s.
Proof.
  unfold strcpy at 1. rewrite strlen_strcpy.
  apply take_ge. by rewrite length_strcpy.
Qed.

(** Folding to upper case and folding to lower case identify the same
    pairs of bytes. *)
Lemma fold_case a b :
  (if islower a then toupper a else a) = (if islower b then toupper b else b)
  <-> tolower a = tolower b.
Proof.
  unfold tolower, toupper, islower, isupper.
  destruct (Z.leb_spec 97 a), (Z.leb_spec a 122), (Z.leb_spec 97 b),
    (Z.leb_spec b 122), (Z.leb_spec 65 a), (Z.leb_spec a 90),
    (Z.leb_spec 65 b), (Z.leb_spec b 90); simpl; lia.
Qed.

Lemma fold_upper_nul a :
  (if islower a then toupper a else a) = 0 <-> a = 0.
Proof.
  unfold toupper, islower.
  destruct (Z.leb_spec 97 a), (Z.leb_spec a 122); simpl; lia.
Qed.

Lemma strncasecmp_from_zero a b n : forall i : nat,
  (forall j : nat, (i <= j < i + n)%nat -> load a (Z.of_nat j) <> NUL) ->
  strncasecmp_from a b i n = 0 <->
  (forall j : nat, (i <= j < i + n)%nat ->
     tolower (load a (Z.of_nat j)) = tolower (load b (Z.of_nat j))).
Proof.
  induction n as [|n IH]; intros i Hnz.
  { split; [intros _ j Hj; lia|done]. }
  cbn [strncasecmp_from]. cbv zeta.
  set (s1 := if islower (load a (Z.of_nat i)) then _ else _).
  set (s2 := if islower (load b (Z.of_nat i)) then _ else _).
  assert (s1 <> 0) as Hs1.
  { unfold s1. rewrite fold_upper_nul. apply Hnz. lia. }
  pose proof (fold_case (load a (Z.of_nat i)) (load b (Z.of_nat i))) as Hfc.
  fold s1 s2 in Hfc.
  destruct (Z.ltb_spec s1 s2) as [Hlt|Hge].
  { split; [done|]. intros H. specialize (H i). rewrite <- Hfc in H. lia. }
  destruct (Z.gtb_spec s1 s2) as [Hgt|Hle].
  { split; [done|]. intros H. specialize (H i). rewrite <- Hfc in H. lia. }
  rewrite (proj2 (Z.eqb_neq _ _) Hs1).
  rewrite IH by (intros j Hj; apply Hnz; lia).
  split.
  - intros H j Hj. destruct (decide (j = i)) as [->|Hne].
    + apply Hfc. lia.
    + apply H. lia.
  - intros H j Hj. apply H. lia.
Qed.

Lemma strncasecmp_strlen a b :
  sim_serial_strncasecmp a b (strlen a) = 0 <->
  (forall k : nat, (k < strlen a)%nat ->
     tolower (load a (Z.of_nat k)) = tolower (load b (Z.of_nat k))).
Proof.
  unfold sim_serial_strncasecmp. rewrite strncasecmp_from_zero.
  - split; intros H k Hk; apply H; lia.
  - intros j Hj. apply load_lt_strlen. lia.
Qed.

Lemma name_matches_fold user entry :
  name_matches user entry = true <-> fold_equal user entry.
Proof.
  unfold name_matches, fold_equal. rewrite andb_true_iff, Nat.eqb_eq, Z.eqb_eq.
  by rewrite strncasecmp_strlen.
Qed.

Lemma desc_found_true a b n : forall (k : nat) found,
  desc_found a b k n found = true <->
  found = true /\
  (forall j : nat, (k <= j < k + n)%nat ->
     tolower (load a (Z.of_nat j)) = tolower (load b (Z.of_nat j))).
Proof.
  induction n as [|n IH]; intros k found.
  { simpl. split; [intros ->; split; [done|intros; lia]|by intros [-> _]]. }
  cbn [desc_found]. rewrite IH.
  destruct (Z.eqb_spec (tolower (load a (Z.of_nat k))) (tolower (load b (Z.of_nat k))))
    as [E|E].
  - split; intros [Hf H]; (split; [done|]); intros j Hj.
    + destruct (decide (j = k)) as [->|Hne]; [done|]. apply H. lia.
    + apply H. lia.
  - split; [by intros [? _]|]. intros [_ H]. destruct E. apply H. lia.
Qed.

Lemma desc_matches_fold user entry :
  desc_matches entry user = true <-> fold_equal user entry.
Proof.
  unfold desc_matches, fold_equal.
  destruct (Nat.eqb_spec (strlen user) (strlen entry)) as [E|E]; simpl.
  - rewrite desc_found_true. split.
    + intros [_ H]. split; [done|]. intros k Hk. symmetry. apply H. lia.
    + intros [_ H]. split; [done|]. intros k Hk. symmetry. apply H. lia.
  - split; [done|]. by intros [? _].
Qed.

(** Taken by itself, [sim_serial_strncasecmp] leaves off at a NUL in its
    first string; the resolver never passes a length that reaches one. *)
Remark strncasecmp_stops_at_nul :
  sim_serial_strncasecmp [97; 0; 98] [97; 0; 99] 3 = 0.
Proof. reflexivity. Qed.

End StringFacts.

(** ** The device catalog *)

Module CatalogFacts.
Import StringFacts.

Lemma strcpy_cons c s :
  strcpy (c :: s) = if c =? NUL then [] else c :: strcpy s.
Proof. unfold strcpy. simpl. by destruct (c =? NUL). Qed.

Lemma load_head s : load s 0 = default 0 (head s).
Proof. by destruct s. Qed.

Lemma strcmp_flip a : forall b, strcmp b a = - strcmp a b.
Proof.
  induction a as [|c1 a IH]; intros [|c2 b]; simpl; rewrite ?load_head; simpl.
  - done.
  - rewrite (Z.eqb_sym c2 0). destruct (Z.eqb_spec 0 c2) as [<-|]; simpl; lia.
  - destruct (Z.eqb_spec c1 0) as [->|]; simpl; [done|lia].
  - rewrite (Z.eqb_sym c2 c1).
    destruct (Z.eqb_spec c1 c2) as [->|]; [|lia].
    destruct (c2 =? NUL); [done|]. apply IH.
Qed.

Lemma strcmp_zero a : forall b, strcmp a b = 0 <-> strcpy a = strcpy b.
Proof.
  induction a as [|c1 a IH]; intros [|c2 b];
    rewrite ?strcpy_cons; simpl; rewrite ?load_head; simpl.
  - done.
  - destruct (Z.eqb_spec c2 NUL) as [->|]; [done|]. split; [unfold NUL in *; lia|done].
  - destruct (Z.eqb_spec c1 0) as [->|]; simpl; [done|].
    rewrite (proj2 (Z.eqb_neq c1 NUL)) by done. split; [lia|done].
  - destruct (Z.eqb_spec c1 c2) as [->|Hne].
    + destruct (Z.eqb_spec c2 NUL) as [->|]; [done|].
      rewrite IH. split; [by intros ->|by intros [=]].
    + split; [lia|].
      destruct (Z.eqb_spec c1 NUL) as [->|], (Z.eqb_spec c2 NUL) as [->|];
        try done. by intros [=].
Qed.

Global Instance name_le_total : Total name_le.
Proof.
  intros a b. unfold name_le, _serial_name_compare.
  rewrite (strcmp_flip (name a) (name b)). lia.
Qed.

Lemma listed_iff n lst : listed n lst = true <-> strcpy n ∈ cname <$> lst.
Proof.
  unfold listed. rewrite existsb_exists, list_elem_of_fmap.
  split.
  - intros (e & Hin & He). exists e. apply Z.eqb_eq, strcmp_zero in He.
    split; [done|]. by apply list_elem_of_In.
  - intros (e & He & Hin). exists e. split; [by apply list_elem_of_In|].
    by apply Z.eqb_eq, strcmp_zero.
Qed.

Lemma listed_false n lst : listed n lst = false <-> strcpy n ∉ cname <$> lst.
Proof. rewrite <- listed_iff. by destruct (listed n lst). Qed.

Lemma cname_entry_of d : cname (entry_of d) = strcpy (od_name d).
Proof. unfold cname, entry_of. simpl. apply strcpy_idemp. Qed.

Lemma add_open_ports_spec max open : forall lst,
  exists extra,
    add_open_ports max lst open = lst ++ extra
    /\ Forall (fun e => exists d, d ∈ open /\ e = entry_of d
                        /\ strcpy (od_name d) ∉ cname <$> lst) extra
    /\ NoDup (cname <$> extra)
    /\ (forall d, d ∈ open ->
          strcpy (od_name d) ∈ cname <$> (lst ++ extra)
          \/ max <= Z.of_nat (length (lst ++ extra)))
    /\ (Z.of_nat (length lst) <= max -> Z.of_nat (length (lst ++ extra)) <= max).
Proof.
  induction open as [|d open IH]; intros lst.
  { exists []. rewrite app_nil_r. split; [done|]. split; [done|].
    split; [constructor|]. split; [|done]. by intros d ?%elem_of_nil. }
  cbn [add_open_ports].
  destruct (listed (od_name d) lst) eqn:Hl.
  - destruct (IH lst) as (extra & -> & Hfrom & Hnd & Hcov & Hlen).
    exists extra. split; [done|]. split; [|split; [done|split; [|done]]].
    + eapply Forall_impl; [exact Hfrom|].
      intros e (d' & Hin & He & Hn). exists d'. split; [by right|done].
    + intros d' [Hd|Hin]%elem_of_cons; [subst d'|by apply Hcov].
      left. rewrite fmap_app, elem_of_app. left. by apply listed_iff.
  - apply listed_false in Hl.
    destruct (Z.geb_spec (Z.of_nat (length lst)) max) as [Hfull|Hroom].
    + exists []. rewrite app_nil_r. split; [done|]. split; [done|].
      split; [constructor|]. split; [|done]. intros d' _. by right.
    + change (mk_entry (strcpy (od_name d)) (strcpy (od_desc d)))
        with (entry_of d).
      destruct (IH (lst ++ [entry_of d])) as (extra & -> & Hfrom & Hnd & Hcov & Hlen).
      exists (entry_of d :: extra). rewrite <- app_assoc. simpl.
      split; [done|]. split; [|split; [|split]].
      * constructor.
        -- exists d. split; [by left|done].
        -- eapply Forall_impl; [exact Hfrom|].
           intros e (d' & Hin & He & Hn). exists d'. split; [by right|].
           split; [done|]. intros Hx. apply Hn.
           rewrite fmap_app, elem_of_app. by left.
      * apply NoDup_cons. split; [|done].
        rewrite cname_entry_of. intros (e & He & Hin)%list_elem_of_fmap.
        destruct (proj1 (Forall_forall _ _) Hfrom e Hin) as (d' & _ & -> & Hn).
        apply Hn. rewrite fmap_app, elem_of_app. right.
        rewrite cname_entry_of in He. rewrite <- He.
        apply list_elem_of_fmap. exists (entry_of d).
        split; [by rewrite cname_entry_of|by left].
      * intros d' [Hd|Hin]%elem_of_cons.
        -- subst d'. left. rewrite fmap_app, elem_of_app. right.
           apply list_elem_of_fmap. exists (entry_of d).
           split; [by rewrite cname_entry_of|by left].
        -- specialize (Hcov d' Hin). by rewrite <- app_assoc in Hcov.
      * intros _. rewrite <- app_assoc in Hlen. apply Hlen.
        rewrite length_app. simpl. lia.
Qed.

Lemma sim_serial_devices_perm max os ol :
  sim_serial_devices max os ol ≡ₚ add_open_ports max os (opened ol).
Proof.
  unfold sim_serial_devices. destruct (_ =? 0); [done|].
  apply merge_sort_Permutation.
Qed.

Lemma sim_serial_devices_sorted max os ol :
  Sorted name_le (sim_serial_devices max os ol).
Proof.
  unfold sim_serial_devices.
  destruct (Z.eqb_spec (Z.of_nat (length (add_open_ports max os (opened ol)))) 0)
    as [E|E].
  - destruct (add_open_ports max os (opened ol)); [constructor|simpl in E; lia].
  - apply (Sorted_merge_sort name_le).
Qed.

Lemma strcmp_head a b :
  strcmp a b =
  if load a 0 =? load b 0
  then (if load a 0 =? NUL then 0 else strcmp (tail a) (tail b))
  else load a 0 - load b 0.
Proof.
  destruct a as [|x a]; [|done]. cbn [strcmp]. change (load [] 0) with 0.
  destruct (Z.eqb_spec 0 (load b 0)) as [<-|]; [done|lia].
Qed.

Lemma strcmp_trans a : forall b c,
  strcmp a b <= 0 -> strcmp b c <= 0 -> strcmp a c <= 0.
Proof.
  induction a as [|x a IH]; intros b c.
  - rewrite (strcmp_head [] b), (strcmp_head b c), (strcmp_head [] c).
    change (load [] 0) with 0. change (0 =? NUL) with true. cbv iota.
    destruct (Z.eqb_spec 0 (load b 0)), (Z.eqb_spec (load b 0) (load c 0)),
      (Z.eqb_spec 0 (load c 0)), (Z.eqb_spec (load b 0) NUL);
      unfold NUL in *; try lia.
  - rewrite (strcmp_head (x :: a) b), (strcmp_head b c), (strcmp_head (x :: a) c).
    change (load (x :: a) 0) with x. simpl tail.
    destruct (Z.eqb_spec x (load b 0)), (Z.eqb_spec (load b 0) (load c 0)),
      (Z.eqb_spec x (load c 0)), (Z.eqb_spec x NUL), (Z.eqb_spec (load b 0) NUL);
      unfold NUL in *; try lia.
    apply IH.
Qed.

Global Instance name_le_trans : Transitive name_le.
Proof. intros a b c. unfold name_le, _serial_name_compare. apply strcmp_trans. Qed.

Lemma sim_serial_devices_strongly_sorted max os ol :
  StronglySorted name_le (sim_serial_devices max os ol).
Proof.
  apply Sorted_StronglySorted; [apply _|apply sim_serial_devices_sorted].
Qed.

(** The loop over the open devices adds the first device of every name
    that is new, for as long as there is room. *)
Lemma add_open_ports_first_new max open : forall lst,
  add_open_ports max lst open =
  lst ++ (entry_of <$>
          take (Z.to_nat (max - Z.of_nat (length lst)))
               (first_new (cname <$> lst) open)).
Proof.
  induction open as [|d open IH]; intros lst; cbn [add_open_ports first_new].
  { by rewrite take_nil, app_nil_r. }
  destruct (listed (od_name d) lst) eqn:Hl.
  - apply listed_iff in Hl. rewrite decide_True by done. apply IH.
  - apply listed_false in Hl. rewrite decide_False by done.
    destruct (Z.geb_spec (Z.of_nat (length lst)) max) as [Hge|Hlt].
    + replace (Z.to_nat (max - Z.of_nat (length lst))) with 0%nat by lia.
      by rewrite app_nil_r.
    + rewrite IH, length_app, fmap_app. cbn [length fmap list_fmap].
      change (cname (mk_entry (strcpy (od_name d)) (strcpy (od_desc d))))
        with (strcpy (strcpy (od_name d))).
      rewrite StringFacts.strcpy_idemp.
      replace (Z.to_nat (max - Z.of_nat (length lst)))
        with (S (Z.to_nat (max - Z.of_nat (length lst + 1)))) by lia.
      cbn [take fmap list_fmap]. by rewrite <- app_assoc.
Qed.

End CatalogFacts.

(** ** The name resolver *)

Module ResolverFacts.
Import StringFacts.

Lemma find_first {A} (f : A -> bool) (l : list A) :
  match find f l with
  | Some x =>
      exists j : nat, l !! j = Some x /\ f x = true
        /\ forall (k : nat) y, (k < j)%nat -> l !! k = Some y -> f y = false
  | None => forall y, y ∈ l -> f y = false
  end.
Proof.
  induction l as [|a l IH]; simpl.
  { by intros y ?%elem_of_nil. }
  destruct (f a) eqn:Ha.
  - exists 0%nat. split; [done|]. split; [done|]. intros k y Hk. lia.
  - destruct (find f l) as [x|].
    + destruct IH as (j & Hj & Hx & Hbefore). exists (S j).
      split; [done|]. split; [done|].
      intros [|k] y Hk Hy; simpl in Hy.
      * by injection Hy as <-.
      * apply (Hbefore k); [lia|done].
    + intros y [->|Hin]%elem_of_cons; [done|by apply IH].
Qed.

Lemma strcpy_split s :
  exists rest, s = strcpy s ++ rest /\ load rest 0 = NUL.
Proof.
  exists (drop (strlen s) s). split.
  - unfold strcpy. by rewrite take_drop.
  - pose proof (load_strlen s) as H. rewrite load_nat in H.
    unfold load. simpl. rewrite lookup_drop. by rewrite Nat.add_0_r.
Qed.

Lemma isdigit_not_nul c : isdigit c = true -> c <> NUL.
Proof. unfold isdigit, NUL. intros H ->. done. Qed.

Lemma tolower_not_nul c v : tolower c = v -> v <> 0 -> c <> NUL.
Proof.
  unfold tolower, isupper, NUL. intros H Hv ->. simpl in H. lia.
Qed.

Lemma atoi_from_digits ds : forall rest acc,
  Forall (fun c => isdigit c = true) ds -> isdigit (load rest 0) = false ->
  atoi_from (ds ++ rest) acc =
  fold_left (fun acc c => acc * 10 + (c - 48)) ds acc.
Proof.
  induction ds as [|c ds IH]; intros rest acc Hds Hrest; simpl.
  - destruct rest as [|c rest]; [done|]. simpl.
    change (load (c :: rest) 0) with c in Hrest. by rewrite Hrest.
  - inversion Hds as [|? ? Hc Hds']; subst. rewrite Hc. by apply IH.
Qed.

Lemma atoi_pattern nm s e r ds :
  strcpy nm = s :: e :: r :: ds -> Forall (fun c => isdigit c = true) ds ->
  atoi (drop 3 nm) = decimal ds.
Proof.
  intros Hcpy Hds. destruct (strcpy_split nm) as (rest & Hnm & Hrest).
  rewrite Hnm, Hcpy. simpl. unfold atoi, decimal.
  apply atoi_from_digits; [done|]. by rewrite Hrest.
Qed.

Lemma decimal_range ds :
  (1 <= length ds <= 2)%nat -> Forall (fun c => isdigit c = true) ds ->
  0 <= decimal ds <= 99.
Proof.
  intros Hlen Hds. unfold decimal.
  destruct ds as [|a [|b [|c ds]]]; simpl in *; try lia.
  - inversion Hds as [|? ? Ha _]; subst. unfold isdigit in Ha.
    apply andb_true_iff in Ha as [?%Z.leb_le ?%Z.leb_le]. lia.
  - inversion Hds as [|? ? Ha Hds']; subst.
    inversion Hds' as [|? ? Hb _]; subst. unfold isdigit in Ha, Hb.
    apply andb_true_iff in Ha as [?%Z.leb_le ?%Z.leb_le].
    apply andb_true_iff in Hb as [?%Z.leb_le ?%Z.leb_le]. lia.
Qed.

Lemma load_strcpy_Z s (i : Z) :
  0 <= i < Z.of_nat (strlen s) -> load (strcpy s) i = load s i.
Proof.
  intros Hi. rewrite <- (Z2Nat.id i) by lia. apply load_strcpy. lia.
Qed.

Lemma load_lt_strlen_Z s (i : Z) :
  0 <= i < Z.of_nat (strlen s) -> load s i <> NUL.
Proof.
  intros Hi. rewrite <- (Z2Nat.id i) by lia. apply load_lt_strlen. lia.
Qed.

Lemma is_serX_pattern nm : is_serX nm = true <-> ser_pattern nm.
Proof.
  unfold is_serX, ser_pattern.
  rewrite !andb_true_iff, orb_true_iff, Nat.leb_le, !Z.eqb_eq.
  pose proof (length_strcpy nm) as Hlen.
  pose proof (load_strlen nm) as Hend.
  pose proof (fun k => load_strcpy_Z nm k) as Hld.
  pose proof (fun k => load_lt_strlen_Z nm k) as Hnz.
  split.
  - intros (((((Hn & H0) & H1) & H2) & H3) & H4).
    pose proof (tolower_not_nul _ _ H0 ltac:(lia)) as N0.
    pose proof (tolower_not_nul _ _ H1 ltac:(lia)) as N1.
    pose proof (tolower_not_nul _ _ H2 ltac:(lia)) as N2.
    pose proof (isdigit_not_nul _ H3) as N3.
    assert (strlen nm = 4 \/ strlen nm = 5)%nat as Hcase.
    { destruct (strlen nm) as [|[|[|[|[|[|k]]]]]]; try lia; by simpl in Hend. }
    destruct (strcpy nm) as [|a [|b [|c [|d [|e' [|f' tl]]]]]] eqn:E;
      simpl in Hlen; try lia.
    + (* four characters *)
      exists a, b, c, [d].
      rewrite <- (Hld 0) in H0 by lia. rewrite <- (Hld 1) in H1 by lia.
      rewrite <- (Hld 2) in H2 by lia. rewrite <- (Hld 3) in H3 by lia.
      repeat split; try done; simpl; try lia. by constructor.
    + (* five characters *)
      exists a, b, c, [d; e'].
      rewrite <- (Hld 0) in H0 by lia. rewrite <- (Hld 1) in H1 by lia.
      rewrite <- (Hld 2) in H2 by lia. rewrite <- (Hld 3) in H3 by lia.
      assert (isdigit (load nm 4) = true) as H4'.
      { destruct H4 as [H4|H4]; [done|]. by destruct (Hnz 4 ltac:(lia)). }
      rewrite <- (Hld 4) in H4' by lia.
      repeat split; try done; simpl; try lia. by repeat constructor.
  - intros (s & e & r & ds & E & H0 & H1 & H2 & Hds & Hdig).
    rewrite E in Hlen. simpl in Hlen.
    assert (load nm 0 = s /\ load nm 1 = e /\ load nm 2 = r) as (-> & -> & ->).
    { rewrite <- (Hld 0), <- (Hld 1), <- (Hld 2) by lia.
      by rewrite E. }
    destruct ds as [|d [|d2 [|d3 ds]]]; simpl in Hds, Hlen; try lia.
    + inversion Hdig as [|? ? Hd _]; subst.
      assert (load nm 3 = d) as -> by (rewrite <- (Hld 3) by lia; by rewrite E).
      rewrite <- Hlen in Hend. change (Z.of_nat 4) with 4 in Hend.
      repeat split; try done; try lia; by right.
    + inversion Hdig as [|? ? Hd Hdig']; subst.
      inversion Hdig' as [|? ? Hd2 _]; subst.
      assert (load nm 3 = d) as -> by (rewrite <- (Hld 3) by lia; by rewrite E).
      assert (load nm 4 = d2) as -> by (rewrite <- (Hld 4) by lia; by rewrite E).
      repeat split; try done; try lia; by left.
Qed.

Lemma fold_equal_strcpy s : fold_equal (strcpy s) s.
Proof.
  split; [apply strlen_strcpy|].
  intros k Hk. rewrite strlen_strcpy in Hk. by rewrite load_strcpy.
Qed.

Lemma getname_byname_fold os ol user :
  match sim_serial_getname_byname os ol user with
  | Some n =>
      exists x, x ∈ sim_serial_devices SER_MAX_DEVICE os ol
                /\ n = cname x /\ fold_equal user (name x)
  | None =>
      forall x, x ∈ sim_serial_devices SER_MAX_DEVICE os ol ->
                ~ fold_equal user (name x)
  end.
Proof.
  unfold sim_serial_getname_byname. cbv zeta.
  pose proof (find_first (fun x => name_matches user (name x))
                (sim_serial_devices SER_MAX_DEVICE os ol)) as Hfind.
  destruct (find _ _) as [x|]; simpl.
  - destruct Hfind as (j & Hj & Hm & _). exists x.
    split; [by eapply list_elem_of_lookup_2|].
    split; [done|]. by apply name_matches_fold.
  - intros x Hx Hfe. apply name_matches_fold in Hfe.
    specialize (Hfind x Hx). congruence.
Qed.

Lemma getname_bydesc_fold os ol user :
  match sim_serial_getname_bydesc os ol user with
  | Some n =>
      exists x, x ∈ sim_serial_devices SER_MAX_DEVICE os ol
                /\ n = cname x /\ fold_equal user (desc x)
  | None =>
      forall x, x ∈ sim_serial_devices SER_MAX_DEVICE os ol ->
                ~ fold_equal user (desc x)
  end.
Proof.
  unfold sim_serial_getname_bydesc. cbv zeta.
  pose proof (find_first (fun x => desc_matches (desc x) user)
                (sim_serial_devices SER_MAX_DEVICE os ol)) as Hfind.
  destruct (find _ _) as [x|]; simpl.
  - destruct Hfind as (j & Hj & Hm & _). exists x.
    split; [by eapply list_elem_of_lookup_2|].
    split; [done|]. by apply desc_matches_fold.
  - intros x Hx Hfe. apply desc_matches_fold in Hfe.
    specialize (Hfind x Hx). congruence.
Qed.

Lemma getname_lookup os ol (i : Z) :
  0 <= i ->
  sim_serial_getname os ol i =
  cname <$> sim_serial_devices SER_MAX_DEVICE os ol !! Z.to_nat i.
Proof.
  intros Hi. unfold sim_serial_getname. cbv zeta.
  destruct (Z.leb_spec (Z.of_nat (length (sim_serial_devices SER_MAX_DEVICE os ol))) i)
    as [Hge|Hlt]; [|done].
  rewrite lookup_ge_None_2; [done|lia].
Qed.

End ResolverFacts.

(** ** Port configuration *)

Module ConfigFacts.

(** Finds a status in an explicit list of statuses. *)
Ltac in_list := rewrite ?elem_of_cons; auto 10.

Lemma win_status h get set config :
  Win.sim_config_serial h get set config ∈ [SCPE_OK; SCPE_ARG; SCPE_IOERR].
Proof.
  unfold Win.sim_config_serial.
  repeat case_match; in_list.
Qed.

Lemma win_charsize h dcb set config :
  (charsize config >=? 5) && (charsize config <=? 8) = false ->
  Win.sim_config_serial h (Done dcb) set config = SCPE_ARG.
Proof. intros H. unfold Win.sim_config_serial. by rewrite H. Qed.

Lemma unix_charsize h tio set config :
  (charsize config >=? 5) && (charsize config <=? 8) = false ->
  Unix.sim_config_serial h (Done tio) set config = SCPE_ARG.
Proof.
  intros H. unfold Unix.sim_config_serial. rewrite H.
  by destruct (Unix.rate_code h (baudrate config)).
Qed.

Lemma unix_status h get set config :
  Unix.sim_config_serial h get set config
    ∈ [SCPE_OK; SCPE_ARG; SCPE_IOERR; SCPE_IERR].
Proof.
  unfold Unix.sim_config_serial.
  repeat case_match; in_list.
Qed.

End ConfigFacts.

(** * The claims *)

(** Claim C1 (Encoding A, UNIX [sim_read_serial]).  For every byte
    sequence the host's [read] delivers, the call returns, and what it
    returns is the left-to-right decoding [unescape]: each [{ESC, ESC}]
    comes out as one ESC, each [{ESC, NUL, C}] comes out as the byte [C]
    with the BREAK slot of its output position set exactly when [C] is NUL,
    and every other byte comes out unchanged with its slot untouched.  In
    particular [{0x41, ESC, ESC, 0x42}] gives [{0x41, ESC, 0x42}] with no
    slot set, and [{ESC, NUL, 0x00}] gives [{0x00}] with slot 0 set. *)
Theorem C1_encoding_A_unescapes (h : Unix.termios_h) (buffer brk data : list Z) :
  (exists r,
     Unix.sim_read_serial h buffer brk (Done data) = Some r
     /\ ret r = Z.of_nat (length (unescape data))
     /\ chars r = bytes_of (unescape data)
     /\ out_brk r = mark (flags_of (unescape data)) brk)
  /\ (let r := Unix.sim_read_serial h [0; 0; 0; 0] [0; 0; 0; 0]
                 (Done [65; Unix.ESC; Unix.ESC; 66]) in
      chars <$> r = Some [65; Unix.ESC; 66] /\ out_brk <$> r = Some [0; 0; 0; 0])
  /\ (let r := Unix.sim_read_serial h [0; 0; 0] [0; 0; 0]
                 (Done [Unix.ESC; NUL; 0]) in
      chars <$> r = Some [0] /\ out_brk <$> r = Some [1; 0; 0]).
Proof.
  split; [|by split].
  destruct (DecoderFacts.read_unescape h buffer brk data) as (junk & _ & ->).
  eexists. split; [done|]. split; [done|]. split; [|done].
  apply DecoderFacts.chars_result.
Qed.




(** Claim C3 (Encoding B, Windows [sim_read_serial]).  The characters
    returned are the bytes the host delivered.  When the host reports a
    BREAK, exactly one BREAK slot is written: the one at the position of
    the first NUL among those bytes, or slot 0 when there is none; when no
    BREAK is reported the array is left as it was.  In particular
    [{0x10, 0x00, 0x20}] with a BREAK sets slot 1, and [{0x10, 0x20}] with a
    BREAK sets slot 0. *)
Theorem C3_encoding_B_flags_first_nul (h : Win.winbase_h)
    (buffer brk data : list Z) (commerrors : Z) :
  let r := Win.sim_read_serial h buffer brk (Done commerrors) (Done data) in
  chars r = data
  /\ out_brk r =
       (if break_reported h commerrors
        then match first_nul data with
             | Some i => <[i := 1]> brk
             | None => <[0%nat := 1]> brk
             end
        else brk)
  /\ first_nul [16; 0; 32] = Some 1%nat
  /\ out_brk (Win.sim_read_serial h [0; 0; 0] [0; 0; 0] (Done commerrors)
                (Done [16; 0; 32]))
     = (if break_reported h commerrors then [0; 1; 0] else [0; 0; 0])
  /\ first_nul [16; 32] = None
  /\ out_brk (Win.sim_read_serial h [0; 0] [0; 0] (Done commerrors)
                (Done [16; 32]))
     = (if break_reported h commerrors then [1; 0] else [0; 0]).
Proof.
  intros r. unfold r. rewrite !WinFacts.win_read. split; [|split].
  - unfold chars. simpl. rewrite Nat2Z.id. apply take_app_length.
  - simpl. unfold break_position. by destruct (first_nul data).
  - by destruct (break_reported h commerrors).
Qed.

(** Claim C4, as amended.  A name of the form "ser" and one or two
    decimal digits (letters in either case) passes the serX test of
    [sim_open_serial], and its digits spell an index [i] in [0, 99].  When
    [i] is within the catalog, the name resolves to the name of entry [i]
    and to the description of the first catalog entry whose name equals
    that name under ASCII case folding; this is entry [i] itself when no
    earlier entry differs from it only in case.  When [i] is not within
    the catalog, the translation fails and [sim_open_serial] returns
    [INVALID_HANDLE] without asking the host and without changing the list
    of open devices. *)
Theorem C4_indexed_name_resolution (os : list SERIAL_LIST) (ol : open_list)
    (user_name : list Z) :
  ser_pattern user_name ->
  let cat := sim_serial_devices SER_MAX_DEVICE os ol in
  let i := atoi (drop 3 user_name) in
  is_serX user_name = true
  /\ 0 <= i <= 99
  /\ match cat !! Z.to_nat i with
     | Some e =>
         exists (j : nat) e',
           (j <= Z.to_nat i)%nat /\ cat !! j = Some e'
           /\ fold_equal (cname e) (name e')
           /\ (forall (k : nat) x, (k < j)%nat -> cat !! k = Some x ->
                 ~ fold_equal (cname e) (name x))
           /\ translate_name os ol user_name
              = Some (cname e, Some (strcpy (desc e')))
           /\ ((forall (k : nat) x, (k < Z.to_nat i)%nat -> cat !! k = Some x ->
                  ~ fold_equal (cname e) (name x)) -> e' = e)
           /\ (forall INVALID_HANDLE sim_open_os_serial lp,
                 sim_open_serial INVALID_HANDLE sim_open_os_serial os ol
                   user_name lp
                 = let port := sim_open_os_serial (cname e) in
                   if negb (port =? INVALID_HANDLE)
                   then (port, _serial_add_to_open_list ol port lp (cname e)
                                 (Some (strcpy (desc e'))))
                   else (port, ol))
     | None =>
         translate_name os ol user_name = None
         /\ forall INVALID_HANDLE sim_open_os_serial lp,
              sim_open_serial INVALID_HANDLE sim_open_os_serial os ol user_name lp
              = (INVALID_HANDLE, ol)
     end.
Proof.
  intros Hpat cat i.
  pose proof (proj2 (ResolverFacts.is_serX_pattern user_name) Hpat) as HserX.
  destruct Hpat as (s & e & r & ds & E & _ & _ & _ & Hlen & Hdig).
  assert (i = decimal ds) as Hi by (by eapply ResolverFacts.atoi_pattern).
  pose proof (ResolverFacts.decimal_range ds Hlen Hdig) as Hrange.
  rewrite <- Hi in Hrange.
  split; [done|]. split; [done|].
  unfold sim_open_serial, translate_name. rewrite HserX. fold i.
  rewrite ResolverFacts.getname_lookup by lia. fold cat.
  destruct (cat !! Z.to_nat i) as [e0|] eqn:Hlook; simpl; [|done].
  unfold sim_serial_getdesc_byname. fold cat.
  pose proof (ResolverFacts.find_first
                (fun x => name_matches (cname e0) (name x)) cat) as Hfind.
  destruct (find _ cat) as [e'|].
  - destruct Hfind as (j & Hj & Hm & Hbefore).
    assert (j <= Z.to_nat i)%nat as Hji.
    { destruct (Nat.le_gt_cases j (Z.to_nat i)) as [|Hgt]; [done|].
      specialize (Hbefore _ _ Hgt Hlook).
      pose proof (proj2 (StringFacts.name_matches_fold (cname e0) (name e0))
                    (ResolverFacts.fold_equal_strcpy _)).
      congruence. }
    exists j, e'. split; [done|]. split; [done|].
    split; [by apply StringFacts.name_matches_fold|].
    split; [|split; [done|split; [|done]]].
    + intros k x Hk Hx Hfe. apply StringFacts.name_matches_fold in Hfe.
      specialize (Hbefore k x Hk Hx). congruence.
    + intros Hnone. destruct (decide (j = Z.to_nat i)) as [->|Hne]; [congruence|].
      destruct (Hnone j e'); [lia|done|].
      by apply StringFacts.name_matches_fold.
  - assert (name_matches (cname e0) (name e0) = false) as Hno.
    { apply Hfind. by eapply list_elem_of_lookup_2. }
    pose proof (proj2 (StringFacts.name_matches_fold (cname e0) (name e0))
                  (ResolverFacts.fold_equal_strcpy _)).
    congruence.
Qed.

(** C4 on "ser1" with the catalog COM1, COM2, COM3. *)
Lemma C4_indexed_name_resolution_witness :
  ser_pattern (bytes "ser1")
  /\ exists (j : nat) e',
       (j <= 1)%nat
       /\ sim_serial_devices SER_MAX_DEVICE host_two three_open !! j = Some e'
       /\ fold_equal (bytes "COM2") (name e')
       /\ (forall (k : nat) x, (k < j)%nat ->
             sim_serial_devices SER_MAX_DEVICE host_two three_open !! k = Some x ->
             ~ fold_equal (bytes "COM2") (name x))
       /\ translate_name host_two three_open (bytes "ser1")
          = Some (bytes "COM2", Some (strcpy (desc e')))
       /\ ((forall (k : nat) x, (k < 1)%nat ->
              sim_serial_devices SER_MAX_DEVICE host_two three_open !! k = Some x ->
              ~ fold_equal (bytes "COM2") (name x))
           -> e' = mk_entry (bytes "COM2") (bytes "Serial1"))
       /\ (forall INVALID_HANDLE sim_open_os_serial lp,
             sim_open_serial INVALID_HANDLE sim_open_os_serial host_two
               three_open (bytes "ser1") lp
             = let port := sim_open_os_serial (bytes "COM2") in
               if negb (port =? INVALID_HANDLE)
               then (port, _serial_add_to_open_list three_open port lp
                             (bytes "COM2") (Some (strcpy (desc e'))))
               else (port, three_open)).
Proof.
  assert (ser_pattern (bytes "ser1")) as H.
  { exists 115, 101, 114, [49]. repeat split; try done; simpl; try lia.
    by repeat constructor. }
  split; [exact H|].
  exact (proj2 (proj2 (C4_indexed_name_resolution host_two three_open
                         (bytes "ser1") H))).
Defined.

(** Claim C4 as first stated fails twice.  With the catalog entries "A"
    and "a", "ser1" resolves to the name of entry 1 and the description of
    entry 0.  And "ser999" has six characters, so it is not of the indexed
    form: it is matched by description, then by name, and otherwise passed
    through. *)
Lemma C4_other_description_and_ser999 :
  sim_serial_devices SER_MAX_DEVICE case_variants no_open_devices = case_variants
  /\ translate_name case_variants no_open_devices (bytes "ser1")
     = Some (bytes "a", Some (bytes "first"))
  /\ is_serX (bytes "ser999") = false
  /\ translate_name [mk_entry (bytes "COM1") (bytes "ser999")] no_open_devices
       (bytes "ser999")
     = Some (bytes "COM1", Some (bytes "ser999"))
  /\ translate_name [] no_open_devices (bytes "ser999")
     = Some (bytes "ser999", None).
Proof. vm_compute. repeat split; reflexivity. Qed.

(** Claim C5 (matching by name and by description).  A user name matches
    a catalog entry's name, or its description, exactly when the two
    strings have the same length and agree at every position under ASCII
    case folding; so the lookups by name and by description return the
    name of an entry that matches in this sense, and fail only when no
    entry does.  A string never matches a longer string it is a prefix
    of.  For the length the resolver passes, [sim_serial_strncasecmp]
    returns 0 exactly when every position below that length agrees: its
    exit on NUL cannot cut the comparison short. *)
Theorem C5_matching_is_full_length_case_folded (os : list SERIAL_LIST)
    (ol : open_list) (user : list Z) (e : SERIAL_LIST) :
  let cat := sim_serial_devices SER_MAX_DEVICE os ol in
  (name_matches user (name e) = true <-> fold_equal user (name e))
  /\ (desc_matches (desc e) user = true <-> fold_equal user (desc e))
  /\ match sim_serial_getname_byname os ol user with
     | Some n => exists x, x ∈ cat /\ n = cname x /\ fold_equal user (name x)
     | None => forall x, x ∈ cat -> ~ fold_equal user (name x)
     end
  /\ match sim_serial_getname_bydesc os ol user with
     | Some n => exists x, x ∈ cat /\ n = cname x /\ fold_equal user (desc x)
     | None => forall x, x ∈ cat -> ~ fold_equal user (desc x)
     end
  /\ (forall (p : positive) (rest : list Z),
        name_matches (strcpy user) (strcpy user ++ Z.pos p :: rest) = false
        /\ desc_matches (strcpy user ++ Z.pos p :: rest) (strcpy user) = false)
  /\ (sim_serial_strncasecmp user (name e) (strlen user) = 0 <->
      forall k : nat, (k < strlen user)%nat ->
        tolower (load user (Z.of_nat k)) = tolower (load (name e) (Z.of_nat k)))
  /\ name_matches (bytes "com1") (bytes "COM1") = true
  /\ name_matches (bytes "COM") (bytes "COM1") = false
  /\ desc_matches (bytes "Serial0") (bytes "SERIAL0") = true
  /\ desc_matches (bytes "Serial0") (bytes "Serial") = false.
Proof.
  intros cat.
  split; [apply StringFacts.name_matches_fold|].
  split; [apply StringFacts.desc_matches_fold|].
  split; [apply ResolverFacts.getname_byname_fold|].
  split; [apply ResolverFacts.getname_bydesc_fold|].
  split; [|split; [apply StringFacts.strncasecmp_strlen|by vm_compute]].
  intros p rest.
  assert (strlen (strcpy user) <> strlen (strcpy user ++ Z.pos p :: rest)) as Hlen.
  { pose proof (StringFacts.length_strcpy user) as Hl.
    pose proof (StringFacts.strlen_strcpy user) as Hs.
    revert Hl Hs. generalize (strcpy user) as s. generalize (strlen user) as n.
    intros n s. revert n. induction s as [|c s IH]; intros n Hl Hs; simpl in *.
    - done.
    - destruct (c =? NUL); [lia|]. destruct n as [|n]; [done|].
      specialize (IH n). lia. }
  split.
  - apply not_true_is_false. rewrite StringFacts.name_matches_fold.
    by intros [? _].
  - apply not_true_is_false. rewrite StringFacts.desc_matches_fold.
    by intros [? _].
Qed.

(** Claim C6 (the list of open devices).  Adding an entry for a handle
    [h] appends it: the entries in use are those there were, in their
    order, followed by the new one, and the count goes up by one.  If [h]
    was not in the list, removing [h] after that leaves the entries in use
    and their count as they were, and removing [h] right away changes
    nothing.  If the entries in use are [pre ++ d :: post], where [d] is
    the first entry with handle [h], removing [h] leaves [pre ++ post],
    one entry fewer: exactly that entry goes and the others keep their
    order. *)
Theorem C6_register_unregister (ol : open_list) (h : SERHANDLE)
    (lp : TMLN_ptr) (nm : list Z) (ds : option (list Z)) :
  list_ok ol ->
  let registered := _serial_add_to_open_list ol h lp nm ds in
  (opened registered =
     opened ol ++ [mk_open h lp (strcpy nm)
                     (match ds with Some d => strcpy d | None => [] end)]
   /\ serial_open_device_count registered = S (serial_open_device_count ol))
  /\ (Forall (fun e => port e <> h) (opened ol) ->
      opened (_serial_remove_from_open_list registered h) = opened ol
      /\ serial_open_device_count (_serial_remove_from_open_list registered h)
         = serial_open_device_count ol
      /\ _serial_remove_from_open_list ol h = ol)
  /\ (forall pre d post,
        opened ol = pre ++ d :: post ->
        port d = h -> Forall (fun e => port e <> h) pre ->
        opened (_serial_remove_from_open_list ol h) = pre ++ post
        /\ S (serial_open_device_count (_serial_remove_from_open_list ol h))
           = serial_open_device_count ol).
Proof.
  intros Hok registered.
  pose proof (RegistryFacts.list_ok_add ol h lp nm ds Hok) as Hok2.
  pose proof (RegistryFacts.opened_add ol h lp nm ds Hok) as Hadd.
  fold registered in Hok2, Hadd.
  assert (forall l, list_ok l -> length (opened l) = serial_open_device_count l)
    as Hcount.
  { intros l Hl. unfold list_ok in Hl. unfold opened. rewrite length_take. lia. }
  split; [|split].
  - split; [done|].
    rewrite <- (Hcount _ Hok2), <- (Hcount _ Hok), Hadd, length_app.
    simpl. lia.
  - intros Hno.
    destruct (RegistryFacts.opened_remove registered h Hok2) as [Hrm Hok3].
    assert (opened (_serial_remove_from_open_list registered h) = opened ol) as E.
    { rewrite Hrm, Hadd.
      rewrite RegistryFacts.remove_first_split by done. apply app_nil_r. }
    split; [done|]. split.
    + by rewrite <- (Hcount _ Hok3), <- (Hcount _ Hok), E.
    + by apply RegistryFacts.remove_unknown.
  - intros pre d post Hsplit Hd Hpre.
    destruct (RegistryFacts.opened_remove ol h Hok) as [Hrm Hok3].
    assert (opened (_serial_remove_from_open_list ol h) = pre ++ post) as E.
    { rewrite Hrm, Hsplit. by apply RegistryFacts.remove_first_split. }
    split; [done|].
    rewrite <- (Hcount _ Hok3), <- (Hcount _ Hok), E, Hsplit, !length_app.
    simpl. lia.
Qed.

(** C6 on the handles 3, 4 and 5: 5 is added to a list that holds 3 and 4
    and removed again, and 5 is removed from a list where it is the second
    of three. *)
Lemma C6_register_unregister_witness :
  list_ok two_open /\ list_ok three_open
  /\ (let registered :=
        _serial_add_to_open_list two_open 5 102 (bytes "COM3") None in
      opened registered
        = opened two_open ++ [mk_open 5 102 (bytes "COM3") []]
      /\ serial_open_device_count registered = 3%nat
      /\ opened (_serial_remove_from_open_list registered 5) = opened two_open
      /\ serial_open_device_count (_serial_remove_from_open_list registered 5)
         = 2%nat
      /\ _serial_remove_from_open_list two_open 5 = two_open)
  /\ opened (_serial_remove_from_open_list three_open 5)
     = [mk_open 3 100 (bytes "COM1") (bytes "Serial0")]
       ++ [mk_open 4 101 (bytes "COM2") (bytes "Serial1")]
  /\ S (serial_open_device_count (_serial_remove_from_open_list three_open 5))
     = 3%nat.
Proof.
  assert (list_ok two_open) as Hok by (unfold list_ok; simpl; lia).
  assert (list_ok three_open) as Hok' by (unfold list_ok; simpl; lia).
  assert (Forall (fun e => port e <> 5) (opened two_open)) as Hno
    by (repeat constructor; discriminate).
  assert (Forall (fun e => port e <> 5)
            [mk_open 3 100 (bytes "COM1") (bytes "Serial0")]) as Hpre
    by (repeat constructor; discriminate).
  split; [exact Hok|]. split; [exact Hok'|].
  destruct (C6_register_unregister two_open 5 102 (bytes "COM3") None Hok)
    as ((Hadd & Hn) & Hback & _).
  destruct (Hback Hno) as (H1 & H2 & H3).
  destruct (C6_register_unregister three_open 5 102 (bytes "COM3") None Hok')
    as (_ & _ & Hrm).
  destruct (Hrm [mk_open 3 100 (bytes "COM1") (bytes "Serial0")]
                (mk_open 5 102 (bytes "COM3") [])
                [mk_open 4 101 (bytes "COM2") (bytes "Serial1")]
                eq_refl eq_refl Hpre) as (H4 & H5).
  split; [|split; [exact H4|exact H5]].
  split; [exact Hadd|]. split; [exact Hn|]. split; [exact H1|].
  split; [exact H2|exact H3].
Defined.

(** Claim C7, as amended.  When the host enumerates at most [max]
    entries, [sim_serial_devices] returns the host's entries together with
    entries made of open devices: going through the open devices in their
    order, the first device of each name that neither the host listed nor
    an earlier open device brought, for as many as fit in [max] entries.
    So each of them is of an open device whose name the host did not list,
    no two of them have the same name, and every open device's name is in
    the result unless the result holds [max] entries.  The result is
    sorted by [strcmp] on the names (every entry compares at most equal to
    every later one) and holds at most [max] entries. *)
Theorem C7_catalog_merge (max : Z) (os : list SERIAL_LIST) (ol : open_list) :
  Z.of_nat (length os) <= max ->
  let result := sim_serial_devices max os ol in
  exists extra,
    extra = entry_of <$>
            take (Z.to_nat (max - Z.of_nat (length os)))
                 (first_new (cname <$> os) (opened ol))
    /\ result ≡ₚ os ++ extra
    /\ Forall (fun e => exists d, d ∈ opened ol /\ e = entry_of d
                        /\ strcpy (od_name d) ∉ cname <$> os) extra
    /\ NoDup (cname <$> extra)
    /\ (forall d, d ∈ opened ol ->
          strcpy (od_name d) ∈ cname <$> result
          \/ max <= Z.of_nat (length result))
    /\ StronglySorted name_le result
    /\ Z.of_nat (length result) <= max.
Proof.
  intros Hos result.
  pose proof (CatalogFacts.sim_serial_devices_perm max os ol) as Hperm.
  fold result in Hperm.
  destruct (CatalogFacts.add_open_ports_spec max (opened ol) os)
    as (extra & E & Hfrom & Hnd & Hcov & Hlen).
  pose proof (CatalogFacts.add_open_ports_first_new max (opened ol) os) as Hfirst.
  rewrite E in Hfirst. apply app_inv_head in Hfirst.
  rewrite E in Hperm. exists extra.
  split; [done|]. split; [done|]. split; [done|]. split; [done|].
  split; [|split].
  - intros d Hd. rewrite Hperm. apply Hcov, Hd.
  - apply CatalogFacts.sim_serial_devices_strongly_sorted.
  - rewrite Hperm. by apply Hlen.
Qed.

(** C7 on a host that lists COM2 and COM1 while COM1, COM3 and COM2 are
    open. *)
Lemma C7_catalog_merge_witness :
  Z.of_nat (length host_two) <= 64
  /\ (let result := sim_serial_devices 64 host_two three_open in
      exists extra,
        extra = [mk_entry (bytes "COM3") []]
        /\ result ≡ₚ host_two ++ extra
        /\ Forall (fun e => exists d, d ∈ opened three_open /\ e = entry_of d
                            /\ strcpy (od_name d) ∉ cname <$> host_two) extra
        /\ NoDup (cname <$> extra)
        /\ (forall d, d ∈ opened three_open ->
              strcpy (od_name d) ∈ cname <$> result
              \/ 64 <= Z.of_nat (length result))
        /\ StronglySorted name_le result
        /\ Z.of_nat (length result) <= 64).
Proof.
  assert (Z.of_nat (length host_two) <= 64) as H by (simpl; lia).
  split; [exact H|]. exact (C7_catalog_merge 64 host_two three_open H).
Defined.

(** Claim C7 as first stated fails: with two open devices of one name that
    the host does not list, both are entries "whose name is not present in
    the host-enumerated list", yet one entry is appended, with room left. *)
Lemma C7_same_name_appended_once :
  let result := sim_serial_devices 64 [] same_name_twice in
  length (filter (fun d => listed (od_name d) [] = false)
            (opened same_name_twice)) = 2%nat
  /\ result = [mk_entry (bytes "/dev/ttyACM0") []]
  /\ Z.of_nat (length result) < 64.
Proof. vm_compute. split; [done|]. split; done. Qed.

(** Claim C8 fails on the termios implementation.  With a valid
    configuration (9600 baud, 8 bits, no parity, 1 stop bit) and a
    [tcsetattr] that fails, [sim_config_serial] returns [SCPE_IERR], which
    is none of [SCPE_OK], [SCPE_ARG], [SCPE_IOERR].  The rest of the claim
    holds: the Windows implementation returns one of the three in every
    case, and a character size of 4 or of 9 gives [SCPE_ARG] in both
    implementations once the first host query has succeeded. *)
Theorem C8_termios_set_failure_is_IERR (h : Unix.termios_h)
    (tio : Unix.termios) (error : Z) :
  Unix.sim_config_serial h (Done tio) (fun _ => Failed error)
    (mk_config 9600 8 78 1) = SCPE_IERR
  /\ (forall hw get set config,
        Win.sim_config_serial hw get set config
          ∈ [SCPE_OK; SCPE_ARG; SCPE_IOERR])
  /\ (forall set baud par stop,
        Unix.sim_config_serial h (Done tio) set (mk_config baud 4 par stop)
          = SCPE_ARG
        /\ Unix.sim_config_serial h (Done tio) set (mk_config baud 9 par stop)
          = SCPE_ARG)
  /\ (forall hw dcb set baud par stop,
        Win.sim_config_serial hw (Done dcb) set (mk_config baud 4 par stop)
          = SCPE_ARG
        /\ Win.sim_config_serial hw (Done dcb) set (mk_config baud 9 par stop)
          = SCPE_ARG).
Proof.
  split; [done|]. split; [apply ConfigFacts.win_status|]. split.
  - intros set baud par stop. split; by apply ConfigFacts.unix_charsize.
  - intros hw dcb set baud par stop. split; by apply ConfigFacts.win_charsize.
Qed.



(** Claim C10 (Encoding A, sequences cut short).  Whatever precedes them,
    a final [{ESC, NUL}] with no payload byte comes out as the last two
    characters [{ESC, NUL}] and neither of their BREAK slots is written;
    and a final ESC comes out as the last character, its slot not
    written. *)
Theorem C10_truncated_sequences_pass (h : Unix.termios_h)
    (buffer brk data : list Z) :
  (exists r ys,
     Unix.sim_read_serial h buffer brk (Done (data ++ [Unix.ESC; NUL]))
       = Some r
     /\ chars r = ys ++ [Unix.ESC; NUL]
     /\ out_brk r !! length ys = brk !! length ys
     /\ out_brk r !! S (length ys) = brk !! S (length ys))
  /\ (exists r ys,
     Unix.sim_read_serial h buffer brk (Done (data ++ [Unix.ESC]))
       = Some r
     /\ chars r = ys ++ [Unix.ESC]
     /\ out_brk r !! length ys = brk !! length ys).
Proof.
  destruct (DecoderFacts.unescape_tail (length data) data) as [[o1 H1] [o2 H2]]; [done|].
  split.
  - destruct (DecoderFacts.read_unescape h buffer brk (data ++ [Unix.ESC; NUL]))
      as (junk & _ & ->).
    eexists; exists (bytes_of o1). split; [done|].
    rewrite DecoderFacts.chars_result, H1. simpl.
    unfold bytes_of, flags_of. rewrite !fmap_app, !length_fmap. simpl.
    split; [done|]. rewrite !DecoderFacts.lookup_mark.
    rewrite lookup_app_r by (rewrite length_fmap; lia).
    rewrite (lookup_app_r _ _ (S _)) by (rewrite length_fmap; lia).
    rewrite !length_fmap, Nat.sub_diag.
    by replace (S (length o1) - length o1)%nat with 1%nat by lia.
  - destruct (DecoderFacts.read_unescape h buffer brk (data ++ [Unix.ESC]))
      as (junk & _ & ->).
    eexists; exists (bytes_of o2). split; [done|].
    rewrite DecoderFacts.chars_result, H2. simpl.
    unfold bytes_of, flags_of. rewrite !fmap_app, !length_fmap. simpl.
    split; [done|]. rewrite !DecoderFacts.lookup_mark.
    rewrite lookup_app_r by (rewrite length_fmap; lia).
    by rewrite !length_fmap, Nat.sub_diag.
Qed.

(** * Further properties *)

(** ** More on the stream decoder *)

Module DecoderMore.
Import Unix DecoderFacts.

Lemma unescape_parmrk e rest :
  unescape (parmrk_bytes e ++ rest) =
  (received_char e, read_as_break e) :: unescape rest.
Proof.
  destruct e as [c|c|]; simpl parmrk_bytes.
  - destruct (Z.eqb_spec c ESC) as [->|Hc].
    + apply unescape_esc_esc.
    + by apply unescape_other.
  - apply unescape_esc_nul.
  - apply unescape_esc_nul.
Qed.

Lemma unescape_stream events :
  unescape (parmrk_stream events) =
  (fun e => (received_char e, read_as_break e)) <$> events.
Proof.
  unfold parmrk_stream. induction events as [|e events IH]; [done|].
  rewrite !fmap_cons. cbn [concat]. by rewrite unescape_parmrk, IH.
Qed.

Lemma unescape_long n : forall l,
  (length l <= n)%nat -> (length l <= 3 * length (unescape l))%nat.
Proof.
  induction n as [|n IH]; intros l Hn.
  { destruct l; [done|simpl in Hn; lia]. }
  destruct l as [|x [|y t]].
  - done.
  - rewrite unescape_single. simpl. lia.
  - destruct (decide (x = ESC)) as [->|Hx].
    + destruct (decide (y = ESC)) as [->|Hy].
      * rewrite unescape_esc_esc. specialize (IH t). simpl in *. lia.
      * destruct (decide (y = NUL)) as [->|Hy0]; [destruct t as [|c t]|].
        -- simpl. lia.
        -- rewrite unescape_esc_nul. specialize (IH t). simpl in *. lia.
        -- rewrite unescape_esc_other by (done || by left).
           specialize (IH (y :: t)). simpl in *. lia.
    + rewrite unescape_other by done.
      specialize (IH (y :: t)). simpl in *. lia.
Qed.

Lemma unescape_flag_nul n : forall l,
  (length l <= n)%nat ->
  Forall (fun o => o.2 = true -> o.1 = NUL) (unescape l).
Proof.
  induction n as [|n IH]; intros l Hn.
  { destruct l; [constructor|simpl in Hn; lia]. }
  destruct l as [|x [|y t]].
  - constructor.
  - rewrite unescape_single. by repeat constructor.
  - destruct (decide (x = ESC)) as [->|Hx].
    + destruct (decide (y = ESC)) as [->|Hy].
      * rewrite unescape_esc_esc. constructor; [done|].
        apply IH. simpl in *. lia.
      * destruct (decide (y = NUL)) as [->|Hy0]; [destruct t as [|c t]|].
        -- by repeat constructor.
        -- rewrite unescape_esc_nul. constructor.
           ++ simpl. by intros ?%Z.eqb_eq.
           ++ apply IH. simpl in *. lia.
        -- rewrite unescape_esc_other by (done || by left).
           constructor; [done|]. apply IH. simpl in *. lia.
    + rewrite unescape_other by done. constructor; [done|].
      apply IH. simpl in *. lia.
Qed.

End DecoderMore.

(** Extra X1.  When the driver delivers, in one read, the PARMRK stream of
    any sequence of line events, the UNIX [sim_read_serial] returns exactly
    one character per event, the character the event stands for, and sets
    the BREAK slot of exactly the events that are a BREAK or a bad NUL. *)
Theorem read_recovers_line_events (h : Unix.termios_h) (buffer brk : list Z)
    (events : list line_event) :
  exists r,
    Unix.sim_read_serial h buffer brk (Done (parmrk_stream events)) = Some r
    /\ ret r = Z.of_nat (length events)
    /\ chars r = received_char <$> events
    /\ out_brk r = mark (read_as_break <$> events) brk.
Proof.
  destruct (DecoderFacts.read_unescape h buffer brk (parmrk_stream events))
    as (junk & _ & ->).
  eexists. split; [done|].
  rewrite DecoderFacts.chars_result, DecoderMore.unescape_stream.
  unfold bytes_of, flags_of. cbn [ret out_brk].
  rewrite length_fmap, <- !list_fmap_compose. done.
Qed.

(** Extra X2.  The UNIX [sim_read_serial] returns between a third of the
    bytes read and all of them; so it returns 0, which callers take as
    "nothing available", only when the host read nothing. *)
Theorem read_count_bounds (h : Unix.termios_h) (buffer brk data : list Z) :
  exists r,
    Unix.sim_read_serial h buffer brk (Done data) = Some r
    /\ Z.of_nat (length data) <= 3 * ret r
    /\ ret r <= Z.of_nat (length data)
    /\ (ret r = 0 <-> data = []).
Proof.
  destruct (DecoderFacts.read_unescape h buffer brk data) as (junk & _ & ->).
  eexists. split; [done|]. cbn [ret].
  pose proof (DecoderMore.unescape_long (length data) data (le_n _)).
  pose proof (DecoderFacts.unescape_length (length data) data (le_n _)).
  split; [lia|]. split; [lia|]. split.
  - intros Hz. destruct data; [done|]. simpl in *. lia.
  - by intros ->.
Qed.

(** Extra X3.  With a BREAK array that the caller has cleared, every slot
    the UNIX [sim_read_serial] leaves set belongs to a returned character
    that is NUL. *)
Theorem break_flag_only_on_nul (h : Unix.termios_h) (buffer data : list Z)
    (n i : nat) :
  exists r,
    Unix.sim_read_serial h buffer (replicate n 0) (Done data) = Some r
    /\ (out_brk r !! i = Some 1 -> chars r !! i = Some NUL).
Proof.
  destruct (DecoderFacts.read_unescape h buffer (replicate n 0) data)
    as (junk & _ & ->).
  eexists. split; [done|].
  rewrite DecoderFacts.chars_result. cbn [out_brk].
  rewrite DecoderFacts.lookup_mark. unfold flags_of, bytes_of.
  rewrite !list_lookup_fmap.
  pose proof (DecoderMore.unescape_flag_nul (length data) data (le_n _)) as Hall.
  destruct (unescape data !! i) as [[c f]|] eqn:E; simpl.
  - pose proof (proj1 (Forall_lookup _ _) Hall i _ E) as Hc. simpl in Hc.
    destruct f; [by rewrite Hc|].
    intros [[=] _]%lookup_replicate.
  - intros [[=] _]%lookup_replicate.
Qed.

Module ScanFrame.
Import Unix.

Lemma memchr_from_range buf ch n : forall c b,
  memchr_from buf c ch n = Some b -> c <= b < c + Z.of_nat n.
Proof.
  induction n as [|n IH]; intros c b; simpl; [done|].
  destruct (load buf c =? ch).
  - intros [= <-]. lia.
  - intros H%IH. lia.
Qed.

Lemma memchr_range buf c ch n b :
  0 <= n -> memchr buf c ch n = Some b -> c <= b < c + n.
Proof.
  intros Hn H%memchr_from_range. lia.
Qed.

Lemma memmove_frame buf d s n k :
  0 <= d -> 0 <= s -> 0 <= n ->
  s + n <= Z.of_nat (length buf) -> d + n <= k -> k <= Z.of_nat (length buf) ->
  length (memmove buf d s n) = length buf
  /\ drop (Z.to_nat k) (memmove buf d s n) = drop (Z.to_nat k) buf.
Proof.
  intros Hd Hs Hn Hsn Hdn Hk. unfold memmove.
  set (moved := take (Z.to_nat n) (drop (Z.to_nat s) buf)).
  assert (length moved = Z.to_nat n) as Hm.
  { unfold moved. rewrite length_take, length_drop. lia. }
  split.
  - rewrite !length_app, length_take, length_drop, Hm. lia.
  - rewrite app_assoc, drop_app_ge; cycle 1.
    { rewrite length_app, length_take, Hm. lia. }
    rewrite length_app, length_take, Hm, drop_drop. f_equal. lia.
Qed.

Lemma scan_step_inv k s s' :
  scan_inv k s -> scan_step s = Some s' ->
  scan_inv k s'
  /\ length (buffer s') = length (buffer s)
  /\ drop (Z.to_nat k) (buffer s') = drop (Z.to_nat k) (buffer s)
  /\ length (brk s') = length (brk s).
Proof.
  intros (Hc & Hrem & Hrc & Hk). unfold scan_step.
  destruct (Z.ltb_spec 0 (remaining s)) as [Hpos|]; [|done].
  destruct (memchr (buffer s) (cptr s) ESC (remaining s)) as [b|] eqn:Hb; [|done].
  apply memchr_range in Hb; [|lia].
  destruct (load (buffer s) (b + 1) =? ESC).
  - intros [= <-]. cbn [buffer brk cptr remaining read_count].
    destruct (memmove_frame (buffer s) (b + 1) (b + 2)
                (remaining s - (b - cptr s) - 1) k) as [Hl Hd]; try lia.
    unfold scan_inv. cbn [buffer brk cptr remaining read_count].
    rewrite Hl. repeat split; try done; lia.
  - destruct ((0 <? remaining s - (b - cptr s) - 1)
              && (load (buffer s) (b + 1) =? NUL)) eqn:Hcase.
    + apply andb_true_iff in Hcase as [Hr%Z.ltb_lt _].
      intros [= <-]. cbn [buffer brk cptr remaining read_count].
      destruct (memmove_frame (buffer s) b (b + 2)
                  (remaining s - (b - cptr s) - 1) k) as [Hl Hd]; try lia.
      unfold scan_inv. cbn [buffer brk cptr remaining read_count].
      rewrite Hl. repeat split; try done; try lia.
      destruct (_ =? NUL); [|done]. unfold store. apply length_insert.
    + intros [= <-]. unfold scan_inv.
      cbn [buffer brk cptr remaining read_count].
      repeat split; try done; lia.
Qed.

Lemma scan_frame k fuel : forall s s',
  scan_inv k s -> scan fuel s = Some s' ->
  length (buffer s') = length (buffer s)
  /\ drop (Z.to_nat k) (buffer s') = drop (Z.to_nat k) (buffer s)
  /\ length (brk s') = length (brk s).
Proof.
  induction fuel as [|fuel IH]; intros s s' Hinv;
    rewrite DecoderFacts.scan_unfold;
    destruct (scan_step s) as [s1|] eqn:Hstep; try done.
  - by intros [= <-].
  - intros Hs. destruct (scan_step_inv k s s1 Hinv Hstep) as (Hinv1 & Hl & Hd & Hb).
    destruct (IH s1 s' Hinv1 Hs) as (Hl' & Hd' & Hb').
    split; [congruence|]. split; congruence.
  - by intros [= <-].
Qed.

End ScanFrame.

(** Extra X4.  When the buffer holds the bytes the host read, the UNIX
    [sim_read_serial] keeps the length of both caller arrays and leaves
    every byte of the buffer past the bytes read as it was: compaction
    never reaches beyond the data. *)
Theorem read_stays_within_data (h : Unix.termios_h) (buffer brk data : list Z) :
  (length data <= length buffer)%nat ->
  exists r,
    Unix.sim_read_serial h buffer brk (Done data) = Some r
    /\ length (out_buffer r) = length buffer
    /\ drop (length data) (out_buffer r) = drop (length data) buffer
    /\ length (out_brk r) = length brk.
Proof.
  intros Hlen.
  destruct (DecoderFacts.read_unescape h buffer brk data) as (junk & _ & Hr).
  rewrite Hr. eexists. split; [done|].
  rewrite DecoderFacts.read_outcome in Hr.
  destruct (Unix.scan _ _) as [s'|] eqn:Hscan; [|done].
  injection Hr as _ Hbuf Hbrk. cbn [out_buffer out_brk].
  rewrite <- Hbuf, <- Hbrk.
  assert (scan_inv (Z.of_nat (length data))
            (at_head [] data (drop (length data) buffer) brk)) as Hinv.
  { unfold scan_inv, at_head. cbn [Unix.cptr Unix.remaining Unix.read_count
      Unix.buffer length app]. rewrite length_app. lia. }
  destruct (ScanFrame.scan_frame _ _ _ _ Hinv Hscan) as (Hl & Hd & Hb).
  rewrite Nat2Z.id in Hd. unfold at_head in Hl, Hd, Hb. simpl in Hl, Hd, Hb.
  rewrite Hl, Hd, Hb. rewrite length_app, length_drop.
  split; [lia|]. split; [|done].
  by rewrite drop_app_length.
Qed.

Lemma read_stays_within_data_witness :
  (length [65; 255; 255; 66] <= length [1; 2; 3; 4; 5; 6])%nat
  /\ exists r,
       Unix.sim_read_serial linux_termios_h [1; 2; 3; 4; 5; 6] [0; 0; 0; 0; 0; 0]
         (Done [65; 255; 255; 66]) = Some r
       /\ length (out_buffer r) = length [1; 2; 3; 4; 5; 6]
       /\ drop (length [65; 255; 255; 66]) (out_buffer r)
          = drop (length [65; 255; 255; 66]) [1; 2; 3; 4; 5; 6]
       /\ length (out_brk r) = length [0; 0; 0; 0; 0; 0].
Proof.
  assert (length [65; 255; 255; 66] <= length [1; 2; 3; 4; 5; 6])%nat as H
    by (simpl; lia).
  split; [exact H|].
  exact (read_stays_within_data linux_termios_h [1; 2; 3; 4; 5; 6]
           [0; 0; 0; 0; 0; 0] [65; 255; 255; 66] H).
Defined.

(** ** More on the list of open devices *)

Module RegistryMore.
Import RegistryFacts.

Lemma count_opened ol :
  list_ok ol -> length (opened ol) = serial_open_device_count ol.
Proof. unfold list_ok, opened. intros H. rewrite length_take. lia. Qed.

Lemma do_op_ok ol op :
  list_ok ol ->
  list_ok (do_op ol op) /\ opened (do_op ol op) = ref_op (opened ol) op.
Proof.
  intros Hok. destruct op as [h lp nm ds|h]; simpl.
  - split; [by apply list_ok_add|by apply opened_add].
  - destruct (opened_remove ol h Hok) as [E Hok']. done.
Qed.

Lemma run_ok ops : forall ol,
  list_ok ol ->
  list_ok (fold_left do_op ops ol)
  /\ opened (fold_left do_op ops ol) = fold_left ref_op ops (opened ol).
Proof.
  induction ops as [|op ops IH]; intros ol Hok; [done|]. simpl.
  destruct (do_op_ok ol op Hok) as [Hok' E].
  destruct (IH _ Hok') as [Hok'' E']. by rewrite E', E.
Qed.

Lemma filter_all {A} (P : A -> Prop) `{forall x, Decision (P x)} (l : list A) :
  Forall P l -> filter P l = l.
Proof.
  induction 1 as [|x l Hx _ IH]; [done|].
  by rewrite filter_cons_True, IH.
Qed.

Lemma remove_first_filter h l :
  NoDup (port <$> l) ->
  remove_first h l = filter (fun d => port d <> h) l.
Proof.
  induction l as [|d l IH]; [done|]. rewrite fmap_cons.
  intros [Hd Hnd]%NoDup_cons. simpl.
  destruct (Z.eqb_spec (port d) h) as [E|E].
  - rewrite filter_cons_False by (intros ?; done).
    symmetry. apply filter_all.
    (* no other entry has this handle *)
    apply Forall_forall. intros x Hx Hxh. apply Hd.
    apply list_elem_of_fmap. exists x. split; [congruence|done].
  - rewrite filter_cons_True by done. by rewrite IH.
Qed.

End RegistryMore.

(** Extra X5.  From the empty list, any sequence of registrations and
    removals keeps the count within the allocated array, and the entries in
    use are what the same sequence gives on a plain list: append for a
    registration, removal of the first entry with the handle for a
    removal. *)
Theorem open_list_tracks_operations (ops : list list_op) :
  let ol := fold_left do_op ops no_open_devices in
  list_ok ol
  /\ opened ol = fold_left ref_op ops []
  /\ serial_open_device_count ol = length (fold_left ref_op ops []).
Proof.
  intros ol.
  destruct (RegistryMore.run_ok ops no_open_devices RegistryFacts.list_ok_initial)
    as [Hok E].
  fold ol in Hok, E. split; [done|]. split; [done|].
  by rewrite <- (RegistryMore.count_opened ol Hok), E.
Qed.

(** Extra X6.  When no two entries in use have the same handle,
    [sim_close_serial] removes every entry with the handle closed and no
    other, and closing the same handle again changes nothing. *)
Theorem close_twice_is_close_once (ol : open_list) (h : SERHANDLE) :
  list_ok ol -> NoDup (port <$> opened ol) ->
  let once := sim_close_serial ol h in
  opened once = filter (fun d => port d <> h) (opened ol)
  /\ sim_close_serial once h = once.
Proof.
  intros Hok Hnd once. unfold sim_close_serial in *.
  destruct (RegistryFacts.opened_remove ol h Hok) as [E Hok'].
  fold once in E, Hok'.
  rewrite (RegistryMore.remove_first_filter h _ Hnd) in E.
  split; [done|].
  apply RegistryFacts.remove_unknown; [done|].
  rewrite E. apply Forall_forall. by intros x [? _]%list_elem_of_filter.
Qed.

Lemma close_twice_is_close_once_witness :
  list_ok three_open /\ NoDup (port <$> opened three_open)
  /\ (let once := sim_close_serial three_open 5 in
      opened once = filter (fun d => port d <> 5) (opened three_open)
      /\ sim_close_serial once 5 = once).
Proof.
  assert (list_ok three_open) as Hok by (unfold list_ok; simpl; lia).
  assert (NoDup (port <$> opened three_open)) as Hnd.
  { apply NoDup_ListNoDup. repeat constructor; simpl; intuition lia. }
  split; [exact Hok|]. split; [exact Hnd|].
  exact (close_twice_is_close_once three_open 5 Hok Hnd).
Defined.

(** Extra X7.  [sim_open_serial] leaves the list of open devices as it was
    when it returns [INVALID_HANDLE]; otherwise it appends one entry, for
    the translated name and description under the handle the host gave.
    When that handle was not in the list before, [sim_close_serial] on it
    gives back the entries and the count there were before the open. *)
Theorem open_then_close_restores (INVALID_HANDLE : SERHANDLE)
    (sim_open_os_serial : list Z -> SERHANDLE) (os : list SERIAL_LIST)
    (ol : open_list) (user_name : list Z) (lp : TMLN_ptr) :
  let r := sim_open_serial INVALID_HANDLE sim_open_os_serial os ol user_name lp in
  list_ok ol ->
  list_ok r.2
  /\ (if r.1 =? INVALID_HANDLE then r.2 = ol
      else (exists n d,
              translate_name os ol user_name = Some (n, d)
              /\ r.1 = sim_open_os_serial n
              /\ opened r.2 =
                 opened ol ++
                 [mk_open r.1 lp (strcpy n)
                    (match d with Some d => strcpy d | None => [] end)]
              /\ serial_open_device_count r.2
                 = S (serial_open_device_count ol))
           /\ (Forall (fun d => port d <> r.1) (opened ol) ->
               opened (sim_close_serial r.2 r.1) = opened ol
               /\ serial_open_device_count (sim_close_serial r.2 r.1)
                  = serial_open_device_count ol)).
Proof.
  intros r Hok. unfold sim_open_serial in r.
  destruct (translate_name os ol user_name) as [[n d]|] eqn:Htr; cycle 1.
  { subst r. simpl. by rewrite Z.eqb_refl. }
  cbv zeta in r.
  destruct (Z.eqb_spec (sim_open_os_serial n) INVALID_HANDLE) as [E|E];
    simpl in r; subst r; cbn [fst snd] in *.
  { rewrite E, Z.eqb_refl. done. }
  rewrite (proj2 (Z.eqb_neq _ _) E).
  pose proof (RegistryFacts.list_ok_add ol (sim_open_os_serial n) lp n d Hok) as Hok'.
  pose proof (RegistryFacts.opened_add ol (sim_open_os_serial n) lp n d Hok) as Hadd.
  split; [done|]. split.
  { exists n, d. split; [done|]. split; [done|]. split; [done|].
    rewrite <- (RegistryMore.count_opened _ Hok'),
      <- (RegistryMore.count_opened _ Hok), Hadd, length_app.
    simpl. lia. }
  intros Hfresh. unfold sim_close_serial.
  destruct (RegistryFacts.opened_remove _ (sim_open_os_serial n) Hok') as [Hrm Hok''].
  assert (opened (_serial_remove_from_open_list
                    (_serial_add_to_open_list ol (sim_open_os_serial n) lp n d)
                    (sim_open_os_serial n)) = opened ol) as Hsame.
  { rewrite Hrm, Hadd.
    rewrite RegistryFacts.remove_first_split by done. apply app_nil_r. }
  split; [done|].
  rewrite <- (RegistryMore.count_opened _ Hok''), Hsame.
  by apply RegistryMore.count_opened.
Qed.

Lemma open_then_close_restores_witness :
  let r := sim_open_serial (-1) (fun _ => 9) host_two two_open (bytes "com1") 102 in
  list_ok two_open
  /\ Forall (fun d => port d <> r.1) (opened two_open)
  /\ r.1 = 9
  /\ list_ok r.2
  /\ (exists n d,
        translate_name host_two two_open (bytes "com1") = Some (n, d)
        /\ r.1 = 9
        /\ opened r.2 =
           opened two_open ++
           [mk_open r.1 102 (strcpy n)
              (match d with Some d => strcpy d | None => [] end)]
        /\ serial_open_device_count r.2 = 3%nat)
  /\ opened (sim_close_serial r.2 r.1) = opened two_open
  /\ serial_open_device_count (sim_close_serial r.2 r.1) = 2%nat.
Proof.
  intros r.
  assert (list_ok two_open) as Hok by (unfold list_ok; simpl; lia).
  assert (r.1 = 9) as E by (vm_compute; reflexivity).
  assert (Forall (fun d => port d <> r.1) (opened two_open)) as Hf.
  { rewrite E. repeat constructor; simpl; lia. }
  split; [exact Hok|]. split; [exact Hf|]. split; [exact E|].
  pose proof (open_then_close_restores (-1) (fun _ => 9) host_two two_open
                (bytes "com1") 102 Hok) as [Hok' Hrest].
  fold r in Hok', Hrest.
  split; [exact Hok'|].
  replace (r.1 =? -1) with false in Hrest by (by rewrite E).
  destruct Hrest as [Happ Hclose].
  split; [exact Happ|]. exact (Hclose Hf).
Defined.

(** ** More on the catalog and on the lookups *)

Module CatalogMore.
Import StringFacts CatalogFacts ResolverFacts.

Lemma strongly_sorted_strict (l : list SERIAL_LIST) :
  StronglySorted name_le l -> NoDup (cname <$> l) ->
  StronglySorted (fun a b => _serial_name_compare a b < 0) l.
Proof.
  induction 1 as [|a l Hs IH Ha]; [constructor|].
  rewrite fmap_cons. intros [Hnew Hnd]%NoDup_cons.
  constructor; [by apply IH|].
  apply Forall_forall. intros b Hb.
  rewrite Forall_forall in Ha. specialize (Ha b Hb).
  unfold name_le in Ha.
  assert (_serial_name_compare a b <> 0) as Hne; [|lia].
  intros E. apply strcmp_zero in E. apply Hnew.
  apply list_elem_of_fmap. by exists b.
Qed.

Lemma add_open_ports_distinct max os open :
  NoDup (cname <$> os) -> NoDup (cname <$> add_open_ports max os open).
Proof.
  intros Hos.
  destruct (add_open_ports_spec max open os) as (extra & E & Hfrom & Hnd & _).
  rewrite E, fmap_app. apply NoDup_app. split; [done|]. split; [|done].
  intros n Hn (e & -> & He)%list_elem_of_fmap.
  rewrite Forall_forall in Hfrom.
  destruct (Hfrom e He) as (d & _ & -> & Hnot).
  apply Hnot. by rewrite <- cname_entry_of.
Qed.

Lemma fold_equal_sym a b : fold_equal a b -> fold_equal b a.
Proof.
  intros [Hlen H]. split; [done|]. intros k Hk. symmetry. apply H. lia.
Qed.

Lemma fold_equal_trans a b c :
  fold_equal a b -> fold_equal b c -> fold_equal a c.
Proof.
  intros [Hab H1] [Hbc H2]. split; [congruence|].
  intros k Hk. rewrite H1 by done. apply H2. lia.
Qed.

Lemma name_matches_ext u u' x :
  fold_equal u u' -> name_matches u x = name_matches u' x.
Proof.
  intros Hu. apply eq_true_iff_eq. rewrite !name_matches_fold.
  split; intros H.
  - eapply fold_equal_trans; [by apply fold_equal_sym|done].
  - by eapply fold_equal_trans.
Qed.

Lemma desc_matches_ext u u' x :
  fold_equal u u' -> desc_matches x u = desc_matches x u'.
Proof.
  intros Hu. apply eq_true_iff_eq. rewrite !desc_matches_fold.
  split; intros H.
  - eapply fold_equal_trans; [by apply fold_equal_sym|done].
  - by eapply fold_equal_trans.
Qed.

Lemma find_ext {A} (f g : A -> bool) (l : list A) :
  (forall x, f x = g x) -> find f l = find g l.
Proof.
  intros E. induction l as [|a l IH]; [done|]. simpl. by rewrite E, IH.
Qed.

End CatalogMore.

(** Extra X8.  When the host's entries have names that differ from one
    another, so have the entries of the catalog, and [qsort] leaves them in
    strictly ascending order of [strcmp]: every entry compares below every
    later one. *)
Theorem catalog_names_strictly_ascending (max : Z) (os : list SERIAL_LIST)
    (ol : open_list) :
  NoDup (cname <$> os) ->
  let result := sim_serial_devices max os ol in
  NoDup (cname <$> result)
  /\ StronglySorted (fun a b => _serial_name_compare a b < 0) result.
Proof.
  intros Hos result.
  assert (NoDup (cname <$> result)) as Hnd.
  { unfold result. rewrite (CatalogFacts.sim_serial_devices_perm max os ol).
    by apply CatalogMore.add_open_ports_distinct. }
  split; [done|].
  apply CatalogMore.strongly_sorted_strict; [|done].
  apply CatalogFacts.sim_serial_devices_strongly_sorted.
Qed.

Lemma catalog_names_strictly_ascending_witness :
  NoDup (cname <$> host_two)
  /\ NoDup (cname <$> sim_serial_devices 64 host_two three_open)
  /\ StronglySorted (fun a b => _serial_name_compare a b < 0)
       (sim_serial_devices 64 host_two three_open).
Proof.
  assert (NoDup (cname <$> host_two)) as Hos.
  { apply NoDup_ListNoDup. vm_compute.
    repeat constructor; simpl; intuition congruence. }
  split; [exact Hos|].
  exact (catalog_names_strictly_ascending 64 host_two three_open Hos).
Defined.

(** Extra X9.  The three lookups by name and by description give the same
    answers for two user strings that differ only in the case of their
    letters. *)
Theorem lookups_ignore_case (os : list SERIAL_LIST) (ol : open_list)
    (u u' : list Z) :
  fold_equal u u' ->
  sim_serial_getname_byname os ol u = sim_serial_getname_byname os ol u'
  /\ sim_serial_getdesc_byname os ol u = sim_serial_getdesc_byname os ol u'
  /\ sim_serial_getname_bydesc os ol u = sim_serial_getname_bydesc os ol u'.
Proof.
  intros Hu.
  unfold sim_serial_getname_byname, sim_serial_getdesc_byname,
    sim_serial_getname_bydesc. cbv zeta.
  rewrite (CatalogMore.find_ext (fun e => name_matches u (name e))
             (fun e => name_matches u' (name e)))
    by (intros x; by apply CatalogMore.name_matches_ext).
  rewrite (CatalogMore.find_ext (fun e => desc_matches (desc e) u)
             (fun e => desc_matches (desc e) u'))
    by (intros x; by apply CatalogMore.desc_matches_ext).
  done.
Qed.

Lemma lookups_ignore_case_witness :
  fold_equal (bytes "com1") (bytes "CoM1")
  /\ sim_serial_getname_byname host_two two_open (bytes "com1")
     = sim_serial_getname_byname host_two two_open (bytes "CoM1")
  /\ sim_serial_getdesc_byname host_two two_open (bytes "com1")
     = sim_serial_getdesc_byname host_two two_open (bytes "CoM1")
  /\ sim_serial_getname_bydesc host_two two_open (bytes "com1")
     = sim_serial_getname_bydesc host_two two_open (bytes "CoM1").
Proof.
  assert (fold_equal (bytes "com1") (bytes "CoM1")) as Hu.
  { split; [reflexivity|]. intros k Hk.
    change (strlen (bytes "com1")) with 4%nat in Hk.
    destruct k as [|[|[|[|k]]]]; [reflexivity..|lia]. }
  split; [exact Hu|].
  exact (lookups_ignore_case host_two two_open _ _ Hu).
Defined.

(** Extra X10.  For a name that is not of the form serX and that matches no
    description, [sim_open_serial] takes the name and the description it
    opens under from one and the same catalog entry, the first whose name
    equals the user's under case folding: the second lookup, made with the
    name as the catalog spells it, finds the entry of the first.  With no
    such entry the user's name passes through, without a description. *)
Theorem by_name_translation_is_one_entry (os : list SERIAL_LIST)
    (ol : open_list) (user_name : list Z) :
  is_serX user_name = false ->
  sim_serial_getname_bydesc os ol user_name = None ->
  let catalog := sim_serial_devices SER_MAX_DEVICE os ol in
  (exists (j : nat) e,
     catalog !! j = Some e
     /\ fold_equal user_name (name e)
     /\ (forall (k : nat) x, (k < j)%nat -> catalog !! k = Some x ->
           ~ fold_equal user_name (name x))
     /\ translate_name os ol user_name
        = Some (cname e, Some (strcpy (desc e))))
  \/ ((forall x, x ∈ catalog -> ~ fold_equal user_name (name x))
      /\ translate_name os ol user_name = Some (strcpy user_name, None)).
Proof.
  intros Hser Hdesc catalog. unfold translate_name. rewrite Hser, Hdesc.
  unfold sim_serial_getname_byname, sim_serial_getdesc_byname. cbv zeta.
  fold catalog.
  pose proof (ResolverFacts.find_first
                (fun x => name_matches user_name (name x)) catalog) as Hfind.
  destruct (find (fun x => name_matches user_name (name x)) catalog)
    as [e|] eqn:Hf; simpl.
  - left. destruct Hfind as (j & Hj & He & Hbefore). exists j, e.
    apply StringFacts.name_matches_fold in He.
    split; [done|]. split; [done|]. split.
    { intros k x Hk Hx Hm. apply StringFacts.name_matches_fold in Hm.
      rewrite (Hbefore k x Hk Hx) in Hm. done. }
    fold (cname e).
    rewrite (CatalogMore.find_ext (fun x => name_matches (cname e) (name x))
               (fun x => name_matches user_name (name x))).
    + by rewrite Hf.
    + intros x. apply CatalogMore.name_matches_ext.
      eapply CatalogMore.fold_equal_trans;
        [apply ResolverFacts.fold_equal_strcpy|].
      by apply CatalogMore.fold_equal_sym.
  - right. split; [|done]. intros x Hx Hm.
    apply StringFacts.name_matches_fold in Hm. rewrite (Hfind x Hx) in Hm. done.
Qed.

Lemma by_name_translation_is_one_entry_witness :
  is_serX (bytes "a") = false
  /\ sim_serial_getname_bydesc case_variants no_open_devices (bytes "a") = None
  /\ let catalog := sim_serial_devices SER_MAX_DEVICE case_variants no_open_devices in
     ((exists (j : nat) e,
         catalog !! j = Some e
         /\ fold_equal (bytes "a") (name e)
         /\ (forall (k : nat) x, (k < j)%nat -> catalog !! k = Some x ->
               ~ fold_equal (bytes "a") (name x))
         /\ translate_name case_variants no_open_devices (bytes "a")
            = Some (cname e, Some (strcpy (desc e))))
      \/ ((forall x, x ∈ catalog -> ~ fold_equal (bytes "a") (name x))
          /\ translate_name case_variants no_open_devices (bytes "a")
             = Some (strcpy (bytes "a"), None))).
Proof.
  assert (is_serX (bytes "a") = false) as Hser by reflexivity.
  assert (sim_serial_getname_bydesc case_variants no_open_devices (bytes "a")
          = None) as Hdesc by reflexivity.
  split; [exact Hser|]. split; [exact Hdesc|].
  exact (by_name_translation_is_one_entry case_variants no_open_devices
           (bytes "a") Hser Hdesc).
Defined.

(** ** The search for host ports on UNIX *)

Module ProbeFacts.
Import UnixDevices.

Lemma numbered_succ format from n :
  numbered format from (S n) =
  (format ++ fmt_d from) :: numbered format (from + 1) n.
Proof.
  unfold numbered. simpl. rewrite Z.add_0_r. f_equal.
  rewrite <- fmap_S_seq, <- list_fmap_compose. apply list_fmap_ext.
  intros _ k _. simpl. do 2 f_equal. lia.
Qed.

Lemma probe_spec open_ isatty format max n : forall i lst,
  probe open_ isatty format max i n lst =
  lst ++ ((fun nm => mk_entry nm []) <$>
          take (Z.to_nat max - length lst)
               (filter (fun nm => is_tty open_ isatty nm = true)
                       (numbered format i n))).
Proof.
  induction n as [|n IH]; intros i lst.
  { simpl. unfold numbered. simpl. rewrite filter_nil, take_nil. by rewrite app_nil_r. }
  rewrite numbered_succ. simpl.
  destruct (Z.ltb_spec (Z.of_nat (length lst)) max) as [Hlt|Hge]; cycle 1.
  { replace (Z.to_nat max - length lst)%nat with 0%nat by lia.
    simpl. by rewrite app_nil_r. }
  rewrite IH. destruct (is_tty open_ isatty (format ++ fmt_d i)) eqn:E.
  - rewrite filter_cons_True by done.
    replace (Z.to_nat max - length lst)%nat
      with (S (Z.to_nat max - length (lst ++ [mk_entry (format ++ fmt_d i) []])))
      by (rewrite length_app; simpl; lia).
    simpl. by rewrite <- app_assoc.
  - rewrite filter_cons_False by (by rewrite E). done.
Qed.

Lemma candidates_distinct : NoDup unix_candidates.
Proof. apply (bool_decide_unpack _). by vm_compute. Qed.

Lemma candidates_strings : strcpy <$> unix_candidates = unix_candidates.
Proof. by vm_compute. Qed.

Lemma os_devices_spec open_ isatty max :
  sim_serial_os_devices open_ isatty max =
  (fun nm => mk_entry nm []) <$>
  take (Z.to_nat max)
       (filter (fun nm => is_tty open_ isatty nm = true) unix_candidates).
Proof.
  unfold sim_serial_os_devices. rewrite !probe_spec. simpl.
  rewrite Nat.sub_0_r, length_fmap.
  unfold unix_candidates. rewrite filter_app, take_app, fmap_app.
  do 3 f_equal.
  rewrite length_take. lia.
Qed.

Lemma os_devices_names open_ isatty max :
  cname <$> sim_serial_os_devices open_ isatty max
  `sublist_of` unix_candidates.
Proof.
  rewrite os_devices_spec, <- list_fmap_compose.
  rewrite <- candidates_strings at 2.
  apply fmap_sublist.
  etrans; [apply sublist_take|apply sublist_filter].
Qed.

End ProbeFacts.

(** Extra X11.  The UNIX [sim_serial_os_devices] returns the first [max] of
    the names /dev/ttyS0 to /dev/ttyS63 and /dev/ttyUSB0 to /dev/ttyUSB63,
    in this order, that the host opens and reports as terminals, each with
    an empty description; it tries no name twice, so the names it returns
    differ from one another, and there are at most [max] of them. *)
Theorem unix_devices_are_first_ttys (open_ : list Z -> host Z)
    (isatty : Z -> bool) (max : Z) :
  let found := UnixDevices.sim_serial_os_devices open_ isatty max in
  found = (fun nm => mk_entry nm []) <$>
          take (Z.to_nat max)
               (filter (fun nm => UnixDevices.is_tty open_ isatty nm = true)
                       unix_candidates)
  /\ NoDup unix_candidates
  /\ NoDup (cname <$> found)
  /\ Z.of_nat (length found) <= Z.max 0 max.
Proof.
  intros found. split; [apply ProbeFacts.os_devices_spec|].
  split; [apply ProbeFacts.candidates_distinct|]. split.
  - eapply sublist_NoDup; [apply ProbeFacts.candidates_distinct|].
    apply ProbeFacts.os_devices_names.
  - unfold found. rewrite ProbeFacts.os_devices_spec, length_fmap, length_take.
    lia.
Qed.

(** Extra X12.  On UNIX the catalog, made of what the search found and of
    the open devices, holds at most 64 entries, no two of them with the
    same name, in strictly ascending order of [strcmp]. *)
Theorem unix_catalog_has_distinct_names (open_ : list Z -> host Z)
    (isatty : Z -> bool) (ol : open_list) :
  let catalog :=
    sim_serial_devices SER_MAX_DEVICE
      (UnixDevices.sim_serial_os_devices open_ isatty SER_MAX_DEVICE) ol in
  Z.of_nat (length catalog) <= SER_MAX_DEVICE
  /\ NoDup (cname <$> catalog)
  /\ StronglySorted (fun a b => _serial_name_compare a b < 0) catalog.
Proof.
  intros catalog.
  set (os := UnixDevices.sim_serial_os_devices open_ isatty SER_MAX_DEVICE)
    in catalog.
  assert (NoDup (cname <$> os)) as Hos.
  { eapply sublist_NoDup; [apply ProbeFacts.candidates_distinct|].
    apply ProbeFacts.os_devices_names. }
  assert (Z.of_nat (length os) <= SER_MAX_DEVICE) as Hlen.
  { unfold os. rewrite ProbeFacts.os_devices_spec, length_fmap, length_take.
    unfold SER_MAX_DEVICE. lia. }
  pose proof (CatalogFacts.sim_serial_devices_perm SER_MAX_DEVICE os ol) as Hperm.
  fold catalog in Hperm.
  assert (NoDup (cname <$> catalog)) as Hnd.
  { rewrite Hperm. by apply CatalogMore.add_open_ports_distinct. }
  split; [|split; [done|]].
  - destruct (CatalogFacts.add_open_ports_spec SER_MAX_DEVICE (opened ol) os)
      as (extra & E & _ & _ & _ & Hmax).
    rewrite Hperm, E. by apply Hmax.
  - apply CatalogMore.strongly_sorted_strict; [|done].
    apply CatalogFacts.sim_serial_devices_strongly_sorted.
Qed.

(** ** The display *)

Module ShowFacts.
Import StringFacts CatalogFacts ResolverFacts.

Lemma digits_of_isdigit fuel : forall n acc,
  0 <= n -> Forall (fun c => isdigit c = true) acc ->
  Forall (fun c => isdigit c = true) (digits_of fuel n acc).
Proof.
  induction fuel as [|fuel IH]; intros n acc Hn Hacc; simpl; [done|].
  destruct (Z.ltb_spec n 10).
  - constructor; [|done]. unfold isdigit. lia.
  - apply IH; [apply Z.div_pos; lia|].
    constructor; [|done]. unfold isdigit.
    pose proof (Z.mod_pos_bound n 10). lia.
Qed.

Lemma digits_of_decimal fuel : forall n acc,
  0 <= n < Z.of_nat fuel ->
  fold_left (fun a c => a * 10 + (c - 48)) (digits_of fuel n acc) 0 =
  fold_left (fun a c => a * 10 + (c - 48)) acc n.
Proof.
  induction fuel as [|fuel IH]; intros n acc Hn; [lia|]. simpl.
  destruct (Z.ltb_spec n 10).
  - simpl. f_equal. lia.
  - rewrite IH.
    + simpl. f_equal. pose proof (Z.div_mod n 10). lia.
    + pose proof (Z.div_lt_upper_bound n 10 n). split; [apply Z.div_pos; lia|].
      assert (n / 10 < n) by (apply Z.div_lt; lia). lia.
Qed.

Lemma fmt_d_isdigit n :
  0 <= n -> Forall (fun c => isdigit c = true) (fmt_d n).
Proof.
  intros Hn. unfold fmt_d. rewrite (proj2 (Z.ltb_ge n 0)) by done.
  by apply digits_of_isdigit.
Qed.

Lemma fmt_d_decimal n : 0 <= n -> decimal (fmt_d n) = n.
Proof.
  intros Hn. unfold fmt_d, decimal. rewrite (proj2 (Z.ltb_ge n 0)) by done.
  rewrite digits_of_decimal; [done|lia].
Qed.

Lemma fmt_d_length n : 0 <= n < 100 -> (1 <= length (fmt_d n) <= 2)%nat.
Proof.
  intros Hn. unfold fmt_d. rewrite (proj2 (Z.ltb_ge n 0)) by lia.
  cbn [digits_of]. destruct (Z.ltb_spec n 10); [simpl; lia|].
  destruct (Z.to_nat n) as [|k] eqn:E; [lia|]. cbn [digits_of].
  rewrite (proj2 (Z.ltb_lt (n / 10) 10)); [simpl; lia|].
  apply Z.div_lt_upper_bound; lia.
Qed.

Lemma strcpy_no_nul s : Forall (fun c => c <> NUL) s -> strcpy s = s.
Proof.
  induction 1 as [|c s Hc _ IH]; [done|].
  rewrite strcpy_cons, (proj2 (Z.eqb_neq c NUL)) by done. by rewrite IH.
Qed.

Lemma label_pattern i : 0 <= i < 100 -> ser_pattern (label i).
Proof.
  intros Hi. exists 115, 101, 114, (fmt_d i).
  split; [|split; [done|split; [done|split; [done|split]]]].
  - apply strcpy_no_nul. unfold label.
    change (bytes "ser") with [115; 101; 114]. simpl.
    repeat (constructor; [done|]).
    eapply Forall_impl; [apply fmt_d_isdigit; lia|].
    intros c. apply isdigit_not_nul.
  - by apply fmt_d_length.
  - apply fmt_d_isdigit. lia.
Qed.

Lemma label_number i : 0 <= i < 100 -> atoi (drop 3 (label i)) = i.
Proof.
  intros Hi. destruct (label_pattern i Hi) as (s & e & r & ds & Hcpy & _ & _ & _ & _ & Hds).
  rewrite (atoi_pattern _ _ _ _ _ Hcpy Hds).
  rewrite strcpy_no_nul in Hcpy.
  - unfold label in Hcpy. change (bytes "ser") with [115; 101; 114] in Hcpy.
    simpl in Hcpy. injection Hcpy as _ _ _ <-. apply fmt_d_decimal. lia.
  - unfold label. change (bytes "ser") with [115; 101; 114]. simpl.
    repeat (constructor; [done|]).
    eapply Forall_impl; [apply fmt_d_isdigit; lia|].
    intros c. apply isdigit_not_nul.
Qed.

Lemma device_rows_app min l1 : forall i l2,
  device_rows min i (l1 ++ l2) =
  device_rows min i l1 ++ device_rows min (i + Z.of_nat (length l1)) l2.
Proof.
  induction l1 as [|e l1 IH]; intros i l2; cbn [app device_rows length].
  - by rewrite Z.add_0_r.
  - rewrite IH, <- app_assoc. do 3 f_equal. lia.
Qed.

Lemma longest_from lst : forall m e,
  e ∈ lst \/ (strlen (name e) <= m)%nat ->
  (strlen (name e) <=
   fold_left (fun min e => if (min <? strlen (name e))%nat
                           then strlen (name e) else min) lst m)%nat.
Proof.
  induction lst as [|x lst IH]; intros m e H; simpl.
  - destruct H as [H%elem_of_nil|H]; done.
  - apply IH. destruct H as [[->|H]%elem_of_cons|H].
    + right. destruct (Nat.ltb_spec m (strlen (name x))); lia.
    + by left.
    + right. destruct (Nat.ltb_spec m (strlen (name x))); lia.
Qed.

Lemma longest_ge lst e :
  e ∈ lst -> (strlen (name e) <= longest lst)%nat.
Proof. intros H. apply longest_from. by left. Qed.

Lemma length_pad_right min s :
  (strlen s <= min)%nat -> length (pad_right min s) = min.
Proof.
  intros H. unfold pad_right.
  rewrite length_app, length_strcpy, length_replicate. lia.
Qed.

Lemma catalog_length os ol :
  Z.of_nat (length os) <= SER_MAX_DEVICE ->
  Z.of_nat (length (sim_serial_devices SER_MAX_DEVICE os ol)) <= SER_MAX_DEVICE.
Proof.
  intros Hos. rewrite (sim_serial_devices_perm SER_MAX_DEVICE os ol).
  destruct (add_open_ports_spec SER_MAX_DEVICE (opened ol) os)
    as (extra & E & _ & _ & _ & Hmax).
  rewrite E. by apply Hmax.
Qed.

Lemma same_string_fold a b : strcpy a = strcpy b -> fold_equal a b.
Proof.
  intros E. eapply CatalogMore.fold_equal_trans.
  - apply CatalogMore.fold_equal_sym, fold_equal_strcpy.
  - rewrite E. apply fold_equal_strcpy.
Qed.

End ShowFacts.

(** Extra X13.  When the host lists at most 64 ports, the line that
    [sim_show_serial] prints for entry [i] of the catalog carries the label
    ser[i], the entry's name in a column as wide as the longest name, and
    its description; and [sim_open_serial] translates that label back to
    the name of entry [i]. *)
Theorem shown_label_opens_its_row (dptr_name : TMLN_ptr -> list Z)
    (ldsc_minus_line : TMLN_ptr -> Z) (sername : TMLN_ptr -> list Z)
    (os : list SERIAL_LIST) (ol : open_list) (i : nat) (e : SERIAL_LIST) :
  Z.of_nat (length os) <= SER_MAX_DEVICE ->
  sim_serial_devices SER_MAX_DEVICE os ol !! i = Some e ->
  let catalog := sim_serial_devices SER_MAX_DEVICE os ol in
  (exists before after,
     (sim_show_serial dptr_name ldsc_minus_line sername os ol).1 =
     before
     ++ ([32] ++ label (Z.of_nat i) ++ [9] ++ pad_right (longest catalog) (name e)
         ++ bytes " (" ++ strcpy (desc e) ++ bytes ")" ++ [10])
     ++ after)
  /\ length (pad_right (longest catalog) (name e)) = longest catalog
  /\ translate_name os ol (label (Z.of_nat i))
     = Some (cname e, sim_serial_getdesc_byname os ol (cname e)).
Proof.
  intros Hos Hi catalog. fold catalog in Hi.
  pose proof (ShowFacts.catalog_length os ol Hos) as Hlen. fold catalog in Hlen.
  pose proof (lookup_lt_Some _ _ _ Hi) as Hlt.
  unfold SER_MAX_DEVICE in Hlen.
  split; [|split].
  - unfold sim_show_serial. cbv zeta. fold catalog. cbn [fst].
    destruct (Z.eqb_spec (Z.of_nat (length catalog)) (-1)) as [?|_]; [lia|].
    destruct (Z.eqb_spec (Z.of_nat (length catalog)) 0) as [?|_]; [lia|].
    assert (forall m, device_rows m 0 catalog =
              device_rows m 0 (take i catalog)
              ++ device_row m (Z.of_nat i) e
              ++ device_rows m (Z.of_nat i + 1) (drop (S i) catalog)) as Hrows.
    { intros m. rewrite <- (take_drop_middle catalog i e Hi) at 1.
      rewrite ShowFacts.device_rows_app. cbn [device_rows].
      rewrite length_take_le by lia. by rewrite Z.add_0_l. }
    rewrite Hrows.
    fold (device_row (longest catalog) (Z.of_nat i) e).
    set (row := device_row (longest catalog) (Z.of_nat i) e).
    set (first := bytes "Serial devices:" ++ [10]).
    set (above := device_rows (longest catalog) 0 (take i catalog)).
    set (below := device_rows (longest catalog) (Z.of_nat i + 1) (drop (S i) catalog)).
    destruct (negb _).
    + eexists (first ++ above), _. rewrite <- !app_assoc. reflexivity.
    + eexists (first ++ above), below. by rewrite <- !app_assoc.
  - apply ShowFacts.length_pad_right, ShowFacts.longest_ge.
    by eapply list_elem_of_lookup_2.
  - unfold translate_name.
    rewrite (proj2 (ResolverFacts.is_serX_pattern _)
               (ShowFacts.label_pattern (Z.of_nat i) ltac:(lia))).
    rewrite ShowFacts.label_number by lia.
    rewrite ResolverFacts.getname_lookup by lia.
    rewrite Nat2Z.id. fold catalog. by rewrite Hi.
Qed.

Lemma shown_label_opens_its_row_witness :
  Z.of_nat (length host_two) <= SER_MAX_DEVICE
  /\ sim_serial_devices SER_MAX_DEVICE host_two three_open !! 2%nat
     = Some (mk_entry (bytes "COM3") [])
  /\ (let catalog := sim_serial_devices SER_MAX_DEVICE host_two three_open in
      (exists before after,
         (sim_show_serial (fun _ => bytes "DZ") (fun _ => 0) (fun _ => bytes "COM3")
            host_two three_open).1 =
         before
         ++ ([32] ++ label (Z.of_nat 2) ++ [9]
             ++ pad_right (longest catalog) (bytes "COM3")
             ++ bytes " (" ++ strcpy [] ++ bytes ")" ++ [10])
         ++ after)
      /\ length (pad_right (longest catalog) (bytes "COM3")) = longest catalog
      /\ translate_name host_two three_open (label (Z.of_nat 2))
         = Some (cname (mk_entry (bytes "COM3") []),
                 sim_serial_getdesc_byname host_two three_open
                   (cname (mk_entry (bytes "COM3") [])))).
Proof.
  assert (Z.of_nat (length host_two) <= SER_MAX_DEVICE) as Hos
    by (unfold SER_MAX_DEVICE; simpl; lia).
  assert (sim_serial_devices SER_MAX_DEVICE host_two three_open !! 2%nat
          = Some (mk_entry (bytes "COM3") [])) as Hi by reflexivity.
  split; [exact Hos|]. split; [exact Hi|].
  exact (shown_label_opens_its_row (fun _ => bytes "DZ") (fun _ => 0)
           (fun _ => bytes "COM3") host_two three_open 2
           (mk_entry (bytes "COM3") []) Hos Hi).
Defined.

(** Extra X14.  While the catalog holds fewer than 64 entries, every open
    device is in it under its name, so [sim_show_serial] prints the line of
    every open device with a description in parentheses: the description
    of a catalog entry whose name is the device's up to the case of
    letters. *)
Theorem open_devices_shown_with_description (dptr_name : TMLN_ptr -> list Z)
    (ldsc_minus_line : TMLN_ptr -> Z) (sername : TMLN_ptr -> list Z)
    (os : list SERIAL_LIST) (ol : open_list) (d : open_serial_device) :
  Z.of_nat (length (sim_serial_devices SER_MAX_DEVICE os ol)) < SER_MAX_DEVICE ->
  d ∈ opened ol ->
  exists e,
    e ∈ sim_serial_devices SER_MAX_DEVICE os ol
    /\ fold_equal (od_name d) (name e)
    /\ sim_serial_getdesc_byname os ol (od_name d) = Some (strcpy (desc e))
    /\ open_row dptr_name ldsc_minus_line sername os ol d =
       [32] ++ strcpy (dptr_name (line d)) ++ [9] ++ bytes "Ln"
            ++ fmt_02d (ldsc_minus_line (line d)) ++ [32]
            ++ strcpy (sername (line d))
            ++ bytes " (" ++ strcpy (desc e) ++ bytes ")" ++ [10].
Proof.
  intros Hroom Hd.
  pose proof (CatalogFacts.sim_serial_devices_perm SER_MAX_DEVICE os ol) as Hperm.
  destruct (CatalogFacts.add_open_ports_spec SER_MAX_DEVICE (opened ol) os)
    as (extra & E & _ & _ & Hcov & _).
  rewrite Hperm, E in Hroom.
  destruct (Hcov d Hd) as [Hin|Hfull]; [|lia].
  rewrite <- E, <- Hperm in Hin.
  apply list_elem_of_fmap in Hin as (x & Hx & Hxin).
  apply ShowFacts.same_string_fold in Hx.
  unfold open_row, sim_serial_getdesc_byname. cbv zeta.
  pose proof (ResolverFacts.find_first
                (fun e => name_matches (od_name d) (name e))
                (sim_serial_devices SER_MAX_DEVICE os ol)) as Hfind.
  destruct (find _ _) as [e|].
  - destruct Hfind as (j & Hj & He & _). exists e.
    simpl in He. apply StringFacts.name_matches_fold in He.
    split; [exact (list_elem_of_lookup_2 _ _ _ Hj)|].
    split; [done|].
    split; [done|]. cbn [fmap option_fmap option_map].
    rewrite StringFacts.strcpy_idemp. by rewrite <- !app_assoc.
  - specialize (Hfind x Hxin).
    apply StringFacts.name_matches_fold in Hx. congruence.
Qed.

Lemma open_devices_shown_with_description_witness :
  Z.of_nat (length (sim_serial_devices SER_MAX_DEVICE host_two three_open))
    < SER_MAX_DEVICE
  /\ mk_open 5 102 (bytes "COM3") [] ∈ opened three_open
  /\ exists e,
       e ∈ sim_serial_devices SER_MAX_DEVICE host_two three_open
       /\ fold_equal (bytes "COM3") (name e)
       /\ sim_serial_getdesc_byname host_two three_open (bytes "COM3")
          = Some (strcpy (desc e))
       /\ open_row (fun _ => bytes "DZ") (fun _ => 0) (fun _ => bytes "COM3")
            host_two three_open (mk_open 5 102 (bytes "COM3") []) =
          [32] ++ strcpy (bytes "DZ") ++ [9] ++ bytes "Ln"
               ++ fmt_02d 0 ++ [32] ++ strcpy (bytes "COM3")
               ++ bytes " (" ++ strcpy (desc e) ++ bytes ")" ++ [10].
Proof.
  assert (Z.of_nat (length (sim_serial_devices SER_MAX_DEVICE host_two three_open))
          < SER_MAX_DEVICE) as Hroom by (vm_compute; reflexivity).
  assert (mk_open 5 102 (bytes "COM3") [] ∈ opened three_open) as Hd.
  { apply list_elem_of_lookup. by exists 1%nat. }
  split; [exact Hroom|]. split; [exact Hd|].
  exact (open_devices_shown_with_description (fun _ => bytes "DZ") (fun _ => 0)
           (fun _ => bytes "COM3") host_two three_open _ Hroom Hd).
Defined.

(** ** The port configuration *)

Module ConfigMore.

Lemma rate_code_B h rate code :
  Unix.rate_code h rate = Some code -> code = Unix.B h rate.
Proof.
  unfold Unix.rate_code. intros H.
  destruct (find _ _) as [[r c]|] eqn:Hf; [|done].
  injection H as <-.
  apply find_some in Hf as [Hin Hr]. simpl in Hr. apply Z.eqb_eq in Hr.
  unfold Unix.baud_map in Hin. apply in_map_iff in Hin as (x & [= <- <-] & _).
  by rewrite Hr.
Qed.

Lemma rate_code_listed h rate :
  is_Some (Unix.rate_code h rate) <->
  rate ∈ [ 50; 75; 110; 134; 150; 200; 300; 600; 1200; 1800; 2400; 4800; 9600;
           19200; 38400; 57600; 115200 ].
Proof.
  unfold Unix.rate_code, Unix.baud_map. rewrite fmap_is_Some. split.
  - intros [[r c] Hf]. apply find_some in Hf as [Hin Hr].
    simpl in Hr. apply Z.eqb_eq in Hr.
    apply in_map_iff in Hin as (x & [= <- <-] & Hin). rewrite Hr.
    by apply list_elem_of_In.
  - intros Hin.
    destruct (find _ _) as [x|] eqn:Hf; [by eexists|].
    apply list_elem_of_In in Hin.
    assert (In (rate, Unix.B h rate)
              ((fun rate => (rate, Unix.B h rate)) <$>
               [ 50; 75; 110; 134; 150; 200; 300; 600; 1200; 1800; 2400; 4800;
                 9600; 19200; 38400; 57600; 115200 ])) as Hin'.
    { apply list_elem_of_In, list_elem_of_fmap. exists rate.
      split; [done|]. by apply list_elem_of_In. }
    pose proof (find_none _ _ Hf _ Hin') as Hno.
    cbn beta in Hno. cbn [fst] in Hno. rewrite Z.eqb_refl in Hno. done.
Qed.

(** On Linux, going from 9600 baud, 8 bits, no parity, 1 stop bit to 19200
    baud, 7 bits, even parity, 2 stop bits takes [c_cflag] from 3261 to
    3566: the speed bits change with the speed. *)
Example linux_config_word :
  Unix.sim_config_serial linux_termios_h (Done (Unix.mk_tio 3261 13 13 0))
    (fun tio => if (Unix.c_cflag tio =? 3566) && (Unix.c_ispeed tio =? 14)
                   && (Unix.c_ospeed tio =? 14)
                then Done tt else Failed 0)
    (mk_config 19200 7 69 2) = SCPE_OK.
Proof. reflexivity. Qed.

(** One bit of a flag word at a time. *)
Ltac bitwise :=
  apply Z.bits_inj'; intros n Hn;
  repeat match goal with
         | H : Z.land _ _ = _ |- _ =>
             apply (f_equal (fun z => Z.testbit z n)) in H; cbv beta in H
         end;
  repeat (progress
            (rewrite ?Z.land_spec, ?Z.lor_spec, ?Z.lnot_spec, ?Z.bits_0 in * by lia));
  repeat match goal with
         | |- context [Z.testbit ?a n] => destruct (Z.testbit a n)
         | H : context [Z.testbit ?a n] |- _ => destruct (Z.testbit a n)
         end;
  simpl in *; congruence.

End ConfigMore.

(** Extra X15.  A configuration the UNIX [sim_config_serial] accepts
    reaches [tcsetattr] in the structure that [cfsetispeed] and
    [cfsetospeed] left for the code of the baud rate, with nothing but
    [c_cflag] assigned after them.  Where the four size codes lie within
    [CSIZE], every bit of [c_cflag] outside [CSIZE], [PARENB], [PARODD]
    and [CSTOPB] is as the two speed calls left it.  Where moreover the
    four flags share no bit, the size field holds the code of the
    character size, [PARENB] is set unless the parity is 'N', [PARODD] is
    set for 'O', cleared for 'E' and left as it was for 'N', and [CSTOPB]
    is set for two stop bits and cleared for one. *)
Theorem unix_config_sets_requested_fields (h : Unix.termios_h)
    (tio : Unix.termios) (set : Unix.termios -> host unit)
    (config : SERCONFIG) :
  Unix.sim_config_serial h (Done tio) set config = SCPE_OK ->
  let code := Unix.B h (baudrate config) in
  let sped := Unix.cfsetospeed h (Unix.cfsetispeed h tio code) code in
  let others :=
    Z.lnot (Z.lor (Z.lor (Unix.CSIZE h) (Unix.PARENB h))
                  (Z.lor (Unix.PARODD h) (Unix.CSTOPB h))) in
  exists tio',
    (forall set',
       Unix.sim_config_serial h (Done tio) set' config =
       match set' tio' with Done _ => SCPE_OK | Failed _ => SCPE_IERR end)
    /\ Unix.c_ispeed tio' = Unix.c_ispeed sped
    /\ Unix.c_ospeed tio' = Unix.c_ospeed sped
    /\ Unix.tio_rest tio' = Unix.tio_rest sped
    /\ (Forall (fun cs => Z.land cs (Unix.CSIZE h) = cs) (Unix.charsize_map h) ->
        Z.land (Unix.c_cflag tio') others = Z.land (Unix.c_cflag sped) others
        /\ (Z.land (Unix.CSIZE h) (Unix.PARENB h) = 0 ->
            Z.land (Unix.CSIZE h) (Unix.PARODD h) = 0 ->
            Z.land (Unix.CSIZE h) (Unix.CSTOPB h) = 0 ->
            Z.land (Unix.PARENB h) (Unix.PARODD h) = 0 ->
            Z.land (Unix.PARENB h) (Unix.CSTOPB h) = 0 ->
            Z.land (Unix.PARODD h) (Unix.CSTOPB h) = 0 ->
            Z.land (Unix.c_cflag tio') (Unix.CSIZE h)
              = load (Unix.charsize_map h) (charsize config - 5)
            /\ Z.land (Unix.c_cflag tio') (Unix.PARENB h)
               = (if parity config =? 78 then 0 else Unix.PARENB h)
            /\ Z.land (Unix.c_cflag tio') (Unix.PARODD h)
               = (if parity config =? 79 then Unix.PARODD h
                  else if parity config =? 69 then 0
                  else Z.land (Unix.c_cflag sped) (Unix.PARODD h))
            /\ Z.land (Unix.c_cflag tio') (Unix.CSTOPB h)
               = (if stopbits config =? 2 then Unix.CSTOPB h else 0))).
Proof.
  intros Hok code sped others.
  unfold Unix.sim_config_serial in *.
  destruct (Unix.rate_code h (baudrate config)) as [code'|] eqn:Hrate; [|done].
  apply ConfigMore.rate_code_B in Hrate. subst code'. fold code in Hok |- *.
  cbv zeta in Hok |- *. fold sped in Hok |- *.
  destruct ((charsize config >=? 5) && (charsize config <=? 8)) eqn:Hsize; [|done].
  assert (Forall (fun cs => Z.land cs (Unix.CSIZE h) = cs) (Unix.charsize_map h) ->
          Z.land (load (Unix.charsize_map h) (charsize config - 5)) (Unix.CSIZE h)
          = load (Unix.charsize_map h) (charsize config - 5)) as Hcs.
  { intros Hmap. apply andb_true_iff in Hsize as [?%Z.geb_le ?%Z.leb_le].
    unfold Unix.charsize_map in *.
    inversion Hmap as [|? ? E5 Hm6]; subst. inversion Hm6 as [|? ? E6 Hm7]; subst.
    inversion Hm7 as [|? ? E7 Hm8]; subst. inversion Hm8 as [|? ? E8 _]; subst.
    assert (charsize config = 5 \/ charsize config = 6 \/ charsize config = 7
            \/ charsize config = 8) as [E | [E | [E | E]]] by lia; rewrite E; done. }
  set (cs := load (Unix.charsize_map h) (charsize config - 5)) in *.
  set (P := Forall (fun cs => Z.land cs (Unix.CSIZE h) = cs) (Unix.charsize_map h))
    in *.
  clearbody cs P. subst others.
  cbn [Unix.c_cflag Unix.c_ispeed Unix.c_ospeed Unix.tio_rest] in *.
  destruct (parity config =? 69) eqn:P69;
    [|destruct (parity config =? 78) eqn:P78;
      [|destruct (parity config =? 79) eqn:P79; [|done]]];
  (destruct (stopbits config =? 1) eqn:S1;
    [|destruct (stopbits config =? 2) eqn:S2; [|done]]);
  (eexists; split; [intros set'; reflexivity|]);
  cbn [Unix.c_cflag Unix.c_ispeed Unix.c_ospeed Unix.tio_rest];
  rewrite ?Z.eqb_eq, ?Z.eqb_neq in *;
  repeat match goal with
         | |- context [?a =? ?b] =>
             first [rewrite (proj2 (Z.eqb_eq a b)) by lia
                   |rewrite (proj2 (Z.eqb_neq a b)) by lia]
         end;
  (split; [done|]); (split; [done|]); (split; [done|]);
  intros HP; specialize (Hcs HP); clear HP Hok;
  (split; [ConfigMore.bitwise|]);
  intros H1 H2 H3 H4 H5 H6; repeat split; ConfigMore.bitwise.
Qed.

(** X15 with the constants and the library of Linux: 19200 baud, 7 bits,
    even parity and 2 stop bits on a port that was at 9600 baud, 8 bits, no
    parity, 1 stop bit. *)
Lemma unix_config_sets_requested_fields_witness :
  Forall (fun cs => Z.land cs 48 = cs) (Unix.charsize_map linux_termios_h)
  /\ Unix.sim_config_serial linux_termios_h (Done (Unix.mk_tio 3261 13 13 0))
       (fun _ => Done tt) (mk_config 19200 7 69 2) = SCPE_OK
  /\ exists tio',
       (forall set',
          Unix.sim_config_serial linux_termios_h (Done (Unix.mk_tio 3261 13 13 0))
            set' (mk_config 19200 7 69 2) =
          match set' tio' with Done _ => SCPE_OK | Failed _ => SCPE_IERR end)
       /\ Unix.c_ispeed tio' = 14
       /\ Unix.c_ospeed tio' = 14
       /\ Unix.tio_rest tio' = 0
       /\ Z.land (Unix.c_cflag tio') (Z.lnot 880) = Z.land 3262 (Z.lnot 880)
       /\ Z.land (Unix.c_cflag tio') 48 = 32
       /\ Z.land (Unix.c_cflag tio') 256 = 256
       /\ Z.land (Unix.c_cflag tio') 512 = 0
       /\ Z.land (Unix.c_cflag tio') 64 = 64.
Proof.
  assert (Forall (fun cs => Z.land cs 48 = cs)
            (Unix.charsize_map linux_termios_h)) as Hmap
    by (repeat constructor).
  split; [exact Hmap|]. split; [reflexivity|].
  destruct (unix_config_sets_requested_fields linux_termios_h
              (Unix.mk_tio 3261 13 13 0) (fun _ => Done tt)
              (mk_config 19200 7 69 2) eq_refl)
    as (tio' & Hset & Hi & Ho & Hr & Hbits).
  destruct (Hbits Hmap) as (Hkept & Hfields).
  destruct (Hfields eq_refl eq_refl eq_refl eq_refl eq_refl eq_refl)
    as (Hcs & Hpe & Hpo & Hst).
  exists tio'. split; [exact Hset|].
  split; [exact Hi|]. split; [exact Ho|]. split; [exact Hr|].
  split; [exact Hkept|].
  split; [exact Hcs|]. split; [exact Hpe|]. split; [exact Hpo|]. exact Hst.
Defined.

(** Extra X16.  Which configurations pass the checks of
    [sim_config_serial]: on UNIX, [SCPE_ARG] is returned, whatever the host
    would answer to [tcsetattr], exactly when the baud rate is not one of
    the 17 of the table, the character size is outside 5 to 8, the parity
    is none of 'E', 'N', 'O' or the stop bits are neither 1 nor 2; on
    Windows, with a host that accepts what it is given, [SCPE_OK] is
    returned exactly when the character size is within 5 to 8, the parity
    is one of 'E', 'M', 'N', 'O', 'S' and the stop bits are 0, 1 or 2; so
    what UNIX takes, Windows takes. *)
Theorem supported_configurations (hu : Unix.termios_h) (hw : Win.winbase_h)
    (tio : Unix.termios) (dcb : Win.DCB) (config : SERCONFIG) :
  let unix_ok :=
    baudrate config ∈ [ 50; 75; 110; 134; 150; 200; 300; 600; 1200; 1800;
                        2400; 4800; 9600; 19200; 38400; 57600; 115200 ]
    /\ 5 <= charsize config <= 8
    /\ parity config ∈ [69; 78; 79]
    /\ stopbits config ∈ [1; 2] in
  let win_ok :=
    5 <= charsize config <= 8
    /\ parity config ∈ [69; 77; 78; 79; 83]
    /\ stopbits config ∈ [0; 1; 2] in
  (forall set,
     Unix.sim_config_serial hu (Done tio) set config = SCPE_ARG <-> ~ unix_ok)
  /\ (Win.sim_config_serial hw (Done dcb) (fun _ => Done tt) config = SCPE_OK
      <-> win_ok)
  /\ (forall set, ~ win_ok ->
        Win.sim_config_serial hw (Done dcb) set config = SCPE_ARG)
  /\ (Unix.sim_config_serial hu (Done tio) (fun _ => Done tt) config = SCPE_OK ->
      Win.sim_config_serial hw (Done dcb) (fun _ => Done tt) config = SCPE_OK).
Proof.
  intros unix_ok win_ok.
  assert (forall set,
            Unix.sim_config_serial hu (Done tio) set config = SCPE_ARG
            <-> ~ unix_ok) as Hunix.
  { intros set. unfold unix_ok. rewrite <- (ConfigMore.rate_code_listed hu).
    unfold Unix.sim_config_serial.
    destruct (Unix.rate_code hu (baudrate config)) as [code|];
      [|split; [intros _ [[? [=]] _]|done]].
    rewrite !elem_of_cons, !elem_of_nil.
    destruct (Z.geb_spec (charsize config) 5), (Z.leb_spec (charsize config) 8);
      cbn [andb]; try (split; [intros _ (_ & ? & ? & ?); lia|done]).
    cbv zeta. cbn [Unix.c_cflag Unix.c_ispeed Unix.c_ospeed Unix.tio_rest].
    destruct (Z.eqb_spec (parity config) 69), (Z.eqb_spec (parity config) 78),
      (Z.eqb_spec (parity config) 79), (Z.eqb_spec (stopbits config) 1),
      (Z.eqb_spec (stopbits config) 2);
      try (exfalso; lia);
      try (split; [intros _ (_ & ? & ? & ?); lia|done]);
      (split; [|intros Hno; exfalso; apply Hno; split; [by eexists|lia]]);
      destruct (set _); done. }
  assert (Win.sim_config_serial hw (Done dcb) (fun _ => Done tt) config = SCPE_OK
          <-> win_ok) as Hwin.
  { unfold win_ok, Win.sim_config_serial, Win.parity_code, Win.parity_map.
    rewrite !elem_of_cons, !elem_of_nil.
    destruct (Z.geb_spec (charsize config) 5), (Z.leb_spec (charsize config) 8);
      cbn [andb]; try (split; [done|lia]).
    cbn [find fst snd].
    destruct (Z.eqb_spec (parity config) 69), (Z.eqb_spec (parity config) 77),
      (Z.eqb_spec (parity config) 78), (Z.eqb_spec (parity config) 79),
      (Z.eqb_spec (parity config) 83), (Z.eqb_spec (stopbits config) 1),
      (Z.eqb_spec (stopbits config) 2), (Z.eqb_spec (stopbits config) 0);
      try (exfalso; lia);
      cbn; try (split; [done|lia]); (split; [lia|done]). }
  split; [done|]. split; [done|]. split.
  - intros set Hno. unfold win_ok in Hno.
    unfold Win.sim_config_serial, Win.parity_code, Win.parity_map.
    rewrite !elem_of_cons, !elem_of_nil in Hno.
    destruct (Z.geb_spec (charsize config) 5), (Z.leb_spec (charsize config) 8);
      cbn [andb]; try done.
    cbn [find fst snd].
    destruct (Z.eqb_spec (parity config) 69), (Z.eqb_spec (parity config) 77),
      (Z.eqb_spec (parity config) 78), (Z.eqb_spec (parity config) 79),
      (Z.eqb_spec (parity config) 83), (Z.eqb_spec (stopbits config) 1),
      (Z.eqb_spec (stopbits config) 2), (Z.eqb_spec (stopbits config) 0);
      try (exfalso; lia);
      cbn; try done; exfalso; apply Hno; lia.
  - intros Hok. apply Hwin.
    destruct (decide unix_ok) as [(_ & ? & Hp & Hs)|Hno].
    + unfold win_ok. rewrite !elem_of_cons, !elem_of_nil in *. lia.
    + apply (Hunix (fun _ => Done tt)) in Hno. congruence.
Qed.

(** ** Opening a port on UNIX *)

Module OpenFacts.

Lemma kept_bits a clear set_ :
  Z.land (Z.lor (Z.land a (Z.lnot clear)) set_) (Z.lnot (Z.lor clear set_))
  = Z.land a (Z.lnot (Z.lor clear set_)).
Proof. ConfigMore.bitwise. Qed.

Lemma set_bits a clear set_ m :
  Z.land m set_ = m ->
  Z.land (Z.lor (Z.land a (Z.lnot clear)) set_) m = m.
Proof. intros H. ConfigMore.bitwise. Qed.

Lemma cleared_bits a clear set_ m :
  Z.land m clear = m -> Z.land clear set_ = 0 ->
  Z.land (Z.lor (Z.land a (Z.lnot clear)) set_) m = 0.
Proof. intros H1 H2. ConfigMore.bitwise. Qed.

End OpenFacts.

(** Extra X17.  The UNIX [sim_open_os_serial] keeps a descriptor open only
    when it returns it: if [open] fails, nothing is closed and
    [INVALID_HANDLE] is returned, without a diagnostic when the error is
    [ENOENT] or [EACCES]; if [open] succeeds, either the descriptor is
    returned, it is a terminal, the raw modes made of what [tcgetattr]
    gave were accepted by [tcsetattr] and nothing was closed, or
    [INVALID_HANDLE] is returned and the last thing done is to close the
    descriptor; a descriptor that is not a terminal is closed without a
    diagnostic. *)
Theorem unix_open_keeps_only_what_it_returns (h : UnixOpen.termios_h)
    (INVALID_HANDLE : SERHANDLE) (open_ : list Z -> host SERHANDLE)
    (isatty : SERHANDLE -> bool)
    (tcgetattr : SERHANDLE -> host UnixOpen.termios)
    (tcsetattr : SERHANDLE -> UnixOpen.termios -> host unit)
    (name : list Z) :
  let r := UnixOpen.sim_open_os_serial h INVALID_HANDLE open_ isatty
             tcgetattr tcsetattr name in
  match open_ name with
  | Failed errno =>
      r.1 = INVALID_HANDLE
      /\ (forall port, UnixOpen.Close port ∉ r.2)
      /\ (errno = UnixOpen.ENOENT h \/ errno = UnixOpen.EACCES h ->
          r.2 = [UnixOpen.Open name])
  | Done port =>
      (r.1 = port
       /\ (forall p, UnixOpen.Close p ∉ r.2)
       /\ (forall text, UnixOpen.Stderr text ∉ r.2)
       /\ isatty port = true
       /\ exists tio,
            tcgetattr port = Done tio
            /\ tcsetattr port (UnixOpen.raw_mode h tio) = Done tt
            /\ last r.2 = Some (UnixOpen.Tcsetattr port (UnixOpen.raw_mode h tio)))
      \/ (r.1 = INVALID_HANDLE
          /\ last r.2 = Some (UnixOpen.Close port)
          /\ (forall p, UnixOpen.Close p ∈ r.2 -> p = port)
          /\ (isatty port = false ->
              r.2 = [UnixOpen.Open name; UnixOpen.Isatty port;
                     UnixOpen.Close port]))
  end.
Proof.
  intros r. unfold UnixOpen.sim_open_os_serial in r.
  destruct (open_ name) as [port|errno].
  - destruct (isatty port) eqn:Htty; cbn [negb] in r.
    + destruct (tcgetattr port) as [tio|e] eqn:Hget.
      * cbv zeta in r.
        destruct (tcsetattr port (UnixOpen.raw_mode h tio)) as [[]|e] eqn:Hset;
          subst r; cbn [fst snd].
        -- left. split; [done|].
           split; [intros p Hp; repeat (apply elem_of_cons in Hp as [[=]|Hp]);
                   by apply elem_of_nil in Hp|].
           split; [intros t Hp; repeat (apply elem_of_cons in Hp as [[=]|Hp]);
                   by apply elem_of_nil in Hp|].
           split; [done|]. by exists tio.
        -- right. split; [done|]. split; [done|]. split; [|done].
           intros p Hp. repeat (apply elem_of_cons in Hp as [[=]|Hp]); subst;
             try done. by apply elem_of_nil in Hp.
      * subst r; cbn [fst snd]. right. split; [done|]. split; [done|].
        split; [|done].
        intros p Hp. repeat (apply elem_of_cons in Hp as [[=]|Hp]); subst;
          try done. by apply elem_of_nil in Hp.
    + subst r; cbn [fst snd]. right. split; [done|]. split; [done|].
      split; [|done].
      intros p Hp. repeat (apply elem_of_cons in Hp as [[=]|Hp]); subst;
        try done. by apply elem_of_nil in Hp.
  - destruct (Z.eqb_spec errno (UnixOpen.ENOENT h)) as [E1|E1],
      (Z.eqb_spec errno (UnixOpen.EACCES h)) as [E2|E2];
      cbn [negb andb] in r; subst r; cbn [fst snd];
      (split; [done|]);
      (split; [intros p Hp; repeat (apply elem_of_cons in Hp as [[=]|Hp]);
               by apply elem_of_nil in Hp|]);
      first [done | intros [?|?]; done].
Qed.

(** Extra X18.  The modes that [sim_open_os_serial] hands to [tcsetattr]
    have [PARMRK] and [IGNPAR] set, and [CREAD] and [CLOCAL]; [OPOST] and
    the nine local flags from [ISIG] to [IEXTEN], among them [ICANON] and
    [ECHO], are cleared; every bit outside the flags named in the function
    is as [tcgetattr] gave it.  Where the nine input flags to clear share
    no bit with [PARMRK] and [IGNPAR], all nine are cleared, among them
    [IGNBRK] and [BRKINT], so that a break arrives marked in the stream;
    where [HUPCL] shares no bit with [CREAD] and [CLOCAL], it is
    cleared. *)
Theorem unix_open_sets_raw_mode (h : UnixOpen.termios_h)
    (tio : UnixOpen.termios) :
  let raw := UnixOpen.raw_mode h tio in
  Z.land (UnixOpen.c_iflag raw) (UnixOpen.PARMRK h) = UnixOpen.PARMRK h
  /\ Z.land (UnixOpen.c_iflag raw) (UnixOpen.IGNPAR h) = UnixOpen.IGNPAR h
  /\ Z.land (UnixOpen.c_oflag raw) (UnixOpen.OPOST h) = 0
  /\ Z.land (UnixOpen.c_cflag raw) (UnixOpen.c_set h) = UnixOpen.c_set h
  /\ Z.land (UnixOpen.c_lflag raw) (UnixOpen.l_clear h) = 0
  /\ Z.land (UnixOpen.c_lflag raw) (UnixOpen.ICANON h) = 0
  /\ Z.land (UnixOpen.c_lflag raw) (UnixOpen.ECHO h) = 0
  /\ Z.land (UnixOpen.c_iflag raw)
       (Z.lnot (Z.lor (UnixOpen.i_clear h) (UnixOpen.i_set h)))
     = Z.land (UnixOpen.c_iflag tio)
         (Z.lnot (Z.lor (UnixOpen.i_clear h) (UnixOpen.i_set h)))
  /\ Z.land (UnixOpen.c_oflag raw) (Z.lnot (UnixOpen.OPOST h))
     = Z.land (UnixOpen.c_oflag tio) (Z.lnot (UnixOpen.OPOST h))
  /\ Z.land (UnixOpen.c_cflag raw)
       (Z.lnot (Z.lor (UnixOpen.c_clear h) (UnixOpen.c_set h)))
     = Z.land (UnixOpen.c_cflag tio)
         (Z.lnot (Z.lor (UnixOpen.c_clear h) (UnixOpen.c_set h)))
  /\ Z.land (UnixOpen.c_lflag raw) (Z.lnot (UnixOpen.l_clear h))
     = Z.land (UnixOpen.c_lflag tio) (Z.lnot (UnixOpen.l_clear h))
  /\ UnixOpen.modes_rest raw = UnixOpen.modes_rest tio
  /\ (Z.land (UnixOpen.i_clear h) (UnixOpen.i_set h) = 0 ->
      Z.land (UnixOpen.c_iflag raw) (UnixOpen.i_clear h) = 0
      /\ Z.land (UnixOpen.c_iflag raw) (UnixOpen.IGNBRK h) = 0
      /\ Z.land (UnixOpen.c_iflag raw) (UnixOpen.BRKINT h) = 0)
  /\ (Z.land (UnixOpen.c_clear h) (UnixOpen.c_set h) = 0 ->
      Z.land (UnixOpen.c_cflag raw) (UnixOpen.HUPCL h) = 0).
Proof.
  intros raw. subst raw. unfold UnixOpen.raw_mode.
  cbn [UnixOpen.c_iflag UnixOpen.c_oflag UnixOpen.c_cflag UnixOpen.c_lflag
       UnixOpen.modes_rest].
  unfold UnixOpen.o_clear, UnixOpen.o_set, UnixOpen.l_set, UnixOpen.c_clear in *.
  assert (forall a b, Z.land a (Z.lor a b) = a) as Habs
    by (intros a b; ConfigMore.bitwise).
  assert (forall a b c, Z.land a b = a -> Z.land a (Z.lor b c) = a) as Hleft
    by (intros a b c H; ConfigMore.bitwise).
  assert (forall a b, Z.land b (Z.lor a b) = b) as Hright
    by (intros a b; ConfigMore.bitwise).
  assert (forall a clear m, Z.land m clear = m ->
            Z.land (Z.lor (Z.land a (Z.lnot clear)) 0) m = 0) as Hzero
    by (intros a clear m H; ConfigMore.bitwise).
  assert (forall a clear,
            Z.land (Z.lor (Z.land a (Z.lnot clear)) 0) (Z.lnot clear)
            = Z.land a (Z.lnot clear)) as Hkeep
    by (intros a clear; ConfigMore.bitwise).
  split; [apply OpenFacts.set_bits; unfold UnixOpen.i_set; apply Habs|].
  split; [apply OpenFacts.set_bits; unfold UnixOpen.i_set; apply Hright|].
  split; [apply Hzero, Z.land_diag|].
  split; [apply OpenFacts.set_bits, Z.land_diag|].
  split; [apply Hzero, Z.land_diag|].
  split; [apply Hzero; unfold UnixOpen.l_clear; do 7 apply Hleft; apply Hright|].
  split; [apply Hzero; unfold UnixOpen.l_clear; do 6 apply Hleft; apply Hright|].
  split; [apply OpenFacts.kept_bits|].
  split; [apply Hkeep|].
  split; [apply OpenFacts.kept_bits|].
  split; [apply Hkeep|].
  split; [done|].
  split.
  - intros Hi. split; [|split].
    + apply OpenFacts.cleared_bits; [apply Z.land_diag|done].
    + apply OpenFacts.cleared_bits; [|done].
      unfold UnixOpen.i_clear. do 7 apply Hleft. apply Habs.
    + apply OpenFacts.cleared_bits; [|done].
      unfold UnixOpen.i_clear. do 7 apply Hleft. apply Hright.
  - intros Hc. apply OpenFacts.cleared_bits; [apply Z.land_diag|done].
Qed.

(** X18 with the constants of Linux, where the flags to set and the flags
    to clear share no bit. *)
Lemma unix_open_sets_raw_mode_witness :
  Z.land (UnixOpen.i_clear linux_open_h) (UnixOpen.i_set linux_open_h) = 0
  /\ Z.land (UnixOpen.c_clear linux_open_h) (UnixOpen.c_set linux_open_h) = 0
  /\ (let raw := UnixOpen.raw_mode linux_open_h
                   (UnixOpen.mk_tio 1280 5 3261 35387 0) in
      Z.land (UnixOpen.c_iflag raw) 8 = 8
      /\ Z.land (UnixOpen.c_iflag raw) 4 = 4
      /\ Z.land (UnixOpen.c_iflag raw) (UnixOpen.i_clear linux_open_h) = 0
      /\ Z.land (UnixOpen.c_iflag raw) 1 = 0
      /\ Z.land (UnixOpen.c_iflag raw) 2 = 0
      /\ Z.land (UnixOpen.c_cflag raw) 1024 = 0).
Proof.
  split; [reflexivity|]. split; [reflexivity|].
  destruct (unix_open_sets_raw_mode linux_open_h
              (UnixOpen.mk_tio 1280 5 3261 35387 0))
    as (H1 & H2 & _ & _ & _ & _ & _ & _ & _ & _ & _ & _ & Hi & Hc).
  destruct (Hi eq_refl) as (H3 & H4 & H5).
  intros raw. split; [exact H1|]. split; [exact H2|]. split; [exact H3|].
  split; [exact H4|]. split; [exact H5|]. exact (Hc eq_refl).
Defined.

(** ** The Windows search and open *)

Module WinHostFacts.
Import WinDevices.

Lemma enumerate_spec REG_SZ max values : forall lst beyond,
  (enumerate REG_SZ max values lst beyond).1 =
    lst ++ ((fun v => mk_entry (data v) (value_name v)) <$>
            take (Z.to_nat max - length lst)
                 (filter (fun v => interesting REG_SZ v = true) values))
  /\ ((enumerate REG_SZ max values lst beyond).2 = true <->
      beyond = true
      \/ (values <> []
          /\ max <= Z.of_nat (length lst)
                    + Z.of_nat (length (filter (fun v => interesting REG_SZ v = true)
                                               values)))).
Proof.
  induction values as [|v values IH]; intros lst beyond.
  { simpl. rewrite filter_nil, take_nil, app_nil_r. split; [done|].
    split; [by left|]. by intros [?|[? _]]. }
  cbn [enumerate]. cbv zeta.
  destruct (interesting REG_SZ v) eqn:Hv.
  - rewrite filter_cons_True by done. cbn [length].
    destruct (Z.ltb_spec (Z.of_nat (length lst)) max) as [Hlt|Hge].
    + destruct (IH (lst ++ [mk_entry (data v) (value_name v)])
                  (beyond || (max <=? Z.of_nat (length lst))
                   || (max <=? Z.of_nat (length (lst ++ [mk_entry (data v) (value_name v)])))))
        as [-> ->].
      rewrite length_app. cbn [length]. split.
      * replace (Z.to_nat max - length lst)%nat
          with (S (Z.to_nat max - (length lst + 1))) by lia.
        cbn [take fmap list_fmap]. by rewrite <- app_assoc.
      * rewrite !orb_true_iff, !Z.leb_le.
        destruct values as [|v' values'].
        -- rewrite filter_nil. cbn [length]. split.
           ++ intros [[[?|?]|?]|[? _]]; try done; try (by left); right;
                split; try done; lia.
           ++ intros [?|[_ ?]]; [by left; left; left|]. left. right. lia.
        -- split.
           ++ intros [[[?|?]|?]|[_ ?]]; try (by left); right; split; try done; lia.
           ++ intros [?|[_ ?]]; [by left; left; left|]. right. split; [done|]. lia.
    + cbn [fst snd]. split.
      * replace (Z.to_nat max - length lst)%nat with 0%nat by lia.
        cbn [take fmap list_fmap]. by rewrite app_nil_r.
      * rewrite orb_true_iff, Z.leb_le. split.
        -- intros _. right. split; [done|]. lia.
        -- intros _. by right.
  - rewrite filter_cons_False by (by rewrite Hv).
    destruct (IH lst (beyond || (max <=? Z.of_nat (length lst)))) as [-> ->].
    split; [done|]. rewrite orb_true_iff, Z.leb_le.
    destruct values as [|v' values'].
    + rewrite filter_nil. cbn [length]. split.
      * intros [[?|?]|[? _]]; try done; [by left|]. right. split; [done|]. lia.
      * intros [?|[_ ?]]; [by left; left|]. left. right. lia.
    + split.
      * intros [[?|?]|[_ ?]]; [by left| |]; right; split; try done; lia.
      * intros [?|[_ ?]]; [by left; left|]. right. split; [done|]. lia.
Qed.

End WinHostFacts.

(** Extra X19.  The Windows [sim_serial_os_devices] returns the first
    [max] string values of non-zero size, in the order of the registry,
    the data as the name and the value's name as the description; and it
    writes to [list[max]], past the end of an array of [max] entries, exactly
    when there is a value to look at and at least [max] of the values are
    such strings. *)
Theorem win_devices_and_array_bound (REG_SZ max : Z)
    (values : list WinDevices.reg_value) :
  let r := WinDevices.sim_serial_os_devices REG_SZ max (Done values) in
  let strings :=
    filter (fun v => WinDevices.interesting REG_SZ v = true) values in
  r.1 = (fun v => mk_entry (WinDevices.data v) (WinDevices.value_name v)) <$>
        take (Z.to_nat max) strings
  /\ (r.2 = true <-> values <> [] /\ max <= Z.of_nat (length strings)).
Proof.
  intros r strings. subst r. unfold WinDevices.sim_serial_os_devices.
  destruct (WinHostFacts.enumerate_spec REG_SZ max values [] false) as [-> ->].
  cbn [length app]. rewrite Nat.sub_0_r. split; [done|].
  fold strings. split.
  - intros [?|[? ?]]; [done|]. split; [done|lia].
  - intros [? ?]. right. split; [done|lia].
Qed.

(** Extra X20.  The Windows [sim_open_os_serial] keeps a handle open only
    when it returns it: when [GetDefaultCommConfig] or [CreateFile] fails
    nothing is closed, and nothing is printed for a name that is no
    communications port, is not found or is in use; once [CreateFile] has
    given a handle, either that handle is returned, after [SetCommState]
    took the state with the default parameters and DTR disabled and
    [SetCommTimeouts] took the polling timeouts, with nothing closed and
    nothing printed, or [INVALID_HANDLE] is returned and the last thing
    done is to close the handle. *)
Theorem win_open_keeps_only_what_it_returns (h : WinOpen.winbase_h)
    (INVALID_HANDLE : SERHANDLE)
    (get_default_comm_config : list Z -> host WinOpen.DCB)
    (create_file : list Z -> host SERHANDLE)
    (get_comm_state : SERHANDLE -> host WinOpen.DCB)
    (set_comm_state : SERHANDLE -> WinOpen.DCB -> host unit)
    (set_comm_timeouts : SERHANDLE -> WinOpen.COMMTIMEOUTS -> host unit)
    (name : list Z) :
  let r := WinOpen.sim_open_os_serial h INVALID_HANDLE get_default_comm_config
             create_file get_comm_state set_comm_state set_comm_timeouts name in
  match get_default_comm_config name, create_file name with
  | Failed error, _ =>
      r.1 = INVALID_HANDLE
      /\ (forall port, WinOpen.CloseHandle port ∉ r.2)
      /\ (WinOpen.CreateFile name ∉ r.2)
      /\ (error = WinOpen.ERROR_INVALID_PARAMETER h ->
          forall text, WinOpen.Stderr text ∉ r.2)
  | Done _, Failed error =>
      r.1 = INVALID_HANDLE
      /\ (forall port, WinOpen.CloseHandle port ∉ r.2)
      /\ (error = WinOpen.ERROR_FILE_NOT_FOUND h
          \/ error = WinOpen.ERROR_ACCESS_DENIED h ->
          forall text, WinOpen.Stderr text ∉ r.2)
  | Done commdefault, Done port =>
      (r.1 = port
       /\ (forall p, WinOpen.CloseHandle p ∉ r.2)
       /\ (forall text, WinOpen.Stderr text ∉ r.2)
       /\ exists dcb,
            get_comm_state port = Done dcb
            /\ set_comm_state port (WinOpen.with_defaults h commdefault dcb)
               = Done tt
            /\ set_comm_timeouts port (WinOpen.polling h) = Done tt
            /\ WinOpen.SetCommState port (WinOpen.with_defaults h commdefault dcb)
               ∈ r.2
            /\ last r.2 = Some (WinOpen.SetCommTimeouts port (WinOpen.polling h)))
      \/ (r.1 = INVALID_HANDLE
          /\ last r.2 = Some (WinOpen.CloseHandle port)
          /\ (forall p, WinOpen.CloseHandle p ∈ r.2 -> p = port))
  end.
Proof.
  intros r. unfold WinOpen.sim_open_os_serial in r.
  assert (forall (P : WinOpen.event -> Prop) (l : list WinOpen.event),
            Forall (fun x => ~ P x) l -> forall x, P x -> x ∉ l) as Hnone.
  { intros P l Hl x Hx Hin. rewrite Forall_forall in Hl. by apply (Hl x). }
  destruct (get_default_comm_config name) as [commdefault|error].
  - destruct (create_file name) as [port|error].
    + destruct (get_comm_state port) as [dcb|error] eqn:Hget.
      * cbv zeta in r.
        destruct (set_comm_state port (WinOpen.with_defaults h commdefault dcb))
          as [[]|error] eqn:Hset.
        -- destruct (set_comm_timeouts port (WinOpen.polling h))
             as [[]|error] eqn:Hcto; subst r; cbn [fst snd].
           ++ left. split; [done|].
              split; [intros p Hp; repeat (apply elem_of_cons in Hp as [[=]|Hp]);
                      by apply elem_of_nil in Hp|].
              split; [intros t Hp; repeat (apply elem_of_cons in Hp as [[=]|Hp]);
                      by apply elem_of_nil in Hp|].
              exists dcb. split; [done|]. split; [done|]. split; [done|].
              split; [|done].
              rewrite !elem_of_cons. auto 10.
           ++ right. split; [done|]. split; [done|].
              intros p Hp. repeat (apply elem_of_cons in Hp as [[=]|Hp]); subst;
                try done. by apply elem_of_nil in Hp.
        -- subst r; cbn [fst snd]. right. split; [done|]. split; [done|].
           intros p Hp. repeat (apply elem_of_cons in Hp as [[=]|Hp]); subst;
             try done. by apply elem_of_nil in Hp.
      * right. destruct (negb _); subst r; cbn [fst snd];
          (split; [done|]); (split; [done|]);
          intros p Hp; repeat (apply elem_of_cons in Hp as [[=]|Hp]); subst;
          try done; by apply elem_of_nil in Hp.
    + destruct (Z.eqb_spec error (WinOpen.ERROR_FILE_NOT_FOUND h)) as [E1|E1],
        (Z.eqb_spec error (WinOpen.ERROR_ACCESS_DENIED h)) as [E2|E2];
        cbn [negb andb] in r; subst r; cbn [fst snd];
        (split; [done|]);
        (split; [intros p Hp; repeat (apply elem_of_cons in Hp as [[=]|Hp]);
                 by apply elem_of_nil in Hp|]);
        try (intros _ t Hp; repeat (apply elem_of_cons in Hp as [[=]|Hp]);
             by apply elem_of_nil in Hp);
        intros [?|?]; done.
  - destruct (Z.eqb_spec error (WinOpen.ERROR_INVALID_PARAMETER h)) as [E1|E1];
      cbn [negb] in r; subst r; cbn [fst snd];
      (split; [done|]);
      (split; [intros p Hp; repeat (apply elem_of_cons in Hp as [[=]|Hp]);
               by apply elem_of_nil in Hp|]);
      (split; [intros Hp; repeat (apply elem_of_cons in Hp as [[=]|Hp]);
               by apply elem_of_nil in Hp|]);
      try done;
      intros _ t Hp; repeat (apply elem_of_cons in Hp as [[=]|Hp]);
      by apply elem_of_nil in Hp.
Qed.

